(** * Cool Little Battery Monitor: a shallow embedding of battery_monitor.c

    The development follows the C source function by function.  C [int]
    values ([percentage], [charging], [present], the configuration fields) are
    integers of [Z]; the escalation code only compares and copies them, so no
    wrap-around arises there.  [time_t] values are integers of [Z] too: the
    single subtraction [current_time - last_alert_time] is between two clock
    readings and stays far inside the 64-bit range.  C strings are lists of
    [ascii] characters without the terminating NUL.

    The callback [check_battery_timer] is only installed once [main] has
    initialised libnotify, so [show_notification] always reaches
    [notify_notification_show]. *)

From Stdlib Require Import ZArith List Bool Ascii String Lia.
Import ListNotations.

Local Open Scope Z_scope.

(** ** Data *)

(** [BatteryConfig].  [config_path] and the three icon names are C strings. *)
Record BatteryConfig := mkConfig {
  warning_level : Z;
  critical_level : Z;
  check_interval : Z;
  alert_timeout : Z;
  config_path : list ascii;
  icon_charging : list ascii;
  icon_battery : list ascii;
  icon_low : list ascii;
  force_suspend : Z;
  impossible_alerts : Z;
  suspend_method : Z
}.

(** [BatteryStatus]. *)
Record BatteryStatus := mkStatus {
  percentage : Z;
  charging : Z;
  present : Z;
  status : list ascii;
  time_remaining : Z
}.

(** The module-level variables read and written by the timer callback.
    [tray_icon] and [alert_dialog] are pointers of which only the test against
    NULL matters: [true] stands for a live widget. *)
Record Globals := mkGlobals {
  tray_icon : bool;
  last_percentage : Z;
  last_charging_state : Z;
  last_alert_time : Z;
  alert_active : Z;
  alert_dialog : bool
}.

(** The initial values of the statics, with the tray icon created by [main]. *)
Definition initial_globals : Globals :=
  {| tray_icon := true;
     last_percentage := -1;
     last_charging_state := -1;
     last_alert_time := 0;
     alert_active := 0;
     alert_dialog := false |}.

(** The branch taken by [update_tray_icon], which selects icon and tooltip. *)
Inductive Band := Absent | Charging | Critical | Warning | Normal.

(** The two texts built by the callback and the one of [force_system_suspend]. *)
Inductive Message :=
| CriticalBattery (pct : Z)
| LowBattery (pct crit : Z)
| SuspendingNow.

Inductive Urgency := UrgCritical | UrgNormal.

(** What the callback does to the outside, in program order.
    - [UpdateDisplay]: [update_tray_icon] set icon and tooltip;
    - [Notify]: [show_notification] posted a desktop notification;
    - [ImpossibleAlert]: [show_impossible_alert] ran its modal dialog;
    - [DismissAlert]: a live [alert_dialog] was destroyed;
    - [Sleep]: [sleep(secs)];
    - [Resample]: the second [get_battery_status] of the callback;
    - [Suspend]: [force_system_suspend] was called. *)
Inductive Action :=
| UpdateDisplay (b : Band) (pct : Z)
| Notify (u : Urgency) (m : Message)
| ImpossibleAlert (m : Message)
| DismissAlert
| Sleep (secs : Z)
| Resample
| Suspend.

(** The rows of [suspend_commands], by what they invoke. *)
Inductive SuspendMethod := Systemd | PmUtils | DBus | KernelDirect.

(** The full trace of the process: actions and the calls of [system] made
    by [force_system_suspend], each with the exit status it returned. *)
Inductive Effect :=
| Act (a : Action)
| SystemCall (m : SuspendMethod) (exit : Z).

(** Decidable equality of the table rows. *)
Definition SuspendMethod_eq_dec (a b : SuspendMethod) : {a = b} + {a <> b}.
Proof. decide equality. Defined.

(** C truth value of an [int]. *)
Definition truthy (z : Z) : bool := negb (z =? 0).

(** ** The hardware source: [get_battery_status] *)

(** One directory of /sys/class/power_supply as the sampler sees it.
    - [present_file]: [None] when [fopen] fails, [Some None] when
      [fscanf "%d"] converts nothing, [Some (Some v)] when it reads [v];
    - [capacity_file]: the same for the capacity attribute;
    - [status_file]: [None] when [fopen] fails, else the bytes of the file. *)
Record PowerSupply := mkSupply {
  present_file : option (option Z);
  capacity_file : option (option Z);
  status_file : option (list ascii)
}.

Definition NUL : ascii := Ascii.zero.
Definition LF : ascii := ascii_of_nat 10.

(** [fgets(buf, size, file)] on the unread bytes [input]: at most [size - 1]
    bytes, ending after the first newline; [None] at end of file.  Returns
    the bytes stored and the bytes left unread. *)
Fixpoint fgets_bytes (room : nat) (input : list ascii) : list ascii * list ascii :=
  match room, input with
  | O, _ => ([], input)
  | _, [] => ([], [])
  | S room', c :: rest =>
      if Ascii.eqb c LF then ([c], rest)
      else let (got, left) := fgets_bytes room' rest in (c :: got, left)
  end.

Definition fgets (size : nat) (input : list ascii) : option (list ascii * list ascii) :=
  match input, size with
  | [], _ => None
  | _, O => None
  | _, S room => Some (fgets_bytes room input)
  end.

(** The C string held by a buffer: the bytes before the first NUL. *)
Fixpoint cstr (buf : list ascii) : list ascii :=
  match buf with
  | [] => []
  | c :: rest => if Ascii.eqb c NUL then [] else c :: cstr rest
  end.

(** [s[strcspn(s, "\n")] = 0]: cut the C string at its first newline. *)
Fixpoint strip_newline (s : list ascii) : list ascii :=
  match s with
  | [] => []
  | c :: rest => if Ascii.eqb c LF then [] else c :: strip_newline rest
  end.

(** [strcmp(a, b) == 0]. *)
Definition streq (a b : list ascii) : bool :=
  if list_eq_dec ascii_dec a b then true else false.

Definition str (s : string) : list ascii := list_ascii_of_string s.

(** The body of the probe loop for one battery that reports presence. *)
Definition read_battery (b : PowerSupply) : BatteryStatus :=
  let pct := match capacity_file b with
             | Some (Some v) => v
             | _ => 0
             end in
  match status_file b with
  | Some bytes =>
      let s := match fgets 32 bytes with
               | Some (buf, _) => strip_newline (cstr buf)
               | None => []
               end in
      {| percentage := pct;
         charging := if streq s (str "Charging") then 1 else 0;
         present := 1;
         status := s;
         time_remaining := 0 |}
  | None =>
      {| percentage := pct; charging := 0; present := 1;
         status := []; time_remaining := 0 |}
  end.

(** [BatteryStatus status = {0}]. *)
Definition zero_status : BatteryStatus :=
  {| percentage := 0; charging := 0; present := 0;
     status := []; time_remaining := 0 |}.

(** The loop over [battery_paths]: the first battery whose [present] file
    opens and reads a non-zero number wins. *)
Fixpoint probe (paths : list PowerSupply) : BatteryStatus :=
  match paths with
  | [] => zero_status
  | b :: rest =>
      match present_file b with
      | Some (Some p) => if truthy p then read_battery b else probe rest
      | _ => probe rest
      end
  end.

(** The state of sysfs at one instant: BAT0 and BAT1. *)
Record Sysfs := mkSysfs { BAT0 : PowerSupply; BAT1 : PowerSupply }.

Definition get_battery_status (hw : Sysfs) : BatteryStatus :=
  probe [BAT0 hw; BAT1 hw].

(** ** The callback's effects: a state and trace monad

    A computation reads and writes the [Globals] and appends to the trace. *)

Definition M (A : Type) : Type := Globals -> A * Globals * list Effect.

Definition ret {A} (a : A) : M A := fun g => (a, g, []).

Definition bind {A B} (m : M A) (k : A -> M B) : M B :=
  fun g =>
    let '(a, g1, t1) := m g in
    let '(b, g2, t2) := k a g1 in
    (b, g2, t1 ++ t2).

Definition get : M Globals := fun g => (g, g, []).
Definition modify (f : Globals -> Globals) : M unit := fun g => (tt, f g, []).
Definition emit (a : Action) : M unit := fun g => (tt, g, [Act a]).
Definition emit_call (m : SuspendMethod) (exit : Z) : M unit :=
  fun g => (tt, g, [SystemCall m exit]).

Declare Scope monad_scope.
Delimit Scope monad_scope with monad.
Notation "x <- m ;; k" := (bind m (fun x => k))
  (at level 61, m at next level, right associativity) : monad_scope.
Notation "m ;; k" := (bind m (fun _ => k))
  (at level 61, right associativity) : monad_scope.
Local Open Scope monad_scope.

Definition skip : M unit := ret tt.

(** Successor state and trace of a run. *)
Definition state_of {A} (r : A * Globals * list Effect) : Globals := snd (fst r).
Definition trace_of {A} (r : A * Globals * list Effect) : list Effect := snd r.

(** Assignments to the statics. *)
Definition set_last_percentage (v : Z) : M unit :=
  modify (fun g => {| tray_icon := tray_icon g;
                      last_percentage := v;
                      last_charging_state := last_charging_state g;
                      last_alert_time := last_alert_time g;
                      alert_active := alert_active g;
                      alert_dialog := alert_dialog g |}).

Definition set_last_charging_state (v : Z) : M unit :=
  modify (fun g => {| tray_icon := tray_icon g;
                      last_percentage := last_percentage g;
                      last_charging_state := v;
                      last_alert_time := last_alert_time g;
                      alert_active := alert_active g;
                      alert_dialog := alert_dialog g |}).

Definition set_last_alert_time (v : Z) : M unit :=
  modify (fun g => {| tray_icon := tray_icon g;
                      last_percentage := last_percentage g;
                      last_charging_state := last_charging_state g;
                      last_alert_time := v;
                      alert_active := alert_active g;
                      alert_dialog := alert_dialog g |}).

Definition set_alert_active (v : Z) : M unit :=
  modify (fun g => {| tray_icon := tray_icon g;
                      last_percentage := last_percentage g;
                      last_charging_state := last_charging_state g;
                      last_alert_time := last_alert_time g;
                      alert_active := v;
                      alert_dialog := alert_dialog g |}).

Definition set_alert_dialog (v : bool) : M unit :=
  modify (fun g => {| tray_icon := tray_icon g;
                      last_percentage := last_percentage g;
                      last_charging_state := last_charging_state g;
                      last_alert_time := last_alert_time g;
                      alert_active := alert_active g;
                      alert_dialog := v |}).

(** [if (alert_dialog) { gtk_widget_destroy(alert_dialog); alert_dialog = NULL; }] *)
Definition destroy_alert_dialog : M unit :=
  g <- get ;;
  if alert_dialog g then emit DismissAlert ;; set_alert_dialog false else skip.

(** [suspend_commands], rows 0 to 3. *)
Definition suspend_commands : list SuspendMethod :=
  [Systemd; PmUtils; DBus; KernelDirect].

Section Engine.

(** The global [config], which the callback only reads. *)
Variable config : BatteryConfig.

(** [system(suspend_commands[i])]: the exit status of each command. *)
Variable system : SuspendMethod -> Z.

Definition band_of (s : BatteryStatus) : Band :=
  if negb (truthy (present s)) then Absent
  else if truthy (charging s) then Charging
  else if percentage s <=? critical_level config then Critical
  else if percentage s <=? warning_level config then Warning
  else Normal.

Definition update_tray_icon (s : BatteryStatus) : M unit :=
  g <- get ;;
  if negb (tray_icon g) then skip
  else emit (UpdateDisplay (band_of s) (percentage s)).

Definition show_notification (m : Message) (u : Urgency) : M unit :=
  emit (Notify u m).

(** The dialog is created, run until answered and destroyed within the
    call, so [alert_dialog] is NULL again on return. *)
Definition show_impossible_alert (m : Message) : M unit :=
  if negb (truthy (impossible_alerts config)) then skip
  else
    destroy_alert_dialog ;;
    set_alert_dialog true ;;
    emit (ImpossibleAlert m) ;;
    set_alert_dialog false ;;
    set_alert_active 1.

(** The fallback loop [for (i = 0; i < 4; i++)] from row [i] on: [rows] are
    the rows not yet visited. *)
Fixpoint try_fallbacks (i : Z) (rows : list SuspendMethod) : M unit :=
  match rows with
  | [] => skip
  | m :: rest =>
      if negb (i =? suspend_method config) then
        emit_call m (system m) ;;
        if system m =? 0 then skip else try_fallbacks (i + 1) rest
      else try_fallbacks (i + 1) rest
  end.

Definition force_system_suspend : M unit :=
  emit Suspend ;;
  show_notification SuspendingNow UrgCritical ;;
  if (0 <=? suspend_method config) && (suspend_method config <? 4) then
    let primary := nth (Z.to_nat (suspend_method config)) suspend_commands Systemd in
    emit_call primary (system primary) ;;
    if negb (system primary =? 0) then try_fallbacks 0 suspend_commands
    else skip
  else skip.

(** The timer callback, with what it obtains from outside as parameters:
    [st] is the result of its first [get_battery_status], [current_time]
    that of [time(NULL)], [final_check] the result of the second
    [get_battery_status], made after the sleep. *)
Definition check_battery_timer (st : BatteryStatus) (current_time : Z)
    (final_check : BatteryStatus) : M unit :=
  if negb (truthy (present st)) then update_tray_icon st
  else
    update_tray_icon st ;;
    if truthy (charging st) then
      set_alert_active 0 ;;
      destroy_alert_dialog ;;
      set_last_percentage (percentage st) ;;
      set_last_charging_state (charging st)
    else
      (if percentage st <=? critical_level config then
         g <- get ;;
         if current_time - last_alert_time g >? 30 then
           show_notification (CriticalBattery (percentage st)) UrgCritical ;;
           show_impossible_alert (CriticalBattery (percentage st)) ;;
           (if truthy (force_suspend config) then
              emit (Sleep 10) ;;
              emit Resample ;;
              if (percentage final_check <=? critical_level config)
                 && negb (truthy (charging final_check))
              then force_system_suspend
              else skip
            else skip) ;;
           set_last_alert_time current_time
         else skip
       else if percentage st <=? warning_level config then
         g <- get ;;
         if current_time - last_alert_time g >? 120 then
           show_notification
             (LowBattery (percentage st) (critical_level config)) UrgCritical ;;
           show_impossible_alert
             (LowBattery (percentage st) (critical_level config)) ;;
           set_last_alert_time current_time
         else skip
       else
         set_alert_active 0 ;;
         destroy_alert_dialog) ;;
      set_last_percentage (percentage st) ;;
      set_last_charging_state (charging st).

End Engine.

(** One tick of the timer against the hardware: [hw] is sysfs when the
    callback starts and [hw_later] sysfs after the ten seconds of sleep. *)
Definition poll (config : BatteryConfig) (system : SuspendMethod -> Z)
    (hw : Sysfs) (current_time : Z) (hw_later : Sysfs) : M unit :=
  check_battery_timer config system
    (get_battery_status hw) current_time (get_battery_status hw_later).

(** ** Observations on traces *)

Definition is_suspend (e : Effect) : bool :=
  match e with Act Suspend => true | _ => false end.

Definition is_notify (e : Effect) : bool :=
  match e with Act (Notify _ _) => true | _ => false end.

Definition is_impossible_alert (e : Effect) : bool :=
  match e with Act (ImpossibleAlert _) => true | _ => false end.

Definition is_dismiss (e : Effect) : bool :=
  match e with Act DismissAlert => true | _ => false end.

Definition is_sleep (e : Effect) : bool :=
  match e with Act (Sleep _) => true | _ => false end.

Definition is_resample (e : Effect) : bool :=
  match e with Act Resample => true | _ => false end.

Definition is_system_call (e : Effect) : bool :=
  match e with SystemCall _ _ => true | _ => false end.

Definition is_display (e : Effect) : bool :=
  match e with Act (UpdateDisplay _ _) => true | _ => false end.

(** Some effect of the trace satisfies [p]. *)
Definition emits (p : Effect -> bool) (t : list Effect) : bool := existsb p t.

(** The actions of a trace, the calls of [system] left out. *)
Fixpoint actions_of (t : list Effect) : list Action :=
  match t with
  | [] => []
  | Act a :: rest => a :: actions_of rest
  | SystemCall _ _ :: rest => actions_of rest
  end.

(** ** Configuration: [init_default_config] and [load_config] *)

Definition code (c : ascii) : Z := Z.of_nat (nat_of_ascii c).

(** [isspace] and [isdigit] of the C locale. *)
Definition isspace (c : ascii) : bool :=
  (code c =? 32) || ((9 <=? code c) && (code c <=? 13)).

Definition isdigit (c : ascii) : bool :=
  (48 <=? code c) && (code c <=? 57).

Fixpoint skip_spaces (s : list ascii) : list ascii :=
  match s with
  | c :: rest => if isspace c then skip_spaces rest else s
  | [] => []
  end.

(** The value of the leading decimal digits of [s], continuing from [acc]. *)
Fixpoint digits (acc : Z) (s : list ascii) : Z :=
  match s with
  | c :: rest => if isdigit c then digits (10 * acc + (code c - 48)) rest else acc
  | [] => acc
  end.

Definition LONG_MAX : Z := 2 ^ 63 - 1.
Definition LONG_MIN : Z := - 2 ^ 63.

(** [strtol(s, NULL, 10)]: white space, an optional sign, digits; the result
    saturates at the bounds of [long]. *)
Definition strtol (s : list ascii) : Z :=
  match skip_spaces s with
  | c :: rest =>
      if Ascii.eqb c "-" then Z.max LONG_MIN (- digits 0 rest)
      else if Ascii.eqb c "+" then Z.min LONG_MAX (digits 0 rest)
      else Z.min LONG_MAX (digits 0 (c :: rest))
  | [] => 0
  end.

(** Conversion of a [long] to [int]: the low 32 bits, two's complement. *)
Definition to_int (z : Z) : Z := (z + 2 ^ 31) mod 2 ^ 32 - 2 ^ 31.

(** [atoi] as the C library of the target implements it,
    [(int) strtol(s, NULL, 10)]. *)
Definition atoi (s : list ascii) : Z := to_int (strtol s).

(** A bounded scanf conversion: the longest prefix of [s] of at most [width]
    characters that satisfy [p], and what follows it. *)
Fixpoint scan_set (width : nat) (p : ascii -> bool) (s : list ascii)
  : list ascii * list ascii :=
  match width, s with
  | S w, c :: rest =>
      if p c then let (a, b) := scan_set w p rest in (c :: a, b) else ([], s)
  | _, _ => ([], s)
  end.

(** [sscanf(line, "%255[^=]=%255s", key, value) == 2], with the two strings
    stored. *)
Definition sscanf_key_value (line : list ascii) : option (list ascii * list ascii) :=
  let (key, rest) := scan_set 255 (fun c => negb (Ascii.eqb c "=")) line in
  match key, rest with
  | _ :: _, c :: rest' =>
      if Ascii.eqb c "=" then
        let (value, _) := scan_set 255 (fun c => negb (isspace c)) (skip_spaces rest') in
        match value with
        | [] => None
        | _ => Some (key, value)
        end
      else None
  | _, _ => None
  end.

(** Assignments to one field of [config]. *)
Definition set_warning_level (v : Z) (c : BatteryConfig) : BatteryConfig :=
  mkConfig v (critical_level c) (check_interval c) (alert_timeout c)
    (config_path c) (icon_charging c) (icon_battery c) (icon_low c)
    (force_suspend c) (impossible_alerts c) (suspend_method c).

Definition set_critical_level (v : Z) (c : BatteryConfig) : BatteryConfig :=
  mkConfig (warning_level c) v (check_interval c) (alert_timeout c)
    (config_path c) (icon_charging c) (icon_battery c) (icon_low c)
    (force_suspend c) (impossible_alerts c) (suspend_method c).

Definition set_check_interval (v : Z) (c : BatteryConfig) : BatteryConfig :=
  mkConfig (warning_level c) (critical_level c) v (alert_timeout c)
    (config_path c) (icon_charging c) (icon_battery c) (icon_low c)
    (force_suspend c) (impossible_alerts c) (suspend_method c).

Definition set_alert_timeout (v : Z) (c : BatteryConfig) : BatteryConfig :=
  mkConfig (warning_level c) (critical_level c) (check_interval c) v
    (config_path c) (icon_charging c) (icon_battery c) (icon_low c)
    (force_suspend c) (impossible_alerts c) (suspend_method c).

Definition set_icon_charging (v : list ascii) (c : BatteryConfig) : BatteryConfig :=
  mkConfig (warning_level c) (critical_level c) (check_interval c) (alert_timeout c)
    (config_path c) v (icon_battery c) (icon_low c)
    (force_suspend c) (impossible_alerts c) (suspend_method c).

Definition set_icon_battery (v : list ascii) (c : BatteryConfig) : BatteryConfig :=
  mkConfig (warning_level c) (critical_level c) (check_interval c) (alert_timeout c)
    (config_path c) (icon_charging c) v (icon_low c)
    (force_suspend c) (impossible_alerts c) (suspend_method c).

Definition set_icon_low (v : list ascii) (c : BatteryConfig) : BatteryConfig :=
  mkConfig (warning_level c) (critical_level c) (check_interval c) (alert_timeout c)
    (config_path c) (icon_charging c) (icon_battery c) v
    (force_suspend c) (impossible_alerts c) (suspend_method c).

Definition set_force_suspend (v : Z) (c : BatteryConfig) : BatteryConfig :=
  mkConfig (warning_level c) (critical_level c) (check_interval c) (alert_timeout c)
    (config_path c) (icon_charging c) (icon_battery c) (icon_low c)
    v (impossible_alerts c) (suspend_method c).

Definition set_impossible_alerts (v : Z) (c : BatteryConfig) : BatteryConfig :=
  mkConfig (warning_level c) (critical_level c) (check_interval c) (alert_timeout c)
    (config_path c) (icon_charging c) (icon_battery c) (icon_low c)
    (force_suspend c) v (suspend_method c).

Definition set_suspend_method (v : Z) (c : BatteryConfig) : BatteryConfig :=
  mkConfig (warning_level c) (critical_level c) (check_interval c) (alert_timeout c)
    (config_path c) (icon_charging c) (icon_battery c) (icon_low c)
    (force_suspend c) (impossible_alerts c) v.

(** [init_default_config]; [home] is [getenv("HOME")], and [snprintf] keeps
    at most 511 characters of the path. *)
Definition init_default_config (home : option (list ascii)) : BatteryConfig :=
  {| warning_level := 20;
     critical_level := 10;
     check_interval := 30;
     alert_timeout := 30;
     config_path :=
       match home with
       | Some h => firstn 511 (h ++ str "/.config/cool-little-battery-monitor.conf")
       | None => str "/tmp/cool-little-battery-monitor.conf"
       end;
     icon_charging := str "battery-caution-charging";
     icon_battery := str "battery-good";
     icon_low := str "battery-caution";
     force_suspend := 1;
     impossible_alerts := 1;
     suspend_method := 0 |}.

(** The chain of [strcmp] tests on a scanned [key] and [value]. *)
Definition set_option (key value : list ascii) (c : BatteryConfig) : BatteryConfig :=
  if streq key (str "warning_level") then set_warning_level (atoi value) c
  else if streq key (str "critical_level") then set_critical_level (atoi value) c
  else if streq key (str "check_interval") then set_check_interval (atoi value) c
  else if streq key (str "alert_timeout") then set_alert_timeout (atoi value) c
  else if streq key (str "force_suspend") then set_force_suspend (atoi value) c
  else if streq key (str "impossible_alerts") then set_impossible_alerts (atoi value) c
  else if streq key (str "suspend_method") then set_suspend_method (atoi value) c
  else if streq key (str "icon_charging") then set_icon_charging value c
  else if streq key (str "icon_battery") then set_icon_battery value c
  else if streq key (str "icon_low") then set_icon_low value c
  else c.

(** The body of the [while] loop for the bytes [buf] stored by [fgets]. *)
Definition process_line (buf : list ascii) (c : BatteryConfig) : BatteryConfig :=
  match strip_newline (cstr buf) with
  | [] => c
  | ch :: rest =>
      if Ascii.eqb ch "#" then c
      else match sscanf_key_value (ch :: rest) with
           | Some (key, value) => set_option key value c
           | None => c
           end
  end.

(** [while (fgets(line, sizeof(line), file))] for at most [fuel] rounds. *)
Fixpoint read_lines (fuel : nat) (input : list ascii) (c : BatteryConfig)
  : BatteryConfig :=
  match fuel with
  | O => c
  | S fuel' =>
      match fgets 512 input with
      | None => c
      | Some (buf, rest) => read_lines fuel' rest (process_line buf c)
      end
  end.

(** [load_config]: [file] is [None] when [fopen] fails, else the bytes of the
    file.  Every round of the loop consumes a byte, so as many rounds as the
    file has bytes reach its end ([read_lines_fuel]). *)
Definition load_config (file : option (list ascii)) (c : BatteryConfig)
  : BatteryConfig :=
  match file with
  | None => c
  | Some bytes => read_lines (List.length bytes) bytes c
  end.

(** The configuration [main] starts with. *)
Definition startup_config (home : option (list ascii)) (file : option (list ascii))
  : BatteryConfig :=
  load_config file (init_default_config home).

(** ** Vocabulary of the statements *)

(** None of the escalation effects occurs in a trace: no notification, no
    modal alert, no grace wait, no re-sample, no suspend and no command. *)
Definition quiet (t : list Effect) : Prop :=
  emits is_notify t = false /\
  emits is_impossible_alert t = false /\
  emits is_sleep t = false /\
  emits is_resample t = false /\
  emits is_suspend t = false /\
  emits is_system_call t = false.

(** The calls of [system] of a trace, in order. *)
Fixpoint calls_of (t : list Effect) : list (SuspendMethod * Z) :=
  match t with
  | [] => []
  | SystemCall m e :: rest => (m, e) :: calls_of rest
  | Act _ :: rest => calls_of rest
  end.

(** Some command of the trace exited with status 0. *)
Definition succeeded (t : list Effect) : bool :=
  existsb (fun c => snd c =? 0) (calls_of t).

(** The fallback chain in the words of the specification: attempt the
    methods of [ms] in order, stopping at the first success. *)
Fixpoint attempt_in_order (system : SuspendMethod -> Z) (ms : list SuspendMethod)
  : list (SuspendMethod * Z) :=
  match ms with
  | [] => []
  | m :: rest =>
      (m, system m) :: if system m =? 0 then [] else attempt_in_order system rest
  end.

(** The configured method first, then every remaining row of the table. *)
Definition fallback_chain (configured : SuspendMethod) : list SuspendMethod :=
  configured :: remove SuspendMethod_eq_dec configured suspend_commands.

(** The trace of [force_system_suspend], which does not depend on the
    statics ([force_system_suspend_frame]). *)
Definition suspend_trace (config : BatteryConfig) (system : SuspendMethod -> Z)
  : list Effect :=
  trace_of (force_system_suspend config system initial_globals).

(** The pieces a trace of the callback is made of. *)
Definition display_trace (config : BatteryConfig) (st : BatteryStatus) (g : Globals)
  : list Effect :=
  if tray_icon g
  then [Act (UpdateDisplay (band_of config st) (percentage st))]
  else [].

Definition dismiss_trace (g : Globals) : list Effect :=
  if alert_dialog g then [Act DismissAlert] else [].

Definition alert_trace (config : BatteryConfig) (m : Message) (g : Globals)
  : list Effect :=
  if truthy (impossible_alerts config)
  then dismiss_trace g ++ [Act (ImpossibleAlert m)]
  else [].

Definition still_critical (config : BatteryConfig) (final_check : BatteryStatus)
  : bool :=
  (percentage final_check <=? critical_level config)
  && negb (truthy (charging final_check)).

Definition grace_trace (config : BatteryConfig) (system : SuspendMethod -> Z)
    (final_check : BatteryStatus) : list Effect :=
  if truthy (force_suspend config)
  then Act (Sleep 10) :: Act Resample
       :: (if still_critical config final_check
           then suspend_trace config system else [])
  else [].

(** The statics after a cycle that ran [show_impossible_alert]. *)
Definition alerted (config : BatteryConfig) (st : BatteryStatus) (now : Z)
    (g : Globals) : Globals :=
  {| tray_icon := tray_icon g;
     last_percentage := percentage st;
     last_charging_state := charging st;
     last_alert_time := now;
     alert_active := if truthy (impossible_alerts config) then 1 else alert_active g;
     alert_dialog := if truthy (impossible_alerts config) then false else alert_dialog g |}.

(** The statics after a cycle that only recorded the reading. *)
Definition recorded (st : BatteryStatus) (g : Globals) : Globals :=
  {| tray_icon := tray_icon g;
     last_percentage := percentage st;
     last_charging_state := charging st;
     last_alert_time := last_alert_time g;
     alert_active := alert_active g;
     alert_dialog := alert_dialog g |}.

(** The statics after a cycle that cleared the alert. *)
Definition cleared (st : BatteryStatus) (g : Globals) : Globals :=
  {| tray_icon := tray_icon g;
     last_percentage := percentage st;
     last_charging_state := charging st;
     last_alert_time := last_alert_time g;
     alert_active := 0;
     alert_dialog := false |}.

(** Sample inputs. *)
Definition default_config : BatteryConfig := init_default_config None.

Definition reading (pct chg : Z) : BatteryStatus :=
  {| percentage := pct; charging := chg; present := 1;
     status := []; time_remaining := 0 |}.

(** A battery directory whose files all fail to open, and one that reports a
    discharging battery at [pct] percent. *)
Definition unreadable : PowerSupply :=
  {| present_file := None; capacity_file := None; status_file := None |}.

Definition discharging (pct : Z) : PowerSupply :=
  {| present_file := Some (Some 1);
     capacity_file := Some (Some pct);
     status_file := Some (str "Discharging" ++ [LF]) |}.

Definition always_fails : SuspendMethod -> Z := fun _ => 1.
Definition always_succeeds : SuspendMethod -> Z := fun _ => 0.

(** The ten keys [load_config] recognises, the field each one sets and what
    is stored there: [atoi] of the text for the numbers, the text itself for
    the icon names. *)
Inductive Field :=
| FWarningLevel | FCriticalLevel | FCheckInterval | FAlertTimeout
| FForceSuspend | FImpossibleAlerts | FSuspendMethod
| FIconCharging | FIconBattery | FIconLow.

Inductive FieldValue :=
| IntValue (z : Z)
| TextValue (s : list ascii).

Definition key_of (f : Field) : list ascii :=
  match f with
  | FWarningLevel => str "warning_level"
  | FCriticalLevel => str "critical_level"
  | FCheckInterval => str "check_interval"
  | FAlertTimeout => str "alert_timeout"
  | FForceSuspend => str "force_suspend"
  | FImpossibleAlerts => str "impossible_alerts"
  | FSuspendMethod => str "suspend_method"
  | FIconCharging => str "icon_charging"
  | FIconBattery => str "icon_battery"
  | FIconLow => str "icon_low"
  end.

Definition field (f : Field) (c : BatteryConfig) : FieldValue :=
  match f with
  | FWarningLevel => IntValue (warning_level c)
  | FCriticalLevel => IntValue (critical_level c)
  | FCheckInterval => IntValue (check_interval c)
  | FAlertTimeout => IntValue (alert_timeout c)
  | FForceSuspend => IntValue (force_suspend c)
  | FImpossibleAlerts => IntValue (impossible_alerts c)
  | FSuspendMethod => IntValue (suspend_method c)
  | FIconCharging => TextValue (icon_charging c)
  | FIconBattery => TextValue (icon_battery c)
  | FIconLow => TextValue (icon_low c)
  end.

Definition stored_value (f : Field) (text : list ascii) : FieldValue :=
  match f with
  | FIconCharging | FIconBattery | FIconLow => TextValue text
  | _ => IntValue (atoi text)
  end.

(** The lines of a configuration file as [save_config] writes it:
    assignments [key=value], comments and blank lines. *)
Inductive ConfigLine :=
| Assign (key value : list ascii)
| Comment (text : list ascii)
| Blank.

Definition render_line (l : ConfigLine) : list ascii :=
  match l with
  | Assign key value => key ++ "="%char :: value ++ [LF]
  | Comment text => "#"%char :: text ++ [LF]
  | Blank => [LF]
  end.

Definition render (lines : list ConfigLine) : list ascii :=
  flat_map render_line lines.

(** Lines that one [fgets] and one [sscanf] take apart again: a key of 1 to
    255 characters without ['='], NUL or newline that does not start with
    ['#'], a value of 1 to 254 characters without white space or NUL, and a
    comment of at most 509 characters without newline. *)
Definition key_char (c : ascii) : bool :=
  negb (Ascii.eqb c "=") && negb (Ascii.eqb c NUL) && negb (Ascii.eqb c LF).

Definition value_char (c : ascii) : bool :=
  negb (isspace c) && negb (Ascii.eqb c NUL).

Definition line_ok (l : ConfigLine) : bool :=
  match l with
  | Assign (k0 :: key) (v0 :: value) =>
      negb (Ascii.eqb k0 "#")
      && forallb key_char (k0 :: key) && forallb value_char (v0 :: value)
      && (List.length (k0 :: key) <=? 255)%nat
      && (List.length (v0 :: value) <=? 254)%nat
  | Assign _ _ => false
  | Comment text =>
      forallb (fun c => negb (Ascii.eqb c LF)) text
      && (List.length text <=? 509)%nat
  | Blank => true
  end.

(** What one line does to the configuration. *)
Definition apply_line (c : BatteryConfig) (l : ConfigLine) : BatteryConfig :=
  match l with
  | Assign key value => set_option key value c
  | _ => c
  end.

(** The value of the last assignment to the given key. *)
Fixpoint last_value (key : list ascii) (lines : list ConfigLine)
  : option (list ascii) :=
  match lines with
  | [] => None
  | l :: rest =>
      match last_value key rest, l with
      | Some v, _ => Some v
      | None, Assign k v => if streq k key then Some v else None
      | None, _ => None
      end
  end.

(** The documented ranges of the specification's [Config]. *)
Definition level_in_range (z : Z) : Prop := 1 <= z <= 100.

(** ** Writing the configuration: [save_config] *)

(** The character of a decimal digit. *)
Definition digit_char (d : Z) : ascii := ascii_of_nat (Z.to_nat (48 + d)).

(** The decimal digits of [n >= 0] in front of [acc], least significant digit
    produced first.  A number below [2 ^ fuel] never runs out of fuel
    ([print_digits_value]). *)
Fixpoint print_digits (fuel : nat) (n : Z) (acc : list ascii) : list ascii :=
  match fuel with
  | O => acc
  | S fuel' =>
      let acc' := digit_char (n mod 10) :: acc in
      if n / 10 =? 0 then acc' else print_digits fuel' (n / 10) acc'
  end.

Definition print_nat (n : Z) : list ascii :=
  print_digits (S (Z.to_nat (Z.log2 n))) n [].

(** The conversion ["%d"] of [fprintf]. *)
Definition print_int (z : Z) : list ascii :=
  if z <? 0 then "-"%char :: print_nat (- z) else print_nat z.

(** The four bytes of the battery sign that opens the first comment. *)
Definition battery_sign : list ascii :=
  map ascii_of_nat [240; 159; 148; 139]%nat.

(** The bytes the [fprintf] calls of [save_config] write, in order. *)
Definition saved_bytes (c : BatteryConfig) : list ascii :=
  (str "# " ++ battery_sign ++ str " Cool Little Battery Monitor Configuration" ++ [LF])
  ++ (str "# Warning level percentage (when to show alerts)" ++ [LF])
  ++ (str "warning_level=" ++ print_int (warning_level c) ++ [LF])
  ++ (str "# Critical level percentage (when to force suspend)" ++ [LF])
  ++ (str "critical_level=" ++ print_int (critical_level c) ++ [LF])
  ++ (str "# Check interval in seconds" ++ [LF])
  ++ (str "check_interval=" ++ print_int (check_interval c) ++ [LF])
  ++ (str "# Alert timeout in seconds" ++ [LF])
  ++ (str "alert_timeout=" ++ print_int (alert_timeout c) ++ [LF])
  ++ (str "# Force suspend at critical level (1=yes, 0=no)" ++ [LF])
  ++ (str "force_suspend=" ++ print_int (force_suspend c) ++ [LF])
  ++ (str "# Show impossible to dismiss alerts (1=yes, 0=no)" ++ [LF])
  ++ (str "impossible_alerts=" ++ print_int (impossible_alerts c) ++ [LF])
  ++ (str "# Suspend method (0=systemctl, 1=pm-suspend, 2=dbus, 3=kernel)" ++ [LF])
  ++ (str "suspend_method=" ++ print_int (suspend_method c) ++ [LF])
  ++ (str "# Icon paths" ++ [LF])
  ++ (str "icon_charging=" ++ icon_charging c ++ [LF])
  ++ (str "icon_battery=" ++ icon_battery c ++ [LF])
  ++ (str "icon_low=" ++ icon_low c ++ [LF]).

(** [save_config]: the new content of the file at [config_path], or [None]
    when [fopen] fails and the file is left as it was. *)
Definition save_config (fopen_ok : bool) (c : BatteryConfig) : option (list ascii) :=
  if fopen_ok then Some (saved_bytes c) else None.

(** The values of a C [int]. *)
Definition INT_MIN : Z := - 2 ^ 31.
Definition INT_MAX : Z := 2 ^ 31 - 1.
Definition is_int (z : Z) : Prop := INT_MIN <= z <= INT_MAX.

(** A string that [%255s] reads back whole: 1 to 255 characters, none of
    them white space or NUL. *)
Definition word_ok (s : list ascii) : bool :=
  match s with
  | [] => false
  | _ => forallb value_char s && (List.length s <=? 255)%nat
  end.

(** A configuration whose numbers are C [int]s and whose icon names fit
    their 256-byte buffers and survive [save_config] and [load_config]. *)
Definition storable (c : BatteryConfig) : Prop :=
  is_int (warning_level c) /\ is_int (critical_level c) /\
  is_int (check_interval c) /\ is_int (alert_timeout c) /\
  is_int (force_suspend c) /\ is_int (impossible_alerts c) /\
  is_int (suspend_method c) /\
  word_ok (icon_charging c) = true /\
  word_ok (icon_battery c) = true /\
  word_ok (icon_low c) = true.

(** The file of [save_config] line by line. *)
Definition saved_lines (c : BatteryConfig) : list ConfigLine :=
  [ Comment (str " " ++ battery_sign ++ str " Cool Little Battery Monitor Configuration");
    Comment (str " Warning level percentage (when to show alerts)");
    Assign (str "warning_level") (print_int (warning_level c));
    Comment (str " Critical level percentage (when to force suspend)");
    Assign (str "critical_level") (print_int (critical_level c));
    Comment (str " Check interval in seconds");
    Assign (str "check_interval") (print_int (check_interval c));
    Comment (str " Alert timeout in seconds");
    Assign (str "alert_timeout") (print_int (alert_timeout c));
    Comment (str " Force suspend at critical level (1=yes, 0=no)");
    Assign (str "force_suspend") (print_int (force_suspend c));
    Comment (str " Show impossible to dismiss alerts (1=yes, 0=no)");
    Assign (str "impossible_alerts") (print_int (impossible_alerts c));
    Comment (str " Suspend method (0=systemctl, 1=pm-suspend, 2=dbus, 3=kernel)");
    Assign (str "suspend_method") (print_int (suspend_method c));
    Comment (str " Icon paths");
    Assign (str "icon_charging") (icon_charging c);
    Assign (str "icon_battery") (icon_battery c);
    Assign (str "icon_low") (icon_low c) ].

(** Lines that [load_config] takes apart again, with values of up to 255
    characters: the whole line still has to fit one [fgets]. *)
Definition line_fits (l : ConfigLine) : bool :=
  match l with
  | Assign (k0 :: key) value =>
      negb (Ascii.eqb k0 "#")
      && forallb key_char (k0 :: key) && word_ok value
      && (List.length (k0 :: key) <=? 255)%nat
      && (List.length (k0 :: key) + List.length value <=? 509)%nat
  | Assign [] _ => false
  | Comment text =>
      forallb (fun c => negb (Ascii.eqb c LF)) text
      && (List.length text <=? 509)%nat
  | Blank => true
  end.

(** ** Files as [load_config] reads them *)

(** A line of a configuration file, without its newline: an assignment
    [key=] followed by optional white space [pad], the [value] (the word
    that ["%255s"] stores) and whatever [rest] follows the value; or a line
    that assigns nothing. *)
Inductive FileLine :=
| Assignment (key pad value rest : list ascii)
| Skipped (text : list ascii).

Definition line_text (l : FileLine) : list ascii :=
  match l with
  | Assignment key pad value rest => key ++ "="%char :: pad ++ value ++ rest
  | Skipped text => text
  end.

(** The bytes of a file with these lines; the newline after the last line is
    there or not. *)
Fixpoint file_text (lines : list FileLine) (final_newline : bool) : list ascii :=
  match lines with
  | [] => []
  | l :: rest =>
      match rest with
      | [] => line_text l ++ (if final_newline then [LF] else [])
      | _ :: _ => line_text l ++ LF :: file_text rest final_newline
      end
  end.

(** White space other than the newline, and characters other than NUL and
    newline. *)
Definition blank_char (c : ascii) : bool := isspace c && negb (Ascii.eqb c LF).
Definition text_char (c : ascii) : bool :=
  negb (Ascii.eqb c NUL) && negb (Ascii.eqb c LF).

(** The lines the statements about whole files speak of.  An assignment has
    a key of 1 to 255 characters without ['='], NUL or newline that does not
    start with ['#'], then ['='], white space, a value of 1 to 255
    characters without white space or NUL, and a rest that is empty or starts
    with white space.  A skipped line is empty, starts with ['#'] or holds no
    ['=']. Every line has at most 510 characters, so that one [fgets]
    reads it whole. *)
Definition line_wf (l : FileLine) : bool :=
  match l with
  | Assignment [] _ _ _ => false
  | Assignment (k0 :: key) pad value rest =>
      negb (Ascii.eqb k0 "#")
      && forallb key_char (k0 :: key)
      && (List.length (k0 :: key) <=? 255)%nat
      && forallb blank_char pad
      && word_ok value
      && forallb text_char rest
      && match rest with
         | [] => true
         | c :: _ => isspace c
         end
      && (List.length (line_text l) <=? 510)%nat
  | Skipped text =>
      forallb (fun c => negb (Ascii.eqb c LF)) text
      && (List.length text <=? 510)%nat
      && match text with
         | [] => true
         | c :: _ => Ascii.eqb c "#" || negb (existsb (fun x => Ascii.eqb x "=") text)
         end
  end.

(** What a line does to the configuration, and the value of the last
    assignment to a key. *)
Definition apply_file_line (c : BatteryConfig) (l : FileLine) : BatteryConfig :=
  match l with
  | Assignment key _ value _ => set_option key value c
  | Skipped _ => c
  end.

Fixpoint last_assigned (key : list ascii) (lines : list FileLine)
  : option (list ascii) :=
  match lines with
  | [] => None
  | l :: rest =>
      match last_assigned key rest, l with
      | Some v, _ => Some v
      | None, Assignment k _ v _ => if streq k key then Some v else None
      | None, Skipped _ => None
      end
  end.

(** [key] stands at the head of [s], and somewhere in [bytes]. *)
Fixpoint starts_with (key s : list ascii) : bool :=
  match key, s with
  | [], _ => true
  | k :: key', c :: s' => Ascii.eqb k c && starts_with key' s'
  | _ :: _, [] => false
  end.

Fixpoint occurs (key bytes : list ascii) : bool :=
  starts_with key bytes
  || match bytes with
     | [] => false
     | _ :: rest => occurs key rest
     end.

(** ** The callback entered while its own dialog is up

    [gtk_dialog_run] runs a main loop of its own until the dialog is
    answered.  [main] installs the timer before it calls the callback
    directly, so while the dialog of that first call is up the timer can
    dispatch the callback again: the second invocation then runs inside the
    first one, on the statics as they are at that point, with the dialog
    live and [last_alert_time] not yet assigned. *)

(** [show_impossible_alert] with what the main loop of [gtk_dialog_run]
    dispatches while the dialog is up given as [inside]. *)
Definition show_impossible_alert_during (config : BatteryConfig)
    (inside : M unit) (m : Message) : M unit :=
  if negb (truthy (impossible_alerts config)) then skip
  else
    destroy_alert_dialog ;;
    set_alert_dialog true ;;
    emit (ImpossibleAlert m) ;;
    inside ;;
    set_alert_dialog false ;;
    set_alert_active 1.

(** [check_battery_timer] with [inside] running within its dialog; the
    statements are those of [check_battery_timer]. *)
Definition check_battery_timer_during (config : BatteryConfig)
    (system : SuspendMethod -> Z) (inside : M unit)
    (st : BatteryStatus) (current_time : Z) (final_check : BatteryStatus) : M unit :=
  if negb (truthy (present st)) then update_tray_icon config st
  else
    update_tray_icon config st ;;
    if truthy (charging st) then
      set_alert_active 0 ;;
      destroy_alert_dialog ;;
      set_last_percentage (percentage st) ;;
      set_last_charging_state (charging st)
    else
      (if percentage st <=? critical_level config then
         g <- get ;;
         if current_time - last_alert_time g >? 30 then
           show_notification (CriticalBattery (percentage st)) UrgCritical ;;
           show_impossible_alert_during config inside
             (CriticalBattery (percentage st)) ;;
           (if truthy (force_suspend config) then
              emit (Sleep 10) ;;
              emit Resample ;;
              if (percentage final_check <=? critical_level config)
                 && negb (truthy (charging final_check))
              then force_system_suspend config system
              else skip
            else skip) ;;
           set_last_alert_time current_time
         else skip
       else if percentage st <=? warning_level config then
         g <- get ;;
         if current_time - last_alert_time g >? 120 then
           show_notification
             (LowBattery (percentage st) (critical_level config)) UrgCritical ;;
           show_impossible_alert_during config inside
             (LowBattery (percentage st) (critical_level config)) ;;
           set_last_alert_time current_time
         else skip
       else
         set_alert_active 0 ;;
         destroy_alert_dialog) ;;
      set_last_percentage (percentage st) ;;
      set_last_charging_state (charging st).

(** ** The test entry point and the timer loop *)

(** [test_suspend_callback]: the configured command once, no fallback. *)
Definition test_suspend_callback (config : BatteryConfig)
    (system : SuspendMethod -> Z) : M unit :=
  if (0 <=? suspend_method config) && (suspend_method config <? 4) then
    let primary := nth (Z.to_nat (suspend_method config)) suspend_commands Systemd in
    emit_call primary (system primary)
  else skip.

(** What one invocation of the timer callback obtains from outside. *)
Record Tick := mkTick {
  tick_status : BatteryStatus;
  tick_time : Z;
  tick_final : BatteryStatus
}.

(** Invocations of [check_battery_timer] that run one after the other, each
    on the statics the previous one left, under one configuration.  The
    callback always returns TRUE and so stays installed.  This is the order
    of events whenever the callback opens no dialog, as with
    [impossible_alerts = 0]: then nothing in it runs a main loop, and no
    invocation can start before the previous one has returned.  Returns the
    trace of every invocation. *)
Fixpoint timer_loop (config : BatteryConfig) (system : SuspendMethod -> Z)
    (ticks : list Tick) (g : Globals) : list (list Effect) * Globals :=
  match ticks with
  | [] => ([], g)
  | t :: rest =>
      let r := check_battery_timer config system
                 (tick_status t) (tick_time t) (tick_final t) g in
      let (traces, g') := timer_loop config system rest (state_of r) in
      (trace_of r :: traces, g')
  end.

(** The [current_time] of the ticks whose invocation posted a notification:
    the value [time(NULL)] returned to that invocation, which is what the
    guards compare. *)
Fixpoint alert_times (ticks : list Tick) (traces : list (list Effect)) : list Z :=
  match ticks, traces with
  | t :: ticks', tr :: traces' =>
      if emits is_notify tr then tick_time t :: alert_times ticks' traces'
      else alert_times ticks' traces'
  | _, _ => []
  end.

(** Consecutive elements more than [d] apart. *)
Fixpoint spaced (d : Z) (l : list Z) : Prop :=
  match l with
  | a :: ((b :: _) as rest) => b - a > d /\ spaced d rest
  | _ => True
  end.

(** * Facts *)

(** ** Boolean tests *)

Lemma truthy_true (z : Z) : z <> 0 -> truthy z = true.
Proof.
  intros H. unfold truthy. destruct (Z.eqb_spec z 0); [contradiction | reflexivity].
Qed.

Lemma truthy_false (z : Z) : z = 0 -> truthy z = false.
Proof. intros ->. reflexivity. Qed.

Lemma truthy_false_inv (z : Z) : truthy z = false -> z = 0.
Proof.
  unfold truthy. destruct (Z.eqb_spec z 0); [trivial | discriminate].
Qed.

Lemma gtb_true (a b : Z) : a > b -> (a >? b) = true.
Proof. intros H. rewrite Z.gtb_ltb. apply Z.ltb_lt. lia. Qed.

Lemma gtb_false (a b : Z) : a <= b -> (a >? b) = false.
Proof. intros H. rewrite Z.gtb_ltb. apply Z.ltb_ge. lia. Qed.

Lemma leb_true (a b : Z) : a <= b -> (a <=? b) = true.
Proof. apply Z.leb_le. Qed.

Lemma leb_false (a b : Z) : b < a -> (a <=? b) = false.
Proof. apply Z.leb_gt. Qed.

(** ** The suspend executor leaves the statics alone *)

Section ExecutorFacts.

Variable config : BatteryConfig.
Variable system : SuspendMethod -> Z.

Lemma try_fallbacks_frame (rows : list SuspendMethod) :
  forall i g g',
    try_fallbacks config system i rows g
    = (tt, g, trace_of (try_fallbacks config system i rows g')).
Proof.
  induction rows as [|m rest IH]; intros i g g'; simpl.
  - reflexivity.
  - destruct (i =? suspend_method config); simpl.
    + apply IH.
    + unfold bind, emit_call. destruct (system m =? 0); simpl.
      * reflexivity.
      * rewrite (IH (i + 1) g g'). unfold trace_of; simpl.
        destruct (try_fallbacks config system (i + 1) rest g') as [[u g2] t2].
        reflexivity.
Qed.

Lemma try_fallbacks_calls (rows : list SuspendMethod) :
  forall i g,
    forallb is_system_call (trace_of (try_fallbacks config system i rows g)) = true.
Proof.
  induction rows as [|m rest IH]; intros i g; simpl.
  - reflexivity.
  - destruct (i =? suspend_method config); simpl.
    + apply IH.
    + unfold bind, emit_call. destruct (system m =? 0); simpl.
      * reflexivity.
      * specialize (IH (i + 1) g). unfold trace_of in *.
        destruct (try_fallbacks config system (i + 1) rest g) as [[u g2] t2].
        simpl in *. exact IH.
Qed.

Lemma force_system_suspend_run :
  exists calls,
    forallb is_system_call calls = true /\
    forall g, force_system_suspend config system g
              = (tt, g, Act Suspend :: Act (Notify UrgCritical SuspendingNow) :: calls).
Proof.
  unfold force_system_suspend, show_notification.
  destruct ((0 <=? suspend_method config) && (suspend_method config <? 4)).
  - set (p := nth (Z.to_nat (suspend_method config)) suspend_commands Systemd).
    destruct (system p =? 0) eqn:E.
    + exists [SystemCall p (system p)]. split; [reflexivity|].
      intros g. cbv [bind emit emit_call skip ret negb app]. reflexivity.
    + exists (SystemCall p (system p)
              :: trace_of (try_fallbacks config system 0 suspend_commands initial_globals)).
      split.
      * cbn [forallb is_system_call andb]. apply try_fallbacks_calls.
      * intros g. cbv [bind emit emit_call negb].
        rewrite (try_fallbacks_frame suspend_commands 0 g initial_globals).
        reflexivity.
  - exists []. split; [reflexivity|]. intros g. reflexivity.
Qed.

Lemma force_system_suspend_frame (g : Globals) :
  force_system_suspend config system g = (tt, g, suspend_trace config system).
Proof.
  unfold suspend_trace.
  destruct force_system_suspend_run as (calls & _ & Hrun).
  rewrite !Hrun. reflexivity.
Qed.

Lemma suspend_trace_head :
  exists calls,
    forallb is_system_call calls = true /\
    suspend_trace config system
    = Act Suspend :: Act (Notify UrgCritical SuspendingNow) :: calls.
Proof.
  destruct force_system_suspend_run as (calls & Hcalls & Hrun).
  exists calls. split; [exact Hcalls|].
  unfold suspend_trace. rewrite Hrun. reflexivity.
Qed.

End ExecutorFacts.

(** ** The callback, branch by branch *)

Ltac engine :=
  cbv [check_battery_timer update_tray_icon show_notification
       show_impossible_alert destroy_alert_dialog
       set_last_percentage set_last_charging_state set_last_alert_time
       set_alert_active set_alert_dialog modify emit get skip ret bind
       state_of trace_of display_trace dismiss_trace alert_trace grace_trace
       alerted recorded cleared still_critical
       tray_icon last_percentage last_charging_state last_alert_time
       alert_active alert_dialog negb fst snd];
  cbn [app]; rewrite ?app_nil_r; cbn [app].

Ltac use_facts :=
  repeat match goal with
         | H : ?b = _ |- context [if ?b then _ else _] => rewrite H
         end.

Ltac case_if :=
  match goal with
  | |- context [if ?b then _ else _] => destruct b eqn:?
  end.

Section BranchFacts.

Variable config : BatteryConfig.
Variable system : SuspendMethod -> Z.

Local Abbreviation run := (check_battery_timer config system).

Lemma absent_run st now fc g :
  present st = 0 ->
  run st now fc g = (tt, g, display_trace config st g).
Proof.
  intros Hp. destruct g as [ti lp lc la aa ad].
  assert (Ht : truthy (present st) = false) by (apply truthy_false; exact Hp).
  engine. use_facts. engine. destruct ti; reflexivity.
Qed.

Lemma charging_run st now fc g :
  present st <> 0 -> charging st <> 0 ->
  run st now fc g
  = (tt, cleared st g, display_trace config st g ++ dismiss_trace g).
Proof.
  intros Hp Hc. destruct g as [ti lp lc la aa ad].
  assert (H1 : truthy (present st) = true) by (apply truthy_true; exact Hp).
  assert (H2 : truthy (charging st) = true) by (apply truthy_true; exact Hc).
  engine. use_facts. engine.
  destruct ti, ad; engine; use_facts; engine; reflexivity.
Qed.

Lemma critical_due_run st now fc g :
  present st <> 0 -> charging st = 0 ->
  percentage st <= critical_level config ->
  now - last_alert_time g > 30 ->
  run st now fc g
  = (tt, alerted config st now g,
     display_trace config st g
     ++ Act (Notify UrgCritical (CriticalBattery (percentage st)))
        :: alert_trace config (CriticalBattery (percentage st)) g
     ++ grace_trace config system fc).
Proof.
  intros Hp Hc Hl Hd. destruct g as [ti lp lc la aa ad]. simpl in Hd.
  assert (H1 : truthy (present st) = true) by (apply truthy_true; exact Hp).
  assert (H2 : truthy (charging st) = false) by (apply truthy_false; exact Hc).
  assert (H3 : (percentage st <=? critical_level config) = true)
    by (apply leb_true; exact Hl).
  assert (H4 : (now - la >? 30) = true) by (apply gtb_true; exact Hd).
  engine. use_facts. engine.
  destruct ti; engine; use_facts; engine.
  all: destruct (truthy (impossible_alerts config)); engine.
  all: destruct ad; engine.
  all: destruct (truthy (force_suspend config)); engine.
  all: try reflexivity.
  all: case_if; engine;
       try rewrite force_system_suspend_frame; engine; reflexivity.
Qed.

Lemma critical_idle_run st now fc g :
  present st <> 0 -> charging st = 0 ->
  percentage st <= critical_level config ->
  now - last_alert_time g <= 30 ->
  run st now fc g = (tt, recorded st g, display_trace config st g).
Proof.
  intros Hp Hc Hl Hd. destruct g as [ti lp lc la aa ad]. simpl in Hd.
  assert (H1 : truthy (present st) = true) by (apply truthy_true; exact Hp).
  assert (H2 : truthy (charging st) = false) by (apply truthy_false; exact Hc).
  assert (H3 : (percentage st <=? critical_level config) = true)
    by (apply leb_true; exact Hl).
  assert (H4 : (now - la >? 30) = false) by (apply gtb_false; exact Hd).
  engine. use_facts. engine.
  destruct ti; engine; use_facts; engine; reflexivity.
Qed.

Lemma warning_due_run st now fc g :
  present st <> 0 -> charging st = 0 ->
  critical_level config < percentage st <= warning_level config ->
  now - last_alert_time g > 120 ->
  run st now fc g
  = (tt, alerted config st now g,
     display_trace config st g
     ++ Act (Notify UrgCritical (LowBattery (percentage st) (critical_level config)))
        :: alert_trace config (LowBattery (percentage st) (critical_level config)) g).
Proof.
  intros Hp Hc [Hl Hw] Hd. destruct g as [ti lp lc la aa ad]. simpl in Hd.
  assert (H1 : truthy (present st) = true) by (apply truthy_true; exact Hp).
  assert (H2 : truthy (charging st) = false) by (apply truthy_false; exact Hc).
  assert (H3 : (percentage st <=? critical_level config) = false)
    by (apply leb_false; exact Hl).
  assert (H5 : (percentage st <=? warning_level config) = true)
    by (apply leb_true; exact Hw).
  assert (H4 : (now - la >? 120) = true) by (apply gtb_true; exact Hd).
  engine. use_facts. engine.
  destruct ti; engine; use_facts; engine.
  all: destruct (truthy (impossible_alerts config)); engine.
  all: destruct ad; engine; reflexivity.
Qed.

Lemma warning_idle_run st now fc g :
  present st <> 0 -> charging st = 0 ->
  critical_level config < percentage st <= warning_level config ->
  now - last_alert_time g <= 120 ->
  run st now fc g = (tt, recorded st g, display_trace config st g).
Proof.
  intros Hp Hc [Hl Hw] Hd. destruct g as [ti lp lc la aa ad]. simpl in Hd.
  assert (H1 : truthy (present st) = true) by (apply truthy_true; exact Hp).
  assert (H2 : truthy (charging st) = false) by (apply truthy_false; exact Hc).
  assert (H3 : (percentage st <=? critical_level config) = false)
    by (apply leb_false; exact Hl).
  assert (H5 : (percentage st <=? warning_level config) = true)
    by (apply leb_true; exact Hw).
  assert (H4 : (now - la >? 120) = false) by (apply gtb_false; exact Hd).
  engine. use_facts. engine.
  destruct ti; engine; use_facts; engine; reflexivity.
Qed.

Lemma normal_run st now fc g :
  present st <> 0 -> charging st = 0 ->
  critical_level config < percentage st ->
  warning_level config < percentage st ->
  run st now fc g
  = (tt, cleared st g, display_trace config st g ++ dismiss_trace g).
Proof.
  intros Hp Hc Hl Hw. destruct g as [ti lp lc la aa ad].
  assert (H1 : truthy (present st) = true) by (apply truthy_true; exact Hp).
  assert (H2 : truthy (charging st) = false) by (apply truthy_false; exact Hc).
  assert (H3 : (percentage st <=? critical_level config) = false)
    by (apply leb_false; exact Hl).
  assert (H5 : (percentage st <=? warning_level config) = false)
    by (apply leb_false; exact Hw).
  engine. use_facts. engine.
  destruct ti, ad; engine; use_facts; engine; reflexivity.
Qed.

End BranchFacts.

(** ** What the pieces of a trace contain *)

Lemma emits_calls (p : Effect -> bool) (calls : list Effect) :
  (forall m e, p (SystemCall m e) = false) ->
  forallb is_system_call calls = true ->
  emits p calls = false.
Proof.
  intros Hp. induction calls as [|c calls IH]; simpl; [reflexivity|].
  intros H. apply andb_true_iff in H as [Hc Hcs].
  destruct c as [a|m e]; [discriminate|]. rewrite Hp, (IH Hcs). reflexivity.
Qed.

Lemma suspend_trace_emits config system :
  emits is_suspend (suspend_trace config system) = true /\
  emits is_sleep (suspend_trace config system) = false /\
  emits is_resample (suspend_trace config system) = false /\
  emits is_impossible_alert (suspend_trace config system) = false.
Proof.
  destruct (suspend_trace_head config system) as (calls & Hcalls & ->).
  cbn [emits existsb is_suspend is_sleep is_resample is_impossible_alert orb].
  repeat split; try reflexivity.
  all: apply (emits_calls _ calls); [reflexivity | exact Hcalls].
Qed.

Lemma actions_of_calls (calls : list Effect) :
  forallb is_system_call calls = true -> actions_of calls = [].
Proof.
  induction calls as [|c calls IH]; simpl; [reflexivity|].
  intros H. apply andb_true_iff in H as [Hc Hcs].
  destruct c as [a|m e]; [discriminate | exact (IH Hcs)].
Qed.

Lemma actions_of_app (t u : list Effect) :
  actions_of (t ++ u) = actions_of t ++ actions_of u.
Proof.
  induction t as [|e t IH]; simpl; [reflexivity|].
  destruct e; simpl; rewrite IH; reflexivity.
Qed.

Lemma actions_of_suspend_trace config system :
  actions_of (suspend_trace config system)
  = [Suspend; Notify UrgCritical SuspendingNow].
Proof.
  destruct (suspend_trace_head config system) as (calls & Hcalls & ->).
  simpl. rewrite (actions_of_calls calls Hcalls). reflexivity.
Qed.

(** Splits a goal on the switches a trace depends on and evaluates it. *)
Ltac trace_cases config g :=
  unfold emits, alert_trace, grace_trace, display_trace, dismiss_trace in *;
  destruct (tray_icon g), (alert_dialog g),
    (truthy (impossible_alerts config));
  rewrite ?existsb_app; simpl.

Lemma still_critical_iff config fc :
  still_critical config fc = true
  <-> percentage fc <= critical_level config /\ charging fc = 0.
Proof.
  unfold still_critical. rewrite andb_true_iff, Z.leb_le, negb_true_iff.
  split; intros [H1 H2]; split; auto using truthy_false_inv, truthy_false.
Qed.

(** ** The critical band *)

(** C1, as amended: a present, non-charging reading at or below
    [critical_level], taken more than 30 seconds after [last_alert_time],
    posts the critical notification and, when [impossible_alerts] is set, the
    modal alert.  When [force_suspend] is set the callback then sleeps ten
    seconds and samples again, and it calls [force_system_suspend] exactly
    when the second reading is at or below [critical_level] and not
    charging; a second reading that is charging brings neither the suspend
    nor any command.  With the initial statics [last_alert_time] is 0, so
    the alerts of a first reading fire at any clock value above 30. *)
Theorem critical_alert_and_grace_sequence :
  forall config system st now fc g,
    present st <> 0 -> charging st = 0 ->
    percentage st <= critical_level config ->
    now - last_alert_time g > 30 ->
    let t := trace_of (check_battery_timer config system st now fc g) in
    In (Act (Notify UrgCritical (CriticalBattery (percentage st)))) t /\
    emits is_impossible_alert t = truthy (impossible_alerts config) /\
    (force_suspend config <> 0 ->
       (exists before after,
           t = before ++ Act (Sleep 10) :: Act Resample :: after /\
           emits is_notify before = true /\
           emits is_suspend before = false /\
           emits is_system_call before = false) /\
       (emits is_suspend t = true
        <-> percentage fc <= critical_level config /\ charging fc = 0) /\
       (charging fc <> 0 ->
        emits is_suspend t = false /\ emits is_system_call t = false)).
Proof.
  intros config system st now fc g Hp Hc Hl Hd t. subst t.
  rewrite (critical_due_run config system st now fc g Hp Hc Hl Hd).
  unfold trace_of, snd.
  destruct (suspend_trace_emits config system) as (Hs1 & Hs2 & Hs3 & Hs4).
  split; [|split].
  - apply in_or_app. right. left. reflexivity.
  - destruct (truthy (force_suspend config)) eqn:Hf,
      (still_critical config fc) eqn:Hsc;
      trace_cases config g; rewrite ?Hf, ?Hsc; simpl; rewrite ?Hs4; reflexivity.
  - intros Hf. apply truthy_true in Hf.
    split; [|split].
    + exists (display_trace config st g
              ++ Act (Notify UrgCritical (CriticalBattery (percentage st)))
                 :: alert_trace config (CriticalBattery (percentage st)) g).
      exists (if still_critical config fc then suspend_trace config system else []).
      split.
      * unfold grace_trace. rewrite Hf, <- app_assoc. reflexivity.
      * trace_cases config g; repeat split; reflexivity.
    + rewrite <- still_critical_iff.
      destruct (still_critical config fc) eqn:Hsc;
        trace_cases config g; rewrite ?Hf, ?Hsc; simpl; rewrite ?Hs1;
        split; intros; try reflexivity; try discriminate; assumption.
    + intros Hcf.
      assert (Hn : still_critical config fc = false).
      { unfold still_critical. rewrite (truthy_true _ Hcf). apply andb_false_r. }
      trace_cases config g; rewrite ?Hf, ?Hn; split; reflexivity.
Qed.

Lemma critical_alert_witness :
  let t := trace_of (check_battery_timer default_config always_fails
                       (reading 10 0) 1000 (reading 10 0) initial_globals) in
  In (Act (Notify UrgCritical (CriticalBattery 10))) t /\
  emits is_impossible_alert t = true /\
  emits is_suspend t = true.
Proof.
  assert (Hp : present (reading 10 0) <> 0) by (simpl; lia).
  assert (Hc : charging (reading 10 0) = 0) by reflexivity.
  assert (Hl : percentage (reading 10 0) <= critical_level default_config)
    by (simpl; lia).
  assert (Hd : 1000 - last_alert_time initial_globals > 30) by (simpl; lia).
  assert (Hf : force_suspend default_config <> 0) by (simpl; lia).
  destruct (critical_alert_and_grace_sequence default_config always_fails
              (reading 10 0) 1000 (reading 10 0) initial_globals Hp Hc Hl Hd)
    as (Hn & Ha & Hg).
  destruct (Hg Hf) as (_ & Hs & _).
  split; [exact Hn | split; [exact Ha |]].
  apply Hs. split; [simpl; lia | reflexivity].
Defined.

(** C1 as stated fails at its own example: the statics start with
    [last_alert_time = 0], so at clock value 0 the test [0 - 0 > 30] is false
    and a critical reading of 10 percent posts nothing. *)
Lemma fresh_state_at_time_zero_is_silent :
  critical_level default_config = 10 /\
  warning_level default_config = 20 /\
  last_alert_time initial_globals = 0 /\
  let t := trace_of (check_battery_timer default_config always_fails
                       (reading 10 0) 0 (reading 10 0) initial_globals) in
  emits is_notify t = false /\ emits is_impossible_alert t = false.
Proof. vm_compute. repeat split; reflexivity. Qed.

(** ** The charging branch *)

(** C2: a present reading that is charging clears [alert_active], destroys
    an open alert dialog, records percentage and charging flag, keeps
    [last_alert_time], and posts no notification, no modal alert, runs no
    grace wait or re-sample and never suspends, whatever the percentage. *)
Theorem charging_clears_alert_and_never_suspends :
  forall config system st now fc g,
    present st <> 0 -> charging st <> 0 ->
    let r := check_battery_timer config system st now fc g in
    alert_active (state_of r) = 0 /\
    alert_dialog (state_of r) = false /\
    (alert_dialog g = true -> In (Act DismissAlert) (trace_of r)) /\
    last_percentage (state_of r) = percentage st /\
    last_charging_state (state_of r) = charging st /\
    last_alert_time (state_of r) = last_alert_time g /\
    quiet (trace_of r).
Proof.
  intros config system st now fc g Hp Hc r. subst r.
  rewrite (charging_run config system st now fc g Hp Hc).
  unfold state_of, trace_of, cleared, quiet; simpl.
  repeat split.
  1: intros H; unfold dismiss_trace; rewrite H; apply in_or_app; right; left;
     reflexivity.
  all: trace_cases config g; reflexivity.
Qed.

Lemma charging_witness :
  let r := check_battery_timer default_config always_succeeds
             (reading 3 1) 1000 (reading 3 0) initial_globals in
  alert_active (state_of r) = 0 /\ quiet (trace_of r).
Proof.
  assert (Hp : present (reading 3 1) <> 0) by (simpl; lia).
  assert (Hc : charging (reading 3 1) <> 0) by (simpl; lia).
  destruct (charging_clears_alert_and_never_suspends default_config
              always_succeeds (reading 3 1) 1000 (reading 3 0) initial_globals
              Hp Hc) as (Ha & _ & _ & _ & _ & _ & Hq).
  split; [exact Ha | exact Hq].
Defined.

(** ** Critical band without forced suspend *)

(** C3: with [force_suspend = 0] a present, non-charging reading at or below
    [critical_level] never calls [force_system_suspend] and runs no command,
    wait or re-sample; apart from the refresh of the tray icon and the
    closing of a dialog that was still open, its trace holds only the
    notification and the modal alert. *)
Theorem critical_without_force_suspend_only_notifies :
  forall config system st now fc g,
    force_suspend config = 0 ->
    present st <> 0 -> charging st = 0 ->
    percentage st <= critical_level config ->
    let t := trace_of (check_battery_timer config system st now fc g) in
    emits is_suspend t = false /\
    emits is_system_call t = false /\
    emits is_sleep t = false /\
    emits is_resample t = false /\
    forallb (fun e => is_display e || is_dismiss e
                      || is_notify e || is_impossible_alert e) t = true.
Proof.
  intros config system st now fc g Hf Hp Hc Hl t. subst t.
  apply truthy_false in Hf.
  destruct (Z_le_gt_dec (now - last_alert_time g) 30) as [Hd|Hd].
  - rewrite (critical_idle_run config system st now fc g Hp Hc Hl Hd).
    unfold trace_of, snd. trace_cases config g; repeat split; reflexivity.
  - rewrite (critical_due_run config system st now fc g Hp Hc Hl Hd).
    unfold trace_of, snd.
    trace_cases config g; rewrite ?Hf; repeat split; reflexivity.
Qed.

Lemma critical_without_force_suspend_witness :
  let t := trace_of (check_battery_timer (set_force_suspend 0 default_config)
                       always_succeeds (reading 5 0) 1000 (reading 5 0)
                       initial_globals) in
  emits is_suspend t = false /\ emits is_notify t = true.
Proof.
  assert (Hf : force_suspend (set_force_suspend 0 default_config) = 0)
    by reflexivity.
  assert (Hp : present (reading 5 0) <> 0) by (simpl; lia).
  assert (Hc : charging (reading 5 0) = 0) by reflexivity.
  assert (Hl : percentage (reading 5 0)
               <= critical_level (set_force_suspend 0 default_config))
    by (simpl; lia).
  destruct (critical_without_force_suspend_only_notifies
              (set_force_suspend 0 default_config) always_succeeds
              (reading 5 0) 1000 (reading 5 0) initial_globals Hf Hp Hc Hl)
    as (Hs & _).
  split; [exact Hs | reflexivity].
Defined.

(** ** The suppression window of the critical band *)

Lemma display_trace_quiet config st g : quiet (display_trace config st g).
Proof. unfold quiet. trace_cases config g; repeat split; reflexivity. Qed.

(** Two invocations that run one after the other, the second starting on
    the statics the first one left: when the first one fired its alert at
    [t1], [last_alert_time] is [t1] and a second critical evaluation with
    [t2 - t1 <= 30] is quiet; when the first one did not fire, the window
    still runs from the earlier alert.  This is how timer dispatches follow
    each other; an invocation dispatched inside the dialog of another is
    treated below. *)
Theorem second_critical_poll_within_window_is_quiet :
  forall config system s1 fc1 t1 s2 fc2 t2 g,
    present s1 <> 0 -> charging s1 = 0 ->
    percentage s1 <= critical_level config ->
    present s2 <> 0 -> charging s2 = 0 ->
    percentage s2 <= critical_level config ->
    let g1 := state_of (check_battery_timer config system s1 t1 fc1 g) in
    let tr2 := trace_of (check_battery_timer config system s2 t2 fc2 g1) in
    (t1 - last_alert_time g > 30 ->
       last_alert_time g1 = t1 /\ (t2 - t1 <= 30 -> quiet tr2)) /\
    (t1 - last_alert_time g <= 30 ->
       last_alert_time g1 = last_alert_time g /\
       (t2 - last_alert_time g <= 30 -> quiet tr2)) /\
    (g = initial_globals -> t1 = 0 -> t2 = 15 -> quiet tr2).
Proof.
  intros config system s1 fc1 t1 s2 fc2 t2 g Hp1 Hc1 Hl1 Hp2 Hc2 Hl2 g1 tr2.
  assert (Hquiet : t2 - last_alert_time g1 <= 30 -> quiet tr2).
  { intros Hd. subst tr2.
    rewrite (critical_idle_run config system s2 t2 fc2 g1 Hp2 Hc2 Hl2 Hd).
    apply display_trace_quiet. }
  assert (Hfired : t1 - last_alert_time g > 30 -> last_alert_time g1 = t1).
  { intros Hd. subst g1.
    rewrite (critical_due_run config system s1 t1 fc1 g Hp1 Hc1 Hl1 Hd).
    reflexivity. }
  assert (Hidle : t1 - last_alert_time g <= 30 ->
                  last_alert_time g1 = last_alert_time g).
  { intros Hd. subst g1.
    rewrite (critical_idle_run config system s1 t1 fc1 g Hp1 Hc1 Hl1 Hd).
    reflexivity. }
  split; [|split].
  - intros Hd. split; [exact (Hfired Hd)|].
    intros Hw. apply Hquiet. rewrite (Hfired Hd). exact Hw.
  - intros Hd. split; [exact (Hidle Hd)|].
    intros Hw. apply Hquiet. rewrite (Hidle Hd). exact Hw.
  - intros Hg Ht1 Ht2. apply Hquiet. rewrite Hidle.
    + rewrite Hg, Ht2. simpl. lia.
    + rewrite Hg, Ht1. simpl. lia.
Qed.

Lemma second_critical_poll_witness :
  quiet (trace_of
           (check_battery_timer default_config always_succeeds
              (reading 9 0) 1015 (reading 9 0)
              (state_of (check_battery_timer default_config always_succeeds
                           (reading 10 0) 1000 (reading 10 1) initial_globals)))).
Proof.
  assert (Hp1 : present (reading 10 0) <> 0) by (simpl; lia).
  assert (Hc1 : charging (reading 10 0) = 0) by reflexivity.
  assert (Hl1 : percentage (reading 10 0) <= critical_level default_config)
    by (simpl; lia).
  assert (Hp2 : present (reading 9 0) <> 0) by (simpl; lia).
  assert (Hc2 : charging (reading 9 0) = 0) by reflexivity.
  assert (Hl2 : percentage (reading 9 0) <= critical_level default_config)
    by (simpl; lia).
  assert (Hd : 1000 - last_alert_time initial_globals > 30) by (simpl; lia).
  assert (Hw : 1015 - 1000 <= 30) by lia.
  destruct (second_critical_poll_within_window_is_quiet default_config
              always_succeeds (reading 10 0) (reading 10 1) 1000
              (reading 9 0) (reading 9 0) 1015 initial_globals
              Hp1 Hc1 Hl1 Hp2 Hc2 Hl2) as (Hfired & _ & _).
  destruct (Hfired Hd) as (_ & Hq). exact (Hq Hw).
Defined.

(** ** A poll inside the dialog of another *)

Ltac engine_during :=
  cbv [check_battery_timer_during show_impossible_alert_during
       update_tray_icon show_notification destroy_alert_dialog
       set_last_percentage set_last_charging_state set_last_alert_time
       set_alert_active set_alert_dialog modify emit get skip ret bind
       state_of trace_of
       tray_icon last_percentage last_charging_state last_alert_time
       alert_active alert_dialog negb fst snd];
  cbn [app]; rewrite ?app_nil_r; cbn [app].

(** The statics while the dialog of [show_impossible_alert] is up. *)
Lemma dialog_statics_alert_time (g : Globals) :
  last_alert_time
    {| tray_icon := tray_icon g;
       last_percentage := last_percentage g;
       last_charging_state := last_charging_state g;
       last_alert_time := last_alert_time g;
       alert_active := alert_active g;
       alert_dialog := true |}
  = last_alert_time g.
Proof. reflexivity. Qed.

(** Nothing dispatched inside the dialog: the callback as modelled alone. *)
Lemma check_battery_timer_during_nothing config system st now fc g :
  check_battery_timer_during config system skip st now fc g
  = check_battery_timer config system st now fc g.
Proof.
  destruct g as [ti lp lc la aa ad].
  unfold check_battery_timer_during, check_battery_timer,
    show_impossible_alert_during, show_impossible_alert.
  destruct (negb (truthy (present st))); [reflexivity|].
  destruct (truthy (charging st)); [reflexivity|].
  destruct (percentage st <=? critical_level config).
  - cbv [bind get update_tray_icon emit skip ret tray_icon last_alert_time].
    destruct (negb ti); cbn [app];
      (destruct (now - la >? 30); [|reflexivity]);
      destruct (negb (truthy (impossible_alerts config))); try reflexivity;
      destruct ad; reflexivity.
  - destruct (percentage st <=? warning_level config); [|reflexivity].
    cbv [bind get update_tray_icon emit skip ret tray_icon last_alert_time].
    destruct (negb ti); cbn [app];
      (destruct (now - la >? 120); [|reflexivity]);
      destruct (negb (truthy (impossible_alerts config))); try reflexivity;
      destruct ad; reflexivity.
Qed.

(** The critical branch when [inside] runs within its dialog: [inside]
    starts on the statics with the dialog live and the old
    [last_alert_time], and the assignments that follow it overwrite what it
    stored. *)
Lemma critical_due_run_during config system inside st now fc g :
  impossible_alerts config <> 0 ->
  present st <> 0 -> charging st = 0 ->
  percentage st <= critical_level config ->
  now - last_alert_time g > 30 ->
  check_battery_timer_during config system inside st now fc g
  = let r := inside {| tray_icon := tray_icon g;
                       last_percentage := last_percentage g;
                       last_charging_state := last_charging_state g;
                       last_alert_time := last_alert_time g;
                       alert_active := alert_active g;
                       alert_dialog := true |} in
    (tt,
     {| tray_icon := tray_icon (state_of r);
        last_percentage := percentage st;
        last_charging_state := charging st;
        last_alert_time := now;
        alert_active := 1;
        alert_dialog := false |},
     display_trace config st g
     ++ Act (Notify UrgCritical (CriticalBattery (percentage st)))
        :: dismiss_trace g
     ++ Act (ImpossibleAlert (CriticalBattery (percentage st)))
        :: trace_of r
     ++ grace_trace config system fc).
Proof.
  intros Hia Hp Hc Hl Hd. destruct g as [ti lp lc la aa ad]. simpl in Hd.
  assert (H1 : truthy (present st) = true) by (apply truthy_true; exact Hp).
  assert (H2 : truthy (charging st) = false) by (apply truthy_false; exact Hc).
  assert (H3 : (percentage st <=? critical_level config) = true)
    by (apply leb_true; exact Hl).
  assert (H4 : (now - la >? 30) = true) by (apply gtb_true; exact Hd).
  assert (H5 : truthy (impossible_alerts config) = true)
    by (apply truthy_true; exact Hia).
  cbv zeta.
  destruct (inside {| tray_icon := ti; last_percentage := lp;
                      last_charging_state := lc; last_alert_time := la;
                      alert_active := aa; alert_dialog := true |})
    as [[u gi] tin] eqn:Ein.
  engine_during. engine. use_facts. engine_during.
  destruct ti; engine_during; use_facts; engine_during.
  all: destruct ad; engine_during; rewrite ?Ein; engine_during.
  all: destruct (truthy (force_suspend config)); engine_during.
  all: try reflexivity.
  all: case_if; engine_during; try rewrite force_system_suspend_frame;
    engine_during; reflexivity.
Qed.

(** C4, a defect of the code: the guard that is to keep a second critical
    evaluation inside the 30-second window quiet compares with
    [last_alert_time], but the callback assigns it only at its end, after
    the modal dialog and the sleep.  An invocation dispatched while the dialog
    of a first critical invocation is up, at any [t2 >= t1] and so also
    within 30 seconds of the alert, still sees the old time: it posts its own
    notification, closes the first dialog and opens another, and with
    [force_suspend] set goes through the grace wait and suspends if its
    re-sample is still critical.  On return the first invocation then stores
    its own, older clock value. *)
Theorem poll_inside_dialog_alerts_again :
  forall config system st1 t1 fc1 st2 t2 fc2 g,
    impossible_alerts config <> 0 ->
    present st1 <> 0 -> charging st1 = 0 ->
    percentage st1 <= critical_level config ->
    present st2 <> 0 -> charging st2 = 0 ->
    percentage st2 <= critical_level config ->
    t1 - last_alert_time g > 30 ->
    t1 <= t2 ->
    let inner := check_battery_timer config system st2 t2 fc2 in
    let r := check_battery_timer_during config system inner st1 t1 fc1 g in
    exists before second after,
      trace_of r = before ++ second ++ after /\
      In (Act (ImpossibleAlert (CriticalBattery (percentage st1)))) before /\
      second
      = display_trace config st2 g
        ++ [Act (Notify UrgCritical (CriticalBattery (percentage st2)));
            Act DismissAlert;
            Act (ImpossibleAlert (CriticalBattery (percentage st2)))]
        ++ grace_trace config system fc2 /\
      last_alert_time (state_of r) = t1.
Proof.
  intros config system st1 t1 fc1 st2 t2 fc2 g Hia Hp1 Hc1 Hl1 Hp2 Hc2 Hl2 Hd Ht
    inner r. subst inner r.
  rewrite (critical_due_run_during config system _ st1 t1 fc1 g Hia Hp1 Hc1 Hl1 Hd).
  cbv zeta.
  rewrite (critical_due_run config system st2 t2 fc2 _ Hp2 Hc2 Hl2)
    by (cbn [last_alert_time]; lia).
  unfold trace_of, state_of. cbn [fst snd].
  exists (display_trace config st1 g
          ++ Act (Notify UrgCritical (CriticalBattery (percentage st1)))
             :: dismiss_trace g
          ++ [Act (ImpossibleAlert (CriticalBattery (percentage st1)))]).
  exists (display_trace config st2 g
          ++ [Act (Notify UrgCritical (CriticalBattery (percentage st2)));
              Act DismissAlert;
              Act (ImpossibleAlert (CriticalBattery (percentage st2)))]
          ++ grace_trace config system fc2).
  exists (grace_trace config system fc1).
  split; [|split; [|split; reflexivity]].
  - unfold alert_trace, dismiss_trace at 2, display_trace.
    cbn [alert_dialog tray_icon].
    rewrite (truthy_true _ Hia).
    repeat (rewrite <- ?app_assoc; cbn [app]). reflexivity.
  - apply in_or_app. right. right. apply in_or_app. right. left. reflexivity.
Qed.

Lemma poll_inside_dialog_witness :
  exists before after,
    trace_of (check_battery_timer_during default_config always_succeeds
                (check_battery_timer default_config always_succeeds
                   (reading 5 0) 1015 (reading 5 0))
                (reading 5 0) 1000 (reading 5 1) initial_globals)
    = before
      ++ [Act (UpdateDisplay Critical 5);
          Act (Notify UrgCritical (CriticalBattery 5));
          Act DismissAlert;
          Act (ImpossibleAlert (CriticalBattery 5));
          Act (Sleep 10); Act Resample; Act Suspend;
          Act (Notify UrgCritical SuspendingNow); SystemCall Systemd 0]
      ++ after.
Proof.
  assert (Hia : impossible_alerts default_config <> 0) by (simpl; lia).
  assert (Hp : present (reading 5 0) <> 0) by (simpl; lia).
  assert (Hc : charging (reading 5 0) = 0) by reflexivity.
  assert (Hl : percentage (reading 5 0) <= critical_level default_config)
    by (simpl; lia).
  assert (Hd : 1000 - last_alert_time initial_globals > 30) by (simpl; lia).
  assert (Ht : 1000 <= 1015) by lia.
  destruct (poll_inside_dialog_alerts_again default_config always_succeeds
              (reading 5 0) 1000 (reading 5 1) (reading 5 0) 1015 (reading 5 0)
              initial_globals Hia Hp Hc Hl Hp Hc Hl Hd Ht)
    as (before & second & after & Htrace & _ & Hsecond & _).
  exists before, after. rewrite Htrace, Hsecond. reflexivity.
Defined.

(** The whole trace at that input: the first dialog, the second invocation
    15 seconds later with its own alert, grace wait and suspend, then the
    rest of the first invocation, which leaves [last_alert_time] at 1000. *)
Lemma poll_inside_dialog_trace :
  let r := check_battery_timer_during default_config always_succeeds
             (check_battery_timer default_config always_succeeds
                (reading 5 0) 1015 (reading 5 0))
             (reading 5 0) 1000 (reading 5 1) initial_globals in
  trace_of r
  = [Act (UpdateDisplay Critical 5);
     Act (Notify UrgCritical (CriticalBattery 5));
     Act (ImpossibleAlert (CriticalBattery 5));
     Act (UpdateDisplay Critical 5);
     Act (Notify UrgCritical (CriticalBattery 5));
     Act DismissAlert;
     Act (ImpossibleAlert (CriticalBattery 5));
     Act (Sleep 10); Act Resample; Act Suspend;
     Act (Notify UrgCritical SuspendingNow); SystemCall Systemd 0;
     Act (Sleep 10); Act Resample] /\
  last_alert_time (state_of r) = 1000.
Proof. vm_compute. split; reflexivity. Qed.

(** ** The warning band *)

(** C5: a present, non-charging reading above [critical_level] and at or
    below [warning_level] posts nothing and keeps [last_alert_time] while
    [now - last_alert_time <= 120]; beyond 120 seconds it posts the
    notification and, when [impossible_alerts] is set, the modal alert, and
    sets [last_alert_time] to [now].  It never suspends. *)
Theorem warning_band_suppression :
  forall config system st now fc g,
    present st <> 0 -> charging st = 0 ->
    critical_level config < percentage st <= warning_level config ->
    let r := check_battery_timer config system st now fc g in
    (now - last_alert_time g <= 120 ->
       emits is_notify (trace_of r) = false /\
       emits is_impossible_alert (trace_of r) = false /\
       last_alert_time (state_of r) = last_alert_time g) /\
    (now - last_alert_time g > 120 ->
       In (Act (Notify UrgCritical
                  (LowBattery (percentage st) (critical_level config))))
          (trace_of r) /\
       emits is_impossible_alert (trace_of r) = truthy (impossible_alerts config) /\
       last_alert_time (state_of r) = now) /\
    emits is_suspend (trace_of r) = false /\
    emits is_system_call (trace_of r) = false /\
    emits is_sleep (trace_of r) = false /\
    emits is_resample (trace_of r) = false.
Proof.
  intros config system st now fc g Hp Hc Hb r.
  split; [|split].
  - intros Hd. subst r.
    rewrite (warning_idle_run config system st now fc g Hp Hc Hb Hd).
    unfold trace_of, state_of; simpl.
    destruct (display_trace_quiet config st g) as (Hn & Ha & _).
    repeat split; assumption.
  - intros Hd. subst r.
    rewrite (warning_due_run config system st now fc g Hp Hc Hb Hd).
    unfold trace_of, state_of; simpl. split; [|split].
    + apply in_or_app. right. left. reflexivity.
    + trace_cases config g; reflexivity.
    + reflexivity.
  - subst r. destruct (Z_le_gt_dec (now - last_alert_time g) 120) as [Hd|Hd].
    + rewrite (warning_idle_run config system st now fc g Hp Hc Hb Hd).
      unfold trace_of, snd. trace_cases config g; repeat split; reflexivity.
    + rewrite (warning_due_run config system st now fc g Hp Hc Hb Hd).
      unfold trace_of, snd. trace_cases config g; repeat split; reflexivity.
Qed.

Lemma warning_band_witness :
  let r := check_battery_timer default_config always_succeeds
             (reading 15 0) 1100 (reading 15 0)
             (alerted default_config (reading 18 0) 1000 initial_globals) in
  emits is_notify (trace_of r) = false /\
  emits is_impossible_alert (trace_of r) = false /\
  last_alert_time (state_of r) = 1000.
Proof.
  assert (Hp : present (reading 15 0) <> 0) by (simpl; lia).
  assert (Hc : charging (reading 15 0) = 0) by reflexivity.
  assert (Hb : critical_level default_config < percentage (reading 15 0)
               <= warning_level default_config) by (simpl; lia).
  assert (Hd : 1100 - last_alert_time
                        (alerted default_config (reading 18 0) 1000 initial_globals)
               <= 120) by (simpl; lia).
  destruct (warning_band_suppression default_config always_succeeds
              (reading 15 0) 1100 (reading 15 0)
              (alerted default_config (reading 18 0) 1000 initial_globals)
              Hp Hc Hb) as (Hidle & _).
  exact (Hidle Hd).
Defined.

(** ** Recording the last reading *)

(** C7, as amended: every evaluation of a present reading, charging or not
    and in whatever band, ends with [last_percentage] and
    [last_charging_state] equal to the percentage and charging flag of the
    reading; an absent reading returns before that and leaves all statics as
    they were. *)
Theorem present_paths_record_last_reading :
  forall config system st now fc g,
    let g' := state_of (check_battery_timer config system st now fc g) in
    (present st <> 0 ->
       last_percentage g' = percentage st /\
       last_charging_state g' = charging st) /\
    (present st = 0 -> g' = g).
Proof.
  intros config system st now fc g g'. split.
  - intros Hp. subst g'.
    destruct (Z.eq_dec (charging st) 0) as [Hc|Hc].
    + destruct (Z_le_gt_dec (percentage st) (critical_level config)) as [Hl|Hl].
      * destruct (Z_le_gt_dec (now - last_alert_time g) 30) as [Hd|Hd].
        -- rewrite (critical_idle_run config system st now fc g Hp Hc Hl Hd).
           split; reflexivity.
        -- rewrite (critical_due_run config system st now fc g Hp Hc Hl Hd).
           split; reflexivity.
      * destruct (Z_le_gt_dec (percentage st) (warning_level config)) as [Hw|Hw].
        -- assert (Hb : critical_level config < percentage st
                         <= warning_level config) by lia.
           destruct (Z_le_gt_dec (now - last_alert_time g) 120) as [Hd|Hd].
           ++ rewrite (warning_idle_run config system st now fc g Hp Hc Hb Hd).
              split; reflexivity.
           ++ rewrite (warning_due_run config system st now fc g Hp Hc Hb Hd).
              split; reflexivity.
        -- rewrite (normal_run config system st now fc g Hp Hc); [|lia|lia].
           split; reflexivity.
    + rewrite (charging_run config system st now fc g Hp Hc).
      split; reflexivity.
  - intros Hp. subst g'.
    rewrite (absent_run config system st now fc g Hp). reflexivity.
Qed.

Lemma present_paths_witness :
  let g' := state_of (check_battery_timer default_config always_succeeds
                        (reading 64 1) 1000 (reading 64 1) initial_globals) in
  last_percentage g' = 64 /\ last_charging_state g' = 1.
Proof.
  assert (Hp : present (reading 64 1) <> 0) by (simpl; lia).
  exact (proj1 (present_paths_record_last_reading default_config
                  always_succeeds (reading 64 1) 1000 (reading 64 1)
                  initial_globals) Hp).
Defined.

(** C7 as stated fails on the absent branch: with no battery the callback
    returns right after the tray icon, and [last_percentage] and
    [last_charging_state] keep their old value, here the initial -1, rather
    than the 0 of the reading. *)
Lemma absent_reading_is_not_recorded :
  let g' := state_of (check_battery_timer default_config always_fails
                        zero_status 1000 zero_status initial_globals) in
  present zero_status = 0 /\
  last_percentage g' = -1 /\
  last_charging_state g' = -1 /\
  last_percentage g' <> percentage zero_status /\
  last_charging_state g' <> charging zero_status.
Proof. vm_compute. repeat split; discriminate. Qed.

(** ** Determinism *)

Lemma try_fallbacks_ext config system1 system2 (rows : list SuspendMethod) :
  (forall m, system1 m = system2 m) ->
  forall i g, try_fallbacks config system1 i rows g
              = try_fallbacks config system2 i rows g.
Proof.
  intros Hs. induction rows as [|m rest IH]; intros i g; simpl.
  - reflexivity.
  - destruct (i =? suspend_method config); simpl.
    + apply IH.
    + unfold bind. rewrite (Hs m). destruct (emit_call m (system2 m) g) as [[u g1] t1].
      destruct (system2 m =? 0); [reflexivity|]. rewrite IH. reflexivity.
Qed.

Lemma suspend_trace_ext config system1 system2 :
  (forall m, system1 m = system2 m) ->
  suspend_trace config system1 = suspend_trace config system2.
Proof.
  intros Hs. unfold suspend_trace, force_system_suspend, bind.
  destruct (emit Suspend initial_globals) as [[u0 g0] t0].
  destruct (show_notification SuspendingNow UrgCritical g0) as [[u1 g1] t1].
  destruct ((0 <=? suspend_method config) && (suspend_method config <? 4));
    [|reflexivity].
  set (p := nth (Z.to_nat (suspend_method config)) suspend_commands Systemd).
  rewrite (Hs p).
  destruct (emit_call p (system2 p) g1) as [[u2 g2] t2].
  destruct (negb (system2 p =? 0)); [|reflexivity].
  rewrite (try_fallbacks_ext config system1 system2 suspend_commands Hs).
  reflexivity.
Qed.

Lemma band_of_critical config st :
  present st <> 0 -> charging st = 0 ->
  percentage st <= critical_level config ->
  band_of config st = Critical.
Proof.
  intros Hp Hc Hl. unfold band_of.
  rewrite (truthy_true _ Hp), (truthy_false _ Hc), (leb_true _ _ Hl).
  reflexivity.
Qed.

Lemma actions_of_grace_trace config system fc :
  actions_of (grace_trace config system fc)
  = if truthy (force_suspend config)
    then Sleep 10 :: Resample
         :: (if still_critical config fc
             then [Suspend; Notify UrgCritical SuspendingNow] else [])
    else [].
Proof.
  unfold grace_trace.
  destruct (truthy (force_suspend config)); [|reflexivity].
  destruct (still_critical config fc); simpl; [|reflexivity].
  rewrite actions_of_suspend_trace. reflexivity.
Qed.

(** C9: the callback is a function of its reading, the configuration, the
    statics and the clock, and in the critical band also of the second
    reading.  Two runs that agree on these, and in the critical band on
    percentage and charging flag of the second reading, end in the same
    statics with the same sequence of actions, whatever the suspend commands
    return; when the commands return the same exit statuses too, the runs
    are equal down to every call of [system]. *)
Theorem check_battery_timer_deterministic :
  forall config system1 system2 st now fc1 fc2 g,
    (band_of config st = Critical ->
     percentage fc1 = percentage fc2 /\ charging fc1 = charging fc2) ->
    let r1 := check_battery_timer config system1 st now fc1 g in
    let r2 := check_battery_timer config system2 st now fc2 g in
    state_of r1 = state_of r2 /\
    actions_of (trace_of r1) = actions_of (trace_of r2) /\
    ((forall m, system1 m = system2 m) -> r1 = r2).
Proof.
  intros config system1 system2 st now fc1 fc2 g Hfc r1 r2. subst r1 r2.
  destruct (Z.eq_dec (present st) 0) as [Hp|Hp].
  { rewrite !(absent_run config _ st now _ g Hp). repeat split. }
  destruct (Z.eq_dec (charging st) 0) as [Hc|Hc].
  2: { rewrite !(charging_run config _ st now _ g Hp Hc). repeat split. }
  destruct (Z_le_gt_dec (percentage st) (critical_level config)) as [Hl|Hl].
  - destruct (Z_le_gt_dec (now - last_alert_time g) 30) as [Hd|Hd].
    + rewrite !(critical_idle_run config _ st now _ g Hp Hc Hl Hd).
      repeat split.
    + rewrite !(critical_due_run config _ st now _ g Hp Hc Hl Hd).
      destruct (Hfc (band_of_critical config st Hp Hc Hl)) as [Hpc Hch].
      assert (Hsc : still_critical config fc1 = still_critical config fc2)
        by (unfold still_critical; rewrite Hpc, Hch; reflexivity).
      unfold state_of, trace_of; simpl. split; [reflexivity | split].
      * rewrite !actions_of_app. simpl. rewrite !actions_of_app.
        rewrite !actions_of_grace_trace, Hsc. reflexivity.
      * intros Hs. unfold grace_trace.
        rewrite Hsc, (suspend_trace_ext config system1 system2 Hs).
        reflexivity.
  - destruct (Z_le_gt_dec (percentage st) (warning_level config)) as [Hw|Hw].
    + assert (Hb : critical_level config < percentage st <= warning_level config)
        by lia.
      destruct (Z_le_gt_dec (now - last_alert_time g) 120) as [Hd|Hd].
      * rewrite !(warning_idle_run config _ st now _ g Hp Hc Hb Hd).
        repeat split.
      * rewrite !(warning_due_run config _ st now _ g Hp Hc Hb Hd).
        repeat split.
    + assert (Hl' : critical_level config < percentage st) by lia.
      assert (Hw' : warning_level config < percentage st) by lia.
      rewrite !(normal_run config _ st now _ g Hp Hc Hl' Hw').
      repeat split.
Qed.

Lemma deterministic_witness :
  actions_of (trace_of (check_battery_timer default_config always_fails
                          (reading 8 0) 1000 (reading 8 0) initial_globals))
  = actions_of (trace_of (check_battery_timer default_config always_succeeds
                            (reading 8 0) 1000 (reading 8 0) initial_globals)).
Proof.
  assert (H : band_of default_config (reading 8 0) = Critical ->
              percentage (reading 8 0) = percentage (reading 8 0) /\
              charging (reading 8 0) = charging (reading 8 0))
    by (intros _; split; reflexivity).
  exact (proj1 (proj2 (check_battery_timer_deterministic default_config
                         always_fails always_succeeds (reading 8 0) 1000
                         (reading 8 0) (reading 8 0) initial_globals H))).
Defined.

(** ** A failed re-sample *)

Lemma probe_absent (paths : list PowerSupply) :
  present (probe paths) = 0 -> probe paths = zero_status.
Proof.
  induction paths as [|b rest IH]; simpl; [reflexivity|].
  destruct (present_file b) as [[p|]|]; try exact IH.
  destruct (truthy p); [|exact IH].
  unfold read_battery. destruct (status_file b); simpl; discriminate.
Qed.

Lemma critical_due_suspends config system st now fc g :
  present st <> 0 -> charging st = 0 ->
  percentage st <= critical_level config ->
  now - last_alert_time g > 30 ->
  force_suspend config <> 0 ->
  still_critical config fc = true ->
  emits is_suspend (trace_of (check_battery_timer config system st now fc g)) = true.
Proof.
  intros Hp Hc Hl Hd Hf Hsc. apply truthy_true in Hf.
  rewrite (critical_due_run config system st now fc g Hp Hc Hl Hd).
  unfold trace_of, snd.
  destruct (suspend_trace_emits config system) as (Hs1 & _).
  trace_cases config g; rewrite ?Hf, ?Hsc; simpl; rewrite Hs1; reflexivity.
Qed.

(** C10: when the second [get_battery_status] of a critical cycle finds no
    battery, its result is the zero-initialised reading, percentage 0 and not
    charging; the callback tests only these two fields, never [present], so
    with [0 <= critical_level] the reading counts as still critical and
    [force_system_suspend] is called all the same. *)
Theorem absent_resample_still_suspends :
  forall config system hw now hw_later g,
    present (get_battery_status hw) <> 0 ->
    charging (get_battery_status hw) = 0 ->
    percentage (get_battery_status hw) <= critical_level config ->
    now - last_alert_time g > 30 ->
    force_suspend config <> 0 ->
    0 <= critical_level config ->
    present (get_battery_status hw_later) = 0 ->
    percentage (get_battery_status hw_later) = 0 /\
    charging (get_battery_status hw_later) = 0 /\
    emits is_suspend (trace_of (poll config system hw now hw_later g)) = true.
Proof.
  intros config system hw now hw_later g Hp Hc Hl Hd Hf Hcrit Habs.
  unfold get_battery_status in Habs. apply probe_absent in Habs.
  fold (get_battery_status hw_later) in Habs.
  split; [rewrite Habs; reflexivity|].
  split; [rewrite Habs; reflexivity|].
  unfold poll.
  apply (critical_due_suspends config system (get_battery_status hw) now
           (get_battery_status hw_later) g Hp Hc Hl Hd Hf).
  apply still_critical_iff. rewrite Habs. split; [exact Hcrit | reflexivity].
Qed.

Lemma absent_resample_witness :
  emits is_suspend
    (trace_of (poll default_config always_fails
                 (mkSysfs (discharging 7) unreadable) 1000
                 (mkSysfs unreadable unreadable) initial_globals)) = true.
Proof.
  refine (proj2 (proj2 (absent_resample_still_suspends default_config
            always_fails (mkSysfs (discharging 7) unreadable) 1000
            (mkSysfs unreadable unreadable) initial_globals _ _ _ _ _ _ _))).
  - vm_compute. discriminate.
  - vm_compute. reflexivity.
  - vm_compute. discriminate.
  - vm_compute. reflexivity.
  - vm_compute. discriminate.
  - vm_compute. discriminate.
  - vm_compute. reflexivity.
Defined.

(** ** The suspend executor *)

Lemma attempt_in_order_succeeds system (ms : list SuspendMethod) :
  (exists m, In m ms /\ system m = 0) ->
  existsb (fun c => snd c =? 0) (attempt_in_order system ms) = true.
Proof.
  induction ms as [|m ms IH]; intros (m0 & Hin & H0);
    cbn [existsb attempt_in_order snd].
  - destruct Hin.
  - destruct (system m =? 0) eqn:E; cbn [existsb orb]; [reflexivity|].
    destruct Hin as [->|Hin]; [rewrite H0 in E; discriminate|].
    apply IH. exists m0. auto.
Qed.

Lemma attempt_in_order_all_fail system (ms : list SuspendMethod) :
  (forall m, system m <> 0) ->
  map fst (attempt_in_order system ms) = ms /\
  existsb (fun c => snd c =? 0) (attempt_in_order system ms) = false.
Proof.
  intros Hall.
  induction ms as [|m ms [IH1 IH2]]; cbn [existsb attempt_in_order snd map];
    [split; reflexivity|].
  destruct (system m =? 0) eqn:E.
  - apply Z.eqb_eq in E. destruct (Hall m E).
  - cbn [fst orb]. rewrite IH1, IH2. split; reflexivity.
Qed.

Lemma in_fallback_chain (p m : SuspendMethod) : In m (fallback_chain p).
Proof.
  unfold fallback_chain.
  destruct (SuspendMethod_eq_dec p m) as [->|Hne]; [left; reflexivity|].
  right. apply in_in_remove; [congruence|].
  destruct m; simpl; auto.
Qed.

Lemma force_system_suspend_calls config system g :
  0 <= suspend_method config < 4 ->
  calls_of (trace_of (force_system_suspend config system g))
  = attempt_in_order system
      (fallback_chain (nth (Z.to_nat (suspend_method config)) suspend_commands Systemd)).
Proof.
  intros Hr.
  destruct config as [wl cl ci at_ cp ic ib il fs ia sm]. cbn [suspend_method] in *.
  assert (Hm : sm = 0 \/ sm = 1 \/ sm = 2 \/ sm = 3) by lia.
  unfold force_system_suspend, show_notification, trace_of.
  destruct Hm as [E|[E|[E|E]]]; subst sm;
    cbv [try_fallbacks suspend_method calls_of suspend_commands fallback_chain remove nth Z.to_nat
         Pos.to_nat Pos.iter_op Nat.add
         SuspendMethod_eq_dec SuspendMethod_rec SuspendMethod_rect
         bind emit emit_call skip ret snd fst negb andb
         Z.leb Z.ltb Z.eqb Z.compare Pos.compare Pos.compare_cont Pos.eqb
         Z.add Pos.add Pos.succ
         attempt_in_order];
    destruct (system Systemd), (system PmUtils),
      (system DBus), (system KernelDirect);
    reflexivity.
Qed.

(** C6, as amended: for a configured method of the table (index 0 to 3)
    [force_system_suspend] runs the configured command first and, when it
    returns a non-zero status, the remaining rows in table order (systemd,
    pm-utils, dbus, kernel), stopping at the first status 0.  If some row
    succeeds, the run contains a successful command; if every row fails, all
    four are attempted, the configured one first.  The function is [void]:
    it hands nothing back and changes no static, whatever the commands
    return, so the attempts and their statuses exist only as the calls of
    [system] it made. *)
Theorem suspend_fallback_chain :
  forall config system g,
    0 <= suspend_method config < 4 ->
    let r := force_system_suspend config system g in
    let configured :=
      nth (Z.to_nat (suspend_method config)) suspend_commands Systemd in
    calls_of (trace_of r) = attempt_in_order system (fallback_chain configured) /\
    ((exists m, In m suspend_commands /\ system m = 0) ->
       succeeded (trace_of r) = true) /\
    ((forall m, system m <> 0) ->
       map fst (calls_of (trace_of r)) = fallback_chain configured /\
       List.length (calls_of (trace_of r)) = 4%nat /\
       succeeded (trace_of r) = false) /\
    (forall system', fst (force_system_suspend config system' g) = fst r).
Proof.
  intros config system g Hr r configured. subst r configured.
  unfold succeeded.
  rewrite (force_system_suspend_calls config system g Hr).
  split; [reflexivity | split; [|split]].
  - intros (m & _ & H0). apply attempt_in_order_succeeds.
    exists m. split; [apply in_fallback_chain | exact H0].
  - intros Hall.
    destruct (attempt_in_order_all_fail system
                (fallback_chain (nth (Z.to_nat (suspend_method config))
                                   suspend_commands Systemd)) Hall) as [Hm Hs].
    split; [exact Hm | split; [|exact Hs]].
    rewrite <- (length_map fst), Hm.
    destruct (nth (Z.to_nat (suspend_method config)) suspend_commands Systemd);
      reflexivity.
  - intros system'. rewrite !force_system_suspend_frame. reflexivity.
Qed.

Lemma suspend_fallback_witness :
  calls_of (trace_of (force_system_suspend (set_suspend_method 2 default_config)
                        always_fails initial_globals))
  = [(DBus, 1); (Systemd, 1); (PmUtils, 1); (KernelDirect, 1)].
Proof.
  assert (Hr : 0 <= suspend_method (set_suspend_method 2 default_config) < 4)
    by (simpl; lia).
  destruct (suspend_fallback_chain (set_suspend_method 2 default_config)
              always_fails initial_globals Hr) as (Hcalls & _).
  rewrite Hcalls. reflexivity.
Defined.

(** C6 as stated fails on the result: with the default method and every
    command failing, all four rows are attempted and none succeeds, yet what
    the function hands back is the same as when the first command succeeds.
    No [AllMethodsFailed] with the attempts is returned, and no success
    either.  The table is the fixed array of four rows, never a single one. *)
Lemma suspend_reports_no_outcome :
  let failed := force_system_suspend default_config always_fails initial_globals in
  let done := force_system_suspend default_config always_succeeds initial_globals in
  calls_of (trace_of failed)
  = [(Systemd, 1); (PmUtils, 1); (DBus, 1); (KernelDirect, 1)] /\
  succeeded (trace_of failed) = false /\
  succeeded (trace_of done) = true /\
  fst failed = fst done /\
  List.length suspend_commands = 4%nat.
Proof. vm_compute. repeat split; reflexivity. Qed.

(** ** Loading the configuration *)

Lemma streq_eq (a b : list ascii) : streq a b = true <-> a = b.
Proof.
  unfold streq. destruct (list_eq_dec ascii_dec a b); split; congruence.
Qed.

Lemma fgets_bytes_shorter (room : nat) (input : list ascii) :
  (List.length (snd (fgets_bytes room input)) <= List.length input)%nat.
Proof.
  revert input. induction room as [|room IH]; intros input; simpl.
  - destruct input; simpl; lia.
  - destruct input as [|c rest]; simpl; [lia|].
    destruct (Ascii.eqb c LF); simpl; [lia|].
    specialize (IH rest). destruct (fgets_bytes room rest) as [got left].
    simpl in *. lia.
Qed.

Lemma fgets_bytes_strict (room : nat) (c : ascii) (input : list ascii) :
  (List.length (snd (fgets_bytes (S room) (c :: input))) < List.length (c :: input))%nat.
Proof.
  cbn [fgets_bytes]. destruct (Ascii.eqb c LF); simpl; [lia|].
  pose proof (fgets_bytes_shorter room input) as Hs.
  destruct (fgets_bytes room input) as [got left]. simpl in *. lia.
Qed.

Lemma fgets_nonempty (room : nat) (c : ascii) (input : list ascii) :
  fgets (S room) (c :: input) = Some (fgets_bytes room (c :: input)).
Proof. reflexivity. Qed.

(** A successful [fgets] consumes at least one byte. *)
Lemma fgets_consumes (input buf rest : list ascii) :
  fgets 512 input = Some (buf, rest) ->
  (List.length rest < List.length input)%nat.
Proof.
  destruct input as [|c input]; [discriminate|].
  rewrite fgets_nonempty. intros H.
  pose proof (fgets_bytes_strict 510 c input) as Hs.
  replace (fgets_bytes 511 (c :: input)) with (buf, rest) in Hs by congruence.
  exact Hs.
Qed.

(** The loop of [load_config] reaches the end of the file within as many
    rounds as the file has bytes: more fuel changes nothing. *)
Lemma read_lines_fuel (fuel1 : nat) :
  forall fuel2 input c,
    (List.length input <= fuel1)%nat -> (List.length input <= fuel2)%nat ->
    read_lines fuel1 input c = read_lines fuel2 input c.
Proof.
  induction fuel1 as [|fuel1 IH]; intros fuel2 input c H1 H2.
  - destruct input; [|simpl in H1; lia].
    destruct fuel2; reflexivity.
  - destruct fuel2 as [|fuel2].
    + destruct input; [reflexivity | simpl in H2; lia].
    + cbn [read_lines]. destruct (fgets 512 input) as [[buf rest]|] eqn:E;
        [|reflexivity].
      apply fgets_consumes in E. apply IH; lia.
Qed.

Lemma fgets_bytes_line (line rest : list ascii) :
  forallb (fun c => negb (Ascii.eqb c LF)) line = true ->
  forall room, (List.length line < room)%nat ->
  fgets_bytes room (line ++ LF :: rest) = (line ++ [LF], rest).
Proof.
  induction line as [|c line IH]; intros Hl room Hroom.
  - destruct room; [simpl in Hroom; lia|]. reflexivity.
  - destruct room; [simpl in Hroom; lia|].
    simpl in Hl. apply andb_true_iff in Hl as [Hc Hl].
    cbn [fgets_bytes app]. apply negb_true_iff in Hc. rewrite Hc.
    rewrite (IH Hl room); [reflexivity | simpl in Hroom; lia].
Qed.

Lemma fgets_line (line rest : list ascii) :
  forallb (fun c => negb (Ascii.eqb c LF)) line = true ->
  (List.length line <= 510)%nat ->
  fgets 512 (line ++ LF :: rest) = Some (line ++ [LF], rest).
Proof.
  intros Hl Hlen.
  destruct (line ++ LF :: rest) eqn:E; [destruct line; discriminate|].
  rewrite fgets_nonempty, <- E.
  rewrite fgets_bytes_line; [reflexivity | exact Hl | lia].
Qed.

Lemma cstr_line (line : list ascii) :
  forallb (fun c => negb (Ascii.eqb c NUL)) line = true ->
  cstr (line ++ [LF]) = line ++ [LF].
Proof.
  induction line as [|c line IH]; intros H; simpl in *; [reflexivity|].
  apply andb_true_iff in H as [Hc H]. apply negb_true_iff in Hc.
  rewrite Hc, (IH H). reflexivity.
Qed.

Lemma strip_newline_line (line : list ascii) :
  forallb (fun c => negb (Ascii.eqb c LF)) line = true ->
  strip_newline (line ++ [LF]) = line.
Proof.
  induction line as [|c line IH]; intros H; simpl in *; [reflexivity|].
  apply andb_true_iff in H as [Hc H]. apply negb_true_iff in Hc.
  rewrite Hc, (IH H). reflexivity.
Qed.

Lemma scan_set_all (p : ascii -> bool) (a : list ascii) :
  forallb p a = true ->
  forall width rest,
    (List.length a <= width)%nat ->
    match rest with [] => True | c :: _ => p c = false end ->
    scan_set width p (a ++ rest) = (a, rest).
Proof.
  induction a as [|c a IH]; intros Ha width rest Hw Hrest.
  - cbn [app]. destruct rest as [|r rest]; destruct width; try reflexivity.
    cbn [scan_set]. rewrite Hrest. reflexivity.
  - simpl in Ha. apply andb_true_iff in Ha as [Hc Ha].
    destruct width; [simpl in Hw; lia|].
    cbn [app scan_set]. rewrite Hc.
    rewrite (IH Ha width rest); [reflexivity | simpl in Hw; lia | exact Hrest].
Qed.

Lemma forallb_weaken {A} (p q : A -> bool) (l : list A) :
  (forall x, p x = true -> q x = true) ->
  forallb p l = true -> forallb q l = true.
Proof.
  intros Hpq. induction l as [|x l IH]; simpl; [reflexivity|].
  intros H. apply andb_true_iff in H as [Hx Hl].
  rewrite (Hpq x Hx), (IH Hl). reflexivity.
Qed.

Lemma key_char_facts (c : ascii) :
  key_char c = true ->
  Ascii.eqb c "=" = false /\ Ascii.eqb c NUL = false /\ Ascii.eqb c LF = false.
Proof.
  unfold key_char. intros H.
  apply andb_true_iff in H as [H H3]. apply andb_true_iff in H as [H1 H2].
  repeat split; apply negb_true_iff; assumption.
Qed.

Lemma value_char_facts (c : ascii) :
  value_char c = true ->
  isspace c = false /\ Ascii.eqb c NUL = false /\ Ascii.eqb c LF = false.
Proof.
  unfold value_char. intros H. apply andb_true_iff in H as [H1 H2].
  apply negb_true_iff in H1. apply negb_true_iff in H2.
  repeat split; try assumption.
  destruct (Ascii.eqb_spec c LF) as [->|]; [discriminate H1 | reflexivity].
Qed.

Lemma sscanf_assign (key value : list ascii) :
  line_ok (Assign key value) = true ->
  sscanf_key_value (key ++ "="%char :: value) = Some (key, value).
Proof.
  intros Hok. destruct key as [|k0 key]; [discriminate|].
  destruct value as [|v0 value]; [discriminate|].
  cbn [line_ok] in Hok.
  apply andb_true_iff in Hok as [Hok Hvl].
  apply andb_true_iff in Hok as [Hok Hkl].
  apply andb_true_iff in Hok as [Hok Hv].
  apply andb_true_iff in Hok as [_ Hk].
  apply Nat.leb_le in Hkl. apply Nat.leb_le in Hvl.
  unfold sscanf_key_value.
  rewrite (scan_set_all _ (k0 :: key)); [| | exact Hkl | reflexivity].
  2: { apply (forallb_weaken key_char); [|exact Hk].
       intros c Hc. apply key_char_facts in Hc as (-> & _). reflexivity. }
  cbn [Ascii.eqb Bool.eqb andb].
  assert (Hv0 : isspace v0 = false).
  { simpl in Hv. apply andb_true_iff in Hv as [Hv0 _].
    apply value_char_facts in Hv0 as (H & _). exact H. }
  cbn [skip_spaces]. rewrite Hv0.
  rewrite <- (app_nil_r (v0 :: value)) at 1.
  rewrite (scan_set_all _ (v0 :: value)); [reflexivity | | lia | exact I].
  apply (forallb_weaken value_char); [|exact Hv].
  intros c Hc. apply value_char_facts in Hc as (-> & _). reflexivity.
Qed.

Lemma process_line_render (l : ConfigLine) (c : BatteryConfig) :
  line_ok l = true ->
  process_line (render_line l) c = apply_line c l.
Proof.
  intros Hok. unfold process_line. destruct l as [key value|text|].
  - pose proof (sscanf_assign key value Hok) as Hscan.
    destruct key as [|k0 key]; [discriminate|].
    destruct value as [|v0 value]; [discriminate|].
    cbn [line_ok] in Hok.
    apply andb_true_iff in Hok as [Hok _].
    apply andb_true_iff in Hok as [Hok _].
    apply andb_true_iff in Hok as [Hok Hv].
    apply andb_true_iff in Hok as [Hhash Hk].
    apply negb_true_iff in Hhash.
    assert (Hline : forallb (fun c => negb (Ascii.eqb c NUL) && negb (Ascii.eqb c LF))
                      ((k0 :: key) ++ "="%char :: v0 :: value) = true).
    { rewrite forallb_app. apply andb_true_iff. split.
      - apply (forallb_weaken key_char); [|exact Hk].
        intros x Hx. apply key_char_facts in Hx as (_ & -> & ->). reflexivity.
      - assert (Hvv : forallb (fun c => negb (Ascii.eqb c NUL) && negb (Ascii.eqb c LF))
                        (v0 :: value) = true).
        { apply (forallb_weaken value_char); [|exact Hv].
          intros x Hx. apply value_char_facts in Hx as (_ & -> & ->). reflexivity. }
        cbn [forallb] in Hvv |- *. apply andb_true_iff.
        split; [reflexivity | exact Hvv]. }
    unfold render_line.
    replace ((k0 :: key) ++ "="%char :: (v0 :: value) ++ [LF])
      with (((k0 :: key) ++ "="%char :: v0 :: value) ++ [LF])
      by (rewrite <- app_assoc; reflexivity).
    rewrite cstr_line, strip_newline_line.
    + cbn [app]. rewrite Hhash.
      change (k0 :: key ++ "="%char :: v0 :: value)
        with ((k0 :: key) ++ "="%char :: v0 :: value).
      rewrite Hscan. reflexivity.
    + apply (forallb_weaken _ _ _ (fun x Hx => proj2 (proj1 (andb_true_iff _ _) Hx)) Hline).
    + apply (forallb_weaken _ _ _ (fun x Hx => proj1 (proj1 (andb_true_iff _ _) Hx)) Hline).
  - cbn [render_line cstr strip_newline Ascii.eqb Bool.eqb NUL LF ascii_of_nat
         ascii_of_pos ascii_of_N Ascii.zero Ascii.one shift Pos.of_succ_nat
         Pos.succ andb].
    reflexivity.
  - reflexivity.
Qed.

Lemma render_line_shape (l : ConfigLine) :
  line_ok l = true ->
  exists line,
    render_line l = line ++ [LF] /\
    forallb (fun c => negb (Ascii.eqb c LF)) line = true /\
    (List.length line <= 510)%nat.
Proof.
  intros Hok. destruct l as [key value|text|].
  - destruct key as [|k0 key]; [discriminate|].
    destruct value as [|v0 value]; [discriminate|].
    cbn [line_ok] in Hok.
    apply andb_true_iff in Hok as [Hok Hvl].
    apply andb_true_iff in Hok as [Hok Hkl].
    apply andb_true_iff in Hok as [Hok Hv].
    apply andb_true_iff in Hok as [_ Hk].
    apply Nat.leb_le in Hkl. apply Nat.leb_le in Hvl.
    exists ((k0 :: key) ++ "="%char :: v0 :: value). split; [|split].
    + unfold render_line. rewrite <- app_assoc. reflexivity.
    + rewrite forallb_app. apply andb_true_iff. split.
      * apply (forallb_weaken key_char); [|exact Hk].
        intros x Hx. apply key_char_facts in Hx as (_ & _ & ->). reflexivity.
      * assert (Hvv : forallb (fun c => negb (Ascii.eqb c LF)) (v0 :: value) = true).
        { apply (forallb_weaken value_char); [|exact Hv].
          intros x Hx. apply value_char_facts in Hx as (_ & _ & ->). reflexivity. }
        cbn [forallb] in Hvv |- *. exact Hvv.
    + rewrite length_app. cbn [List.length] in *. lia.
  - cbn [line_ok] in Hok. apply andb_true_iff in Hok as [Ht Hl].
    apply Nat.leb_le in Hl.
    exists ("#"%char :: text). split; [reflexivity | split].
    + cbn [forallb]. rewrite Ht. reflexivity.
    + cbn [List.length]. lia.
  - exists []. repeat split. simpl. lia.
Qed.

Lemma read_lines_render (lines : list ConfigLine) :
  forallb line_ok lines = true ->
  forall fuel c,
    (List.length lines <= fuel)%nat ->
    read_lines fuel (render lines) c = fold_left apply_line lines c.
Proof.
  induction lines as [|l lines IH]; intros Hok fuel c Hfuel.
  - destruct fuel; reflexivity.
  - cbn [forallb] in Hok. apply andb_true_iff in Hok as [Hl Hok].
    destruct fuel as [|fuel]; [simpl in Hfuel; lia|].
    destruct (render_line_shape l Hl) as (line & Hline & Hnl & Hlen).
    cbn [read_lines fold_left]. unfold render. cbn [flat_map].
    rewrite Hline, <- app_assoc. cbn [app].
    rewrite (fgets_line line _ Hnl Hlen).
    rewrite <- Hline, (process_line_render l c Hl).
    apply IH; [exact Hok | simpl in Hfuel; lia].
Qed.

Lemma render_length (lines : list ConfigLine) :
  (List.length lines <= List.length (render lines))%nat.
Proof.
  induction lines as [|l lines IH]; [simpl; lia|].
  unfold render in *. cbn [flat_map]. rewrite length_app. cbn [List.length].
  assert (1 <= List.length (render_line l))%nat.
  { destruct l; cbn [render_line]; rewrite ?length_app; cbn [List.length];
      rewrite ?length_app; cbn [List.length]; lia. }
  lia.
Qed.

Lemma load_config_render (lines : list ConfigLine) (c : BatteryConfig) :
  forallb line_ok lines = true ->
  load_config (Some (render lines)) c = fold_left apply_line lines c.
Proof.
  intros Hok. unfold load_config.
  apply read_lines_render; [exact Hok | apply render_length].
Qed.

Lemma field_set_option (f : Field) (key value : list ascii) (c : BatteryConfig) :
  field f (set_option key value c)
  = if streq key (key_of f) then stored_value f value else field f c.
Proof.
  unfold set_option.
  repeat match goal with
         | |- context [if streq key (str ?s) then _ else _] =>
             let E := fresh "E" in
             destruct (streq key (str s)) eqn:E;
             [apply streq_eq in E; subst key; destruct f; reflexivity|]
         end.
  destruct f; cbn [key_of field];
    match goal with E : streq key ?k = false |- context [streq key ?k] => rewrite E end;
    reflexivity.
Qed.

Lemma field_fold (f : Field) (lines : list ConfigLine) :
  forall c,
    field f (fold_left apply_line lines c)
    = match last_value (key_of f) lines with
      | Some text => stored_value f text
      | None => field f c
      end.
Proof.
  induction lines as [|l lines IH]; intros c; [reflexivity|].
  cbn [fold_left last_value]. rewrite IH.
  destruct (last_value (key_of f) lines); [reflexivity|].
  destruct l as [key value|text|]; cbn [apply_line]; try reflexivity.
  rewrite field_set_option. destruct (streq key (key_of f)); reflexivity.
Qed.

(** Files as [save_config] lays them out, one assignment, comment or blank
    line after the other, each closed by a newline: every field ends up with
    the value of the last assignment to its key, and a field without
    assignment is left alone. *)
Lemma load_config_rendered_fields :
  forall lines c f,
    forallb line_ok lines = true ->
    load_config None c = c /\
    (forall bytes fuel,
        (List.length bytes <= fuel)%nat ->
        read_lines fuel bytes c = load_config (Some bytes) c) /\
    field f (load_config (Some (render lines)) c)
    = match last_value (key_of f) lines with
      | Some text => stored_value f text
      | None => field f c
      end.
Proof.
  intros lines c f Hok. split; [reflexivity | split].
  - intros bytes fuel Hfuel. unfold load_config.
    apply read_lines_fuel; [exact Hfuel | apply Nat.le_refl].
  - rewrite (load_config_render lines c Hok). apply field_fold.
Qed.

Lemma load_config_rendered_witness :
  field FCriticalLevel
    (load_config
       (Some (render [Comment (str " thresholds");
                      Assign (str "warning_level") (str "25");
                      Blank;
                      Assign (str "icon_low") (str "battery-empty")]))
       (init_default_config None))
  = IntValue 10.
Proof.
  assert (Hok : forallb line_ok
                  [Comment (str " thresholds");
                   Assign (str "warning_level") (str "25");
                   Blank;
                   Assign (str "icon_low") (str "battery-empty")] = true)
    by (vm_compute; reflexivity).
  exact (proj2 (proj2 (load_config_rendered_fields _ (init_default_config None)
                         FCriticalLevel Hok))).
Defined.

(** C8 as stated fails for out-of-range and malformed numbers: the loader
    stores [atoi] of whatever the file says.  A warning level of 500 is kept
    although the documented range ends at 100, and a critical level that is
    not a number becomes 0; neither falls back to its default. *)
Lemma out_of_range_value_is_stored :
  let file := str "warning_level=500" ++ [LF] ++ str "critical_level=low" ++ [LF] in
  let c := startup_config None (Some file) in
  warning_level (init_default_config None) = 20 /\
  critical_level (init_default_config None) = 10 /\
  warning_level c = 500 /\
  ~ level_in_range (warning_level c) /\
  critical_level c = 0 /\
  ~ level_in_range (critical_level c).
Proof.
  vm_compute. repeat split; try reflexivity; intros [H1 H2]; apply H2 + apply H1;
    reflexivity.
Qed.

(** * Further properties of the code *)

(** ** The callback as a whole *)

(** Splits on the branch the callback takes and rewrites its run. *)
Ltac by_branch config system st now fc g :=
  let Hp := fresh "Hp" in let Hc := fresh "Hc" in let Hl := fresh "Hl" in
  let Hw := fresh "Hw" in let Hd := fresh "Hd" in let Hb := fresh "Hb" in
  destruct (Z.eq_dec (present st) 0) as [Hp|Hp];
  [ rewrite ?(absent_run config system st now fc g Hp)
  | destruct (Z.eq_dec (charging st) 0) as [Hc|Hc];
    [ destruct (Z_le_gt_dec (percentage st) (critical_level config)) as [Hl|Hl];
      [ destruct (Z_le_gt_dec (now - last_alert_time g) 30) as [Hd|Hd];
        [ rewrite ?(critical_idle_run config system st now fc g Hp Hc Hl Hd)
        | rewrite ?(critical_due_run config system st now fc g Hp Hc Hl Hd) ]
      | destruct (Z_le_gt_dec (percentage st) (warning_level config)) as [Hw|Hw];
        [ assert (Hb : critical_level config < percentage st <= warning_level config)
            by lia;
          destruct (Z_le_gt_dec (now - last_alert_time g) 120) as [Hd|Hd];
          [ rewrite ?(warning_idle_run config system st now fc g Hp Hc Hb Hd)
          | rewrite ?(warning_due_run config system st now fc g Hp Hc Hb Hd) ]
        | rewrite ?(normal_run config system st now fc g Hp Hc
                      (Z.gt_lt _ _ Hl) (Z.gt_lt _ _ Hw)) ] ]
    | rewrite ?(charging_run config system st now fc g Hp Hc) ] ].

Lemma grace_trace_suspend config system fc :
  emits is_suspend (grace_trace config system fc)
  = truthy (force_suspend config) && still_critical config fc.
Proof.
  unfold grace_trace.
  destruct (suspend_trace_emits config system) as (Hs & _).
  destruct (truthy (force_suspend config)), (still_critical config fc);
    simpl; try reflexivity. exact Hs.
Qed.

(** X1: the callback calls [force_system_suspend] in exactly one situation:
    a present, non-charging reading at or below [critical_level], more than
    30 seconds after the last alert, with [force_suspend] set, and a second
    reading that is still at or below [critical_level] and not charging.
    Commands are run only as part of such a suspend. *)
Theorem suspend_only_after_grace_recheck :
  forall config system st now fc g,
    let t := trace_of (check_battery_timer config system st now fc g) in
    (emits is_suspend t = true
     <-> present st <> 0 /\ charging st = 0 /\
         percentage st <= critical_level config /\
         now - last_alert_time g > 30 /\
         force_suspend config <> 0 /\
         percentage fc <= critical_level config /\ charging fc = 0) /\
    (emits is_system_call t = true -> emits is_suspend t = true).
Proof.
  intros config system st now fc g t. subst t.
  by_branch config system st now fc g; unfold trace_of, snd.
  all: try (split;
            [ split;
              [ intros H; exfalso; revert H; trace_cases config g; discriminate
              | intros (? & ? & ? & ? & _); exfalso; lia ]
            | trace_cases config g; discriminate ]).
  split.
  - assert (E : emits is_suspend
                  (display_trace config st g
                   ++ Act (Notify UrgCritical (CriticalBattery (percentage st)))
                      :: alert_trace config (CriticalBattery (percentage st)) g
                   ++ grace_trace config system fc)
                = truthy (force_suspend config) && still_critical config fc).
    { rewrite <- (grace_trace_suspend config system fc).
      unfold emits. rewrite existsb_app. cbn [existsb is_suspend orb].
      rewrite existsb_app.
      unfold alert_trace, display_trace, dismiss_trace.
      destruct (tray_icon g), (alert_dialog g), (truthy (impossible_alerts config));
        reflexivity. }
    rewrite E, andb_true_iff, still_critical_iff. split.
    + intros [Hf Hsc]. repeat split; try assumption; try tauto.
      intros H0. rewrite (truthy_false _ H0) in Hf. discriminate.
    + intros (_ & _ & _ & _ & Hf & Hsc). split; [apply truthy_true; exact Hf | exact Hsc].
  - unfold emits. rewrite !existsb_app. cbn [existsb is_suspend is_system_call orb].
    rewrite !existsb_app.
    unfold grace_trace.
    destruct (suspend_trace_emits config system) as (Hs & _).
    destruct (truthy (force_suspend config)), (still_critical config fc);
      unfold alert_trace, display_trace, dismiss_trace;
      destruct (tray_icon g), (alert_dialog g), (truthy (impossible_alerts config));
      simpl; try discriminate; intros _; unfold emits in Hs; rewrite Hs;
      rewrite ?orb_true_r; reflexivity.
Qed.

Lemma suspend_trace_notifies config system :
  emits is_notify (suspend_trace config system) = true.
Proof.
  destruct (suspend_trace_head config system) as (calls & _ & ->). reflexivity.
Qed.

Lemma notify_step config system st now fc g :
  let r := check_battery_timer config system st now fc g in
  (emits is_notify (trace_of r) = true ->
     last_alert_time (state_of r) = now /\
     now - last_alert_time g > 30 /\
     present st <> 0 /\ charging st = 0 /\
     (percentage st <= critical_level config \/
      percentage st <= warning_level config)) /\
  (emits is_notify (trace_of r) = false ->
     last_alert_time (state_of r) = last_alert_time g) /\
  (emits is_impossible_alert (trace_of r) = true ->
     emits is_notify (trace_of r) = true).
Proof.
  intros r. subst r.
  by_branch config system st now fc g; unfold trace_of, state_of, snd, fst.
  all: split; [|split].
  all: try (intros H; exfalso; revert H; trace_cases config g; discriminate).
  all: try reflexivity.
  all: try (intros _; cbn [alerted last_alert_time];
            repeat split; try assumption; try lia; tauto).
  all: try (intros H; exfalso; revert H;
            unfold emits; rewrite !existsb_app; cbn [existsb is_notify orb];
            rewrite !orb_true_r; discriminate).
  all: intros _; unfold emits; rewrite !existsb_app; cbn [existsb is_notify orb];
    rewrite !orb_true_r; reflexivity.
Qed.

(** X2: a notification is posted exactly when [last_alert_time] is set to
    the current clock value.  An invocation that posts one ran more than 30
    seconds after the previous alert on a present, non-charging reading at or
    below one of the two thresholds; an invocation that posts none leaves
    [last_alert_time] as it was.  The modal alert never comes without the
    notification. *)
Theorem notification_sets_alert_time :
  forall config system st now fc g,
    let r := check_battery_timer config system st now fc g in
    (emits is_notify (trace_of r) = true ->
       last_alert_time (state_of r) = now /\
       now - last_alert_time g > 30 /\
       present st <> 0 /\ charging st = 0 /\
       (percentage st <= critical_level config \/
        percentage st <= warning_level config)) /\
    (emits is_notify (trace_of r) = false ->
       last_alert_time (state_of r) = last_alert_time g) /\
    (emits is_impossible_alert (trace_of r) = true ->
       emits is_notify (trace_of r) = true).
Proof.
  intros config system st now fc g. apply notify_step.
Qed.

(** X3: a present, non-charging reading above both thresholds clears
    [alert_active], destroys an alert dialog that is still open, records the
    reading, keeps [last_alert_time] and posts nothing. *)
Theorem normal_band_clears_alert :
  forall config system st now fc g,
    present st <> 0 -> charging st = 0 ->
    critical_level config < percentage st ->
    warning_level config < percentage st ->
    let r := check_battery_timer config system st now fc g in
    alert_active (state_of r) = 0 /\
    alert_dialog (state_of r) = false /\
    (alert_dialog g = true -> In (Act DismissAlert) (trace_of r)) /\
    last_percentage (state_of r) = percentage st /\
    last_charging_state (state_of r) = 0 /\
    last_alert_time (state_of r) = last_alert_time g /\
    quiet (trace_of r).
Proof.
  intros config system st now fc g Hp Hc Hl Hw r. subst r.
  rewrite (normal_run config system st now fc g Hp Hc Hl Hw).
  unfold state_of, trace_of, cleared, quiet; simpl.
  repeat split; try assumption.
  1: intros H; unfold dismiss_trace; rewrite H; apply in_or_app; right; left;
     reflexivity.
  all: trace_cases config g; reflexivity.
Qed.

Lemma normal_band_witness :
  let r := check_battery_timer default_config always_succeeds
             (reading 80 0) 1000 (reading 80 0)
             (alerted default_config (reading 15 0) 900 initial_globals) in
  alert_active (state_of r) = 0 /\ quiet (trace_of r).
Proof.
  assert (Hp : present (reading 80 0) <> 0) by (simpl; lia).
  assert (Hc : charging (reading 80 0) = 0) by reflexivity.
  assert (Hl : critical_level default_config < percentage (reading 80 0))
    by (simpl; lia).
  assert (Hw : warning_level default_config < percentage (reading 80 0))
    by (simpl; lia).
  destruct (normal_band_clears_alert default_config always_succeeds
              (reading 80 0) 1000 (reading 80 0)
              (alerted default_config (reading 15 0) 900 initial_globals)
              Hp Hc Hl Hw) as (Ha & _ & _ & _ & _ & _ & Hq).
  split; [exact Ha | exact Hq].
Defined.

(** X4: with the tray icon in place every invocation begins by refreshing
    it, with the band and percentage of the reading it was given, and
    refreshes it only once; the statics never lose the icon. *)
Theorem tray_icon_refreshed_once :
  forall config system st now fc g,
    tray_icon g = true ->
    let r := check_battery_timer config system st now fc g in
    tray_icon (state_of r) = true /\
    exists rest,
      trace_of r = Act (UpdateDisplay (band_of config st) (percentage st)) :: rest /\
      emits is_display rest = false.
Proof.
  intros config system st now fc g Hti r. subst r.
  by_branch config system st now fc g;
    unfold trace_of, state_of, snd, fst, display_trace; rewrite Hti;
    (split; [cbn [alerted recorded cleared tray_icon]; first [exact Hti | reflexivity]|]);
    cbn [app]; eexists; (split; [reflexivity|]).
  all: try reflexivity.
  all: try (unfold dismiss_trace; destruct (alert_dialog g); reflexivity).
  all: unfold alert_trace, dismiss_trace, grace_trace;
    destruct (suspend_trace_head config system) as (calls & Hcalls & Hst);
    rewrite ?Hst;
    assert (Hnd : emits is_display calls = false)
      by (apply emits_calls; [reflexivity | exact Hcalls]);
    unfold emits in *;
    destruct (alert_dialog g), (truthy (impossible_alerts config)),
      (truthy (force_suspend config)), (still_critical config fc);
    cbn [app existsb is_display orb]; rewrite ?Hnd; reflexivity.
Qed.

Lemma tray_icon_refreshed_witness :
  exists rest,
    trace_of (check_battery_timer default_config always_succeeds
                (reading 15 0) 1000 (reading 15 0) initial_globals)
    = Act (UpdateDisplay Warning 15) :: rest /\
    emits is_display rest = false.
Proof.
  assert (Hti : tray_icon initial_globals = true) by reflexivity.
  exact (proj2 (tray_icon_refreshed_once default_config always_succeeds
                  (reading 15 0) 1000 (reading 15 0) initial_globals Hti)).
Defined.

(** X5: when [warning_level] is not above [critical_level] the warning band
    is empty: no reading is shown as [Warning] and the low-battery
    notification is never posted; every non-charging reading at or below
    [warning_level] is handled as critical. *)
Theorem inverted_thresholds_have_no_warning_band :
  forall config system st now fc g,
    warning_level config <= critical_level config ->
    band_of config st <> Warning /\
    (forall u pct crit,
        ~ In (Act (Notify u (LowBattery pct crit)))
             (trace_of (check_battery_timer config system st now fc g))) /\
    (present st <> 0 -> charging st = 0 ->
     percentage st <= warning_level config ->
     band_of config st = Critical).
Proof.
  intros config system st now fc g Hinv. split; [|split].
  - unfold band_of.
    destruct (negb (truthy (present st))); [discriminate|].
    destruct (truthy (charging st)); [discriminate|].
    destruct (Z.leb_spec (percentage st) (critical_level config)); [discriminate|].
    destruct (Z.leb_spec (percentage st) (warning_level config)); [lia | discriminate].
  - intros u pct crit.
    by_branch config system st now fc g; unfold trace_of, snd; try lia.
    all: try (trace_cases config g; intros H; simpl in H;
              repeat (destruct H as [H|H]; try discriminate); exact H).
    destruct (suspend_trace_head config system) as (calls & Hcalls & Hst).
    unfold grace_trace. rewrite Hst.
    assert (Hnc : forall e, In e calls -> is_system_call e = true)
      by (apply forallb_forall; exact Hcalls).
    intros H. apply in_app_or in H as [H|H].
    + unfold display_trace in H. destruct (tray_icon g); simpl in H;
        repeat (destruct H as [H|H]; try discriminate); exact H.
    + destruct H as [H|H]; [discriminate|].
      apply in_app_or in H as [H|H].
      * unfold alert_trace, dismiss_trace in H.
        destruct (truthy (impossible_alerts config)), (alert_dialog g);
          simpl in H; repeat (destruct H as [H|H]; try discriminate); exact H.
      * destruct (truthy (force_suspend config)); [|destruct H].
        destruct H as [H|[H|H]]; try discriminate.
        destruct (still_critical config fc); [|destruct H].
        destruct H as [H|[H|H]]; try discriminate.
        apply Hnc in H. discriminate.
  - intros Hp Hc Hw. apply band_of_critical; try assumption. lia.
Qed.

Lemma inverted_thresholds_witness :
  band_of (set_warning_level 5 default_config) (reading 4 0) = Critical.
Proof.
  assert (Hinv : warning_level (set_warning_level 5 default_config)
                 <= critical_level (set_warning_level 5 default_config))
    by (simpl; lia).
  destruct (inverted_thresholds_have_no_warning_band
              (set_warning_level 5 default_config) always_succeeds
              (reading 4 0) 1000 (reading 4 0) initial_globals Hinv)
    as (_ & _ & H).
  apply H; simpl; lia.
Defined.

(** X6: the callback never leaves an alert dialog behind.  A dialog is only
    destroyed when one was open on entry, and is then gone; with none open on
    entry none is open on return.  [alert_active] is 1 after every
    invocation that ran the modal alert, and otherwise keeps its value or
    becomes 0. *)
Theorem alert_dialog_never_left_open :
  forall config system st now fc g,
    let r := check_battery_timer config system st now fc g in
    (alert_dialog g = false ->
       alert_dialog (state_of r) = false /\ emits is_dismiss (trace_of r) = false) /\
    (emits is_dismiss (trace_of r) = true ->
       alert_dialog g = true /\ alert_dialog (state_of r) = false) /\
    (emits is_impossible_alert (trace_of r) = true -> alert_active (state_of r) = 1) /\
    (emits is_impossible_alert (trace_of r) = false ->
       alert_active (state_of r) = alert_active g \/ alert_active (state_of r) = 0).
Proof.
  intros config system st now fc g r. subst r.
  destruct (suspend_trace_head config system) as (calls & Hcalls & Hst).
  assert (Hd : emits is_dismiss calls = false)
    by (apply emits_calls; [reflexivity | exact Hcalls]).
  assert (Ha : emits is_impossible_alert calls = false)
    by (apply emits_calls; [reflexivity | exact Hcalls]).
  by_branch config system st now fc g;
    unfold trace_of, state_of, snd, fst, grace_trace; rewrite ?Hst;
    cbn [alerted recorded cleared alert_dialog alert_active];
    unfold emits, alert_trace, display_trace, dismiss_trace in *;
    destruct (tray_icon g), (alert_dialog g) eqn:Had,
      (truthy (impossible_alerts config)),
      (truthy (force_suspend config)), (still_critical config fc);
    cbn [app existsb is_dismiss is_impossible_alert orb]; rewrite ?Hd, ?Ha;
    repeat split; intros; try discriminate; try reflexivity; auto.
Qed.

(** X7: [impossible_alerts] gates the modal alert and nothing else.  Two
    configurations that differ only in this field give traces that are equal
    once modal alerts and dialog dismissals are left out, and the same
    [last_alert_time] and recorded reading; with the field at 0 no modal
    alert is run and [alert_active] is never raised. *)
Theorem impossible_alerts_gate_only_the_dialog :
  forall config system st now fc g v,
    let keep := fun e => negb (is_impossible_alert e || is_dismiss e) in
    let r := check_battery_timer config system st now fc g in
    let r' := check_battery_timer (set_impossible_alerts v config) system st now fc g in
    filter keep (trace_of r) = filter keep (trace_of r') /\
    last_alert_time (state_of r) = last_alert_time (state_of r') /\
    last_percentage (state_of r) = last_percentage (state_of r') /\
    last_charging_state (state_of r) = last_charging_state (state_of r') /\
    (impossible_alerts config = 0 ->
       emits is_impossible_alert (trace_of r) = false /\
       (alert_active (state_of r) = alert_active g \/ alert_active (state_of r) = 0)).
Proof.
  intros config system st now fc g v keep r r'. subst r r'.
  assert (Hst' : suspend_trace (set_impossible_alerts v config) system
                 = suspend_trace config system) by reflexivity.
  destruct (suspend_trace_head config system) as (calls & Hcalls & Hst).
  assert (Ha : emits is_impossible_alert calls = false)
    by (apply emits_calls; [reflexivity | exact Hcalls]).
  assert (Hband : band_of (set_impossible_alerts v config) st = band_of config st)
    by reflexivity.
  assert (Hsc : still_critical (set_impossible_alerts v config) fc
                = still_critical config fc) by reflexivity.
  assert (Hkeep : forall l, forallb is_system_call l = true -> filter keep l = l).
  { induction l as [|e l IH]; [reflexivity|]. cbn [forallb filter].
    intros H. apply andb_true_iff in H as [He Hl].
    destruct e; [discriminate|]. cbn. rewrite (IH Hl). reflexivity. }
  by_branch config system st now fc g;
    first
      [ rewrite (absent_run (set_impossible_alerts v config) system st now fc g)
          by assumption
      | rewrite (charging_run (set_impossible_alerts v config) system st now fc g)
          by assumption
      | rewrite (critical_idle_run (set_impossible_alerts v config) system st now fc g)
          by assumption
      | rewrite (critical_due_run (set_impossible_alerts v config) system st now fc g)
          by assumption
      | rewrite (warning_idle_run (set_impossible_alerts v config) system st now fc g)
          by assumption
      | rewrite (warning_due_run (set_impossible_alerts v config) system st now fc g)
          by assumption
      | rewrite (normal_run (set_impossible_alerts v config) system st now fc g)
          by first [assumption | cbn [set_impossible_alerts critical_level warning_level]; lia] ];
    unfold trace_of, state_of, snd, fst, grace_trace, display_trace;
    rewrite ?Hband, ?Hsc, ?Hst', ?Hst;
    cbn [alerted recorded cleared last_alert_time last_percentage
         last_charging_state alert_active set_impossible_alerts
         force_suspend critical_level impossible_alerts];
    unfold emits, alert_trace, dismiss_trace in *;
    cbn [set_impossible_alerts impossible_alerts].
  all: repeat split; try reflexivity.
  all: try match goal with
           | H0 : impossible_alerts _ = 0 |- _ => rewrite ?(truthy_false _ H0)
           end.
  all: try (destruct (tray_icon g), (alert_dialog g),
              (truthy (impossible_alerts config)), (truthy v),
              (truthy (force_suspend config)), (still_critical config fc);
            cbn [app filter keep existsb is_impossible_alert is_dismiss orb negb];
            rewrite ?Hkeep, ?Ha by assumption; auto; reflexivity).
Qed.

Lemma impossible_alerts_gate_witness :
  emits is_impossible_alert
    (trace_of (check_battery_timer (set_impossible_alerts 0 default_config)
                 always_succeeds (reading 9 0) 1000 (reading 9 0)
                 initial_globals)) = false.
Proof.
  assert (H0 : impossible_alerts (set_impossible_alerts 0 default_config) = 0)
    by reflexivity.
  destruct (impossible_alerts_gate_only_the_dialog
              (set_impossible_alerts 0 default_config) always_succeeds
              (reading 9 0) 1000 (reading 9 0) initial_globals 1)
    as (_ & _ & _ & _ & H).
  exact (proj1 (H H0)).
Defined.

(** X8: the statics start with [last_alert_time = 0], so once the clock is
    past 120 the very first invocation on a present, non-charging reading at
    or below either threshold posts its notification at once, and sets
    [last_alert_time] to the clock. *)
Theorem first_poll_alerts_immediately :
  forall config system st now fc,
    present st <> 0 -> charging st = 0 ->
    percentage st <= critical_level config \/
    percentage st <= warning_level config ->
    now > 120 ->
    let r := check_battery_timer config system st now fc initial_globals in
    emits is_notify (trace_of r) = true /\
    last_alert_time (state_of r) = now.
Proof.
  intros config system st now fc Hp Hc Hlow Hnow r.
  assert (Hn : emits is_notify (trace_of r) = true).
  { subst r.
    destruct (Z_le_gt_dec (percentage st) (critical_level config)) as [Hl|Hl].
    - rewrite (critical_due_run config system st now fc initial_globals Hp Hc Hl)
        by (simpl; lia).
      unfold trace_of, snd, emits. rewrite existsb_app.
      cbn [existsb is_notify orb]. apply orb_true_r.
    - assert (Hb : critical_level config < percentage st <= warning_level config)
        by lia.
      rewrite (warning_due_run config system st now fc initial_globals Hp Hc Hb)
        by (simpl; lia).
      unfold trace_of, snd, emits. rewrite existsb_app.
      cbn [existsb is_notify orb]. apply orb_true_r. }
  split; [exact Hn|].
  exact (proj1 (proj1 (notify_step config system st now fc initial_globals) Hn)).
Qed.

Lemma first_poll_witness :
  emits is_notify
    (trace_of (check_battery_timer default_config always_succeeds
                 (reading 18 0) 1700000000 (reading 18 0) initial_globals)) = true.
Proof.
  assert (Hp : present (reading 18 0) <> 0) by (simpl; lia).
  assert (Hc : charging (reading 18 0) = 0) by reflexivity.
  assert (Hlow : percentage (reading 18 0) <= critical_level default_config \/
                 percentage (reading 18 0) <= warning_level default_config)
    by (right; simpl; lia).
  assert (Hnow : 1700000000 > 120) by lia.
  exact (proj1 (first_poll_alerts_immediately default_config always_succeeds
                  (reading 18 0) 1700000000 (reading 18 0) Hp Hc Hlow Hnow)).
Defined.

(** ** The timer loop *)

Lemma timer_loop_first_alert config system (ticks : list Tick) :
  forall g,
    match alert_times ticks (fst (timer_loop config system ticks g)) with
    | [] => True
    | a :: _ => a - last_alert_time g > 30
    end.
Proof.
  induction ticks as [|t rest IH]; intros g; cbn [timer_loop]; [exact I|].
  set (r := check_battery_timer config system (tick_status t) (tick_time t)
              (tick_final t) g).
  specialize (IH (state_of r)).
  destruct (timer_loop config system rest (state_of r)) as [traces g'].
  cbn [fst alert_times] in *.
  destruct (notify_step config system (tick_status t) (tick_time t)
              (tick_final t) g) as (Hyes & Hno & _).
  fold r in Hyes, Hno.
  destruct (emits is_notify (trace_of r)) eqn:E.
  - apply Hyes. reflexivity.
  - rewrite (Hno eq_refl) in IH. exact IH.
Qed.

Lemma no_dialog_without_alerts config system st now fc g :
  impossible_alerts config = 0 ->
  emits is_impossible_alert
    (trace_of (check_battery_timer config system st now fc g)) = false.
Proof.
  intros H0. apply truthy_false in H0.
  destruct (suspend_trace_head config system) as (calls & Hcalls & Hst).
  assert (Ha : emits is_impossible_alert calls = false)
    by (apply emits_calls; [reflexivity | exact Hcalls]).
  by_branch config system st now fc g;
    unfold trace_of, snd, grace_trace; rewrite ?Hst;
    unfold emits, alert_trace, display_trace, dismiss_trace in *; rewrite ?H0;
    destruct (tray_icon g), (alert_dialog g),
      (truthy (force_suspend config)), (still_critical config fc);
    cbn [app existsb is_impossible_alert orb]; rewrite ?Ha; reflexivity.
Qed.

(** X9: with [impossible_alerts = 0] the callback never runs the modal
    dialog, so its invocations run one after the other.  Then, however the
    readings and the clock go, the [current_time] values of two consecutive
    invocations that post a notification differ by more than 30: each guard
    compares with the [current_time] stored by the last invocation that
    notified. *)
Theorem timer_loop_alerts_are_spaced :
  forall config system ticks g,
    impossible_alerts config = 0 ->
    Forall (fun tr => emits is_impossible_alert tr = false)
      (fst (timer_loop config system ticks g)) /\
    spaced 30 (alert_times ticks (fst (timer_loop config system ticks g))).
Proof.
  intros config system ticks g H0. revert g.
  induction ticks as [|t rest IH]; intros g; cbn [timer_loop];
    [split; [constructor | exact I]|].
  set (r := check_battery_timer config system (tick_status t) (tick_time t)
              (tick_final t) g).
  specialize (IH (state_of r)).
  pose proof (timer_loop_first_alert config system rest (state_of r)) as Hfirst.
  destruct (timer_loop config system rest (state_of r)) as [traces g'].
  cbn [fst alert_times] in *. destruct IH as [IHd IHs].
  split; [constructor; [apply no_dialog_without_alerts; exact H0 | exact IHd]|].
  destruct (notify_step config system (tick_status t) (tick_time t)
              (tick_final t) g) as (Hyes & _ & _).
  fold r in Hyes.
  destruct (emits is_notify (trace_of r)) eqn:E; [|exact IHs].
  destruct (Hyes eq_refl) as (Hlast & _).
  destruct (alert_times rest traces) as [|b more]; [exact I|].
  cbn [spaced]. split; [rewrite Hlast in Hfirst; exact Hfirst | exact IHs].
Qed.

Lemma timer_loop_witness :
  let ticks := [mkTick (reading 9 0) 1000 (reading 9 1);
                mkTick (reading 9 0) 1030 (reading 9 1);
                mkTick (reading 9 0) 1060 (reading 9 1)] in
  let traces := fst (timer_loop (set_impossible_alerts 0 default_config)
                       always_succeeds ticks initial_globals) in
  spaced 30 (alert_times ticks traces) /\
  alert_times ticks traces = [1000; 1060].
Proof.
  intros ticks traces.
  assert (H0 : impossible_alerts (set_impossible_alerts 0 default_config) = 0)
    by reflexivity.
  split; [|reflexivity].
  exact (proj2 (timer_loop_alerts_are_spaced
                  (set_impossible_alerts 0 default_config) always_succeeds
                  ticks initial_globals H0)).
Defined.

(** ** The commands of the executor *)

Lemma attempt_in_order_shape system (ms : list SuspendMethod) :
  forall pre m e post,
    attempt_in_order system ms = pre ++ (m, e) :: post ->
    e = system m /\ (e = 0 -> post = []).
Proof.
  induction ms as [|m0 ms IH]; intros pre m e post H; cbn [attempt_in_order] in H.
  - destruct pre; discriminate.
  - destruct pre as [|p pre]; cbn [app] in H.
    + injection H as Hm He Hpost. subst m0. split; [symmetry; exact He|].
      intros H0. rewrite He in Hpost. apply Z.eqb_eq in H0. rewrite H0 in Hpost.
      symmetry. exact Hpost.
    + injection H as _ Hrest.
      destruct (system m0 =? 0); [destruct pre; discriminate|].
      exact (IH pre m e post Hrest).
Qed.

Lemma attempt_in_order_methods system (ms : list SuspendMethod) :
  exists k, map fst (attempt_in_order system ms) = firstn k ms.
Proof.
  induction ms as [|m ms (k & IH)]; [exists O; reflexivity|].
  cbn [attempt_in_order map fst]. destruct (system m =? 0).
  - exists 1%nat. reflexivity.
  - exists (S k). cbn [firstn]. rewrite IH. reflexivity.
Qed.

Lemma fallback_chain_distinct (p : SuspendMethod) :
  NoDup (fallback_chain p) /\ List.length (fallback_chain p) = 4%nat.
Proof.
  destruct p; cbv [fallback_chain remove suspend_commands SuspendMethod_eq_dec
                   SuspendMethod_rec SuspendMethod_rect];
    (split; [|reflexivity]);
    repeat constructor; simpl; intuition discriminate.
Qed.

Lemma NoDup_firstn {A} (k : nat) (l : list A) : NoDup l -> NoDup (firstn k l).
Proof.
  revert l. induction k as [|k IH]; intros l Hl; [constructor|].
  destruct l as [|x l]; [constructor|]. cbn [firstn].
  inversion Hl as [|x' l' Hx Hl']; subst. constructor; [|apply IH; exact Hl'].
  intros Hin. apply Hx. revert Hin. clear.
  revert l. induction k as [|k IH]; intros l Hin; [destruct Hin|].
  destruct l as [|y l]; [destruct Hin|]. destruct Hin as [->|Hin]; [left; reflexivity|].
  right. exact (IH l Hin).
Qed.

Lemma force_system_suspend_calls_outside config system g :
  ~ 0 <= suspend_method config < 4 ->
  calls_of (trace_of (force_system_suspend config system g)) = [].
Proof.
  intros Hr. unfold force_system_suspend, show_notification, trace_of.
  assert (E : (0 <=? suspend_method config) && (suspend_method config <? 4) = false).
  { apply andb_false_iff.
    destruct (Z_le_gt_dec 0 (suspend_method config)) as [H0|H0].
    - right. apply Z.ltb_ge. lia.
    - left. apply Z.leb_gt. lia. }
  rewrite E. reflexivity.
Qed.

(** X10: whatever the configuration and the exit statuses,
    [force_system_suspend] runs at most four commands and none of them
    twice; every recorded status is the one [system] returned for that
    command, and a command that returned 0 is the last one run. *)
Theorem suspend_commands_run_at_most_once :
  forall config system g,
    let calls := calls_of (trace_of (force_system_suspend config system g)) in
    NoDup (map fst calls) /\
    (List.length calls <= 4)%nat /\
    (forall pre m e post,
        calls = pre ++ (m, e) :: post -> e = system m /\ (e = 0 -> post = [])).
Proof.
  intros config system g calls. subst calls.
  destruct (Z_le_gt_dec 0 (suspend_method config)) as [H0|H0];
    [destruct (Z_lt_ge_dec (suspend_method config) 4) as [H4|H4]|].
  - rewrite (force_system_suspend_calls config system g (conj H0 H4)).
    set (p := nth (Z.to_nat (suspend_method config)) suspend_commands Systemd).
    destruct (fallback_chain_distinct p) as [Hnd Hlen].
    destruct (attempt_in_order_methods system (fallback_chain p)) as (k & Hk).
    split; [|split].
    + rewrite Hk. apply NoDup_firstn. exact Hnd.
    + rewrite <- (length_map fst), Hk, length_firstn. lia.
    + apply attempt_in_order_shape.
  - rewrite force_system_suspend_calls_outside by lia.
    split; [constructor | split; [simpl; lia|]].
    intros pre m e post H. destruct pre; discriminate.
  - rewrite force_system_suspend_calls_outside by lia.
    split; [constructor | split; [simpl; lia|]].
    intros pre m e post H. destruct pre; discriminate.
Qed.

(** X11: the test entry point runs the configured command once and nothing
    else, whether it succeeds or not; it touches no static, and with an index
    outside the table it runs nothing.  The command it runs is the one
    [force_system_suspend] tries first. *)
Theorem test_suspend_runs_configured_command_only :
  forall config system g,
    let r := test_suspend_callback config system g in
    let p := nth (Z.to_nat (suspend_method config)) suspend_commands Systemd in
    state_of r = g /\
    (0 <= suspend_method config < 4 ->
       trace_of r = [SystemCall p (system p)] /\
       exists rest,
         calls_of (trace_of (force_system_suspend config system g))
         = (p, system p) :: rest) /\
    (~ 0 <= suspend_method config < 4 -> trace_of r = []).
Proof.
  intros config system g r p. subst r. unfold test_suspend_callback.
  split; [|split].
  - destruct ((0 <=? suspend_method config) && (suspend_method config <? 4));
      reflexivity.
  - intros Hr.
    assert (E : (0 <=? suspend_method config) && (suspend_method config <? 4) = true).
    { apply andb_true_iff. split; [apply Z.leb_le | apply Z.ltb_lt]; lia. }
    rewrite E. split; [reflexivity|].
    rewrite (force_system_suspend_calls config system g Hr).
    fold p. unfold fallback_chain. cbn [attempt_in_order].
    eexists. reflexivity.
  - intros Hr.
    assert (E : (0 <=? suspend_method config) && (suspend_method config <? 4) = false).
    { apply andb_false_iff.
      destruct (Z_le_gt_dec 0 (suspend_method config)) as [H0|H0].
      - right. apply Z.ltb_ge. lia.
      - left. apply Z.leb_gt. lia. }
    rewrite E. reflexivity.
Qed.

Lemma test_suspend_witness :
  trace_of (test_suspend_callback (set_suspend_method 1 default_config)
              always_fails initial_globals)
  = [SystemCall PmUtils 1].
Proof.
  assert (Hr : 0 <= suspend_method (set_suspend_method 1 default_config) < 4)
    by (simpl; lia).
  destruct (test_suspend_runs_configured_command_only
              (set_suspend_method 1 default_config) always_fails initial_globals)
    as (_ & Hin & _).
  exact (proj1 (Hin Hr)).
Defined.

Lemma suspend_commands_witness :
  calls_of (trace_of (force_system_suspend default_config
                        (fun m => match m with PmUtils => 0 | _ => 1 end)
                        initial_globals))
  = [(Systemd, 1); (PmUtils, 0)].
Proof.
  set (system := fun m => match m with PmUtils => 0 | _ => 1 end).
  destruct (suspend_commands_run_at_most_once default_config system initial_globals)
    as (_ & _ & Hshape).
  assert (E : calls_of (trace_of (force_system_suspend default_config system
                                    initial_globals))
              = [(Systemd, 1)] ++ (PmUtils, 0) :: []) by reflexivity.
  destruct (Hshape _ _ _ _ E) as (_ & _). exact E.
Defined.

(** ** The sampler *)

Lemma fgets_bytes_length (room : nat) :
  forall input, (List.length (fst (fgets_bytes room input)) <= room)%nat.
Proof.
  induction room as [|room IH]; intros input; cbn [fgets_bytes].
  - simpl. lia.
  - destruct input as [|c rest]; [simpl; lia|].
    destruct (Ascii.eqb c LF); [simpl; lia|].
    specialize (IH rest). destruct (fgets_bytes room rest) as [got left].
    simpl in *. lia.
Qed.

Lemma cstr_length (buf : list ascii) :
  (List.length (cstr buf) <= List.length buf)%nat.
Proof.
  induction buf as [|c rest IH]; simpl; [lia|].
  destruct (Ascii.eqb c NUL); simpl; lia.
Qed.

Lemma strip_newline_length (s : list ascii) :
  (List.length (strip_newline s) <= List.length s)%nat.
Proof.
  induction s as [|c rest IH]; simpl; [lia|].
  destruct (Ascii.eqb c LF); simpl; lia.
Qed.

Lemma cstr_no_nul (buf : list ascii) :
  forallb (fun c => negb (Ascii.eqb c NUL)) (cstr buf) = true.
Proof.
  induction buf as [|c rest IH]; simpl; [reflexivity|].
  destruct (Ascii.eqb c NUL) eqn:E; simpl; [reflexivity|].
  rewrite E, IH. reflexivity.
Qed.

Lemma strip_newline_clean (s : list ascii) :
  forallb (fun c => negb (Ascii.eqb c NUL)) s = true ->
  forallb (fun c => negb (Ascii.eqb c NUL) && negb (Ascii.eqb c LF))
    (strip_newline s) = true.
Proof.
  induction s as [|c rest IH]; simpl; [reflexivity|].
  intros H. apply andb_true_iff in H as [Hc Hrest].
  destruct (Ascii.eqb c LF) eqn:E; simpl; [reflexivity|].
  rewrite Hc, E, (IH Hrest). reflexivity.
Qed.

Lemma read_battery_shape (b : PowerSupply) :
  let s := read_battery b in
  present s = 1 /\
  (charging s = 0 \/ charging s = 1) /\
  (charging s = 1 <-> status s = str "Charging") /\
  (List.length (status s) <= 31)%nat /\
  forallb (fun c => negb (Ascii.eqb c NUL) && negb (Ascii.eqb c LF)) (status s) = true /\
  time_remaining s = 0.
Proof.
  unfold read_battery. destruct (status_file b) as [bytes|];
    cbv zeta; cbn [percentage charging present status time_remaining].
  - set (line := match fgets 32 bytes with
                 | Some (buf, _) => strip_newline (cstr buf)
                 | None => []
                 end).
    split; [reflexivity|]. split; [destruct (streq line (str "Charging")); auto|].
    split; [|split; [|split; [|reflexivity]]].
    + destruct (streq line (str "Charging")) eqn:E.
      * apply streq_eq in E. split; [intros _; exact E | reflexivity].
      * split; [discriminate|]. intros H. apply streq_eq in H.
        rewrite H in E. discriminate.
    + subst line. destruct bytes as [|c bytes]; [simpl; lia|].
      rewrite fgets_nonempty.
      pose proof (fgets_bytes_length 31 (c :: bytes)) as Hlen.
      destruct (fgets_bytes 31 (c :: bytes)) as [buf rest]. cbn [fst] in Hlen.
      pose proof (strip_newline_length (cstr buf)).
      pose proof (cstr_length buf). lia.
    + subst line. destruct (fgets 32 bytes) as [[buf rest]|]; [|reflexivity].
      apply strip_newline_clean, cstr_no_nul.
  - repeat split; auto; try discriminate. simpl; lia.
Qed.

(** X12: what [get_battery_status] returns.  Either no battery was found
    and the result is the zero-initialised structure, or [present] is 1;
    [charging] is 0 or 1, and 1 exactly when the status line reads
    ["Charging"]; the status text has at most 31 characters, none of them a
    newline or NUL, so it fits its 32-byte buffer; [time_remaining] is never
    filled in. *)
Theorem get_battery_status_shape :
  forall hw,
    let s := get_battery_status hw in
    (present s = 0 /\ s = zero_status \/ present s = 1) /\
    (charging s = 0 \/ charging s = 1) /\
    (charging s = 1 <-> status s = str "Charging") /\
    (List.length (status s) <= 31)%nat /\
    forallb (fun c => negb (Ascii.eqb c NUL) && negb (Ascii.eqb c LF)) (status s) = true /\
    time_remaining s = 0.
Proof.
  intros hw s. subst s. unfold get_battery_status.
  generalize [BAT0 hw; BAT1 hw]. intros paths.
  induction paths as [|b rest IH]; cbn [probe].
  - split; [left; split; reflexivity|]. split; [left; reflexivity|].
    split; [split; discriminate|]. repeat split. simpl; lia.
  - destruct (present_file b) as [[p|]|]; try exact IH.
    destruct (truthy p); [|exact IH].
    destruct (read_battery_shape b) as (Hp & Hrest).
    split; [right; exact Hp | exact Hrest].
Qed.

(** X13: the first battery that reports presence wins.  When the [present]
    file of BAT0 reads a non-zero number the result is read from BAT0
    whatever BAT1 holds; when it cannot be opened, cannot be parsed or reads
    0, BAT0 is skipped and the result depends on BAT1 alone. *)
Theorem first_present_battery_wins :
  forall b0 b0' b1 b1',
    ((exists p, present_file b0 = Some (Some p) /\ p <> 0) ->
       get_battery_status (mkSysfs b0 b1) = read_battery b0 /\
       get_battery_status (mkSysfs b0 b1) = get_battery_status (mkSysfs b0 b1')) /\
    (present_file b0 = None \/ present_file b0 = Some None \/
     present_file b0 = Some (Some 0) ->
     present_file b0' = None \/ present_file b0' = Some None \/
     present_file b0' = Some (Some 0) ->
     get_battery_status (mkSysfs b0 b1) = get_battery_status (mkSysfs b0' b1)).
Proof.
  intros b0 b0' b1 b1'. unfold get_battery_status. cbn [BAT0 BAT1 probe]. split.
  - intros (p & Hp & Hnz). rewrite Hp, (truthy_true p Hnz). split; reflexivity.
  - intros [H|[H|H]] [H'|[H'|H']]; rewrite H, H'; reflexivity.
Qed.

Lemma first_present_battery_witness :
  get_battery_status (mkSysfs (discharging 42) unreadable)
  = get_battery_status (mkSysfs (discharging 42) (discharging 7)).
Proof.
  assert (H : exists p, present_file (discharging 42) = Some (Some p) /\ p <> 0)
    by (exists 1; split; [reflexivity | lia]).
  exact (proj2 (proj1 (first_present_battery_wins (discharging 42) unreadable
                         unreadable (discharging 7)) H)).
Defined.

(** X14: a battery that reports presence but whose capacity cannot be read
    counts as empty: the reading has percentage 0, and with a non-negative
    [critical_level], no charging status and the last alert more than 30
    seconds back the callback posts the critical notification for 0
    percent. *)
Theorem unreadable_capacity_reads_as_empty :
  forall config system b0 b1 now hw_later g p,
    present_file b0 = Some (Some p) -> p <> 0 ->
    capacity_file b0 = None \/ capacity_file b0 = Some None ->
    percentage (get_battery_status (mkSysfs b0 b1)) = 0 /\
    (charging (get_battery_status (mkSysfs b0 b1)) = 0 ->
     0 <= critical_level config ->
     now - last_alert_time g > 30 ->
     In (Act (Notify UrgCritical (CriticalBattery 0)))
        (trace_of (poll config system (mkSysfs b0 b1) now hw_later g))).
Proof.
  intros config system b0 b1 now hw_later g p Hp Hnz Hcap.
  assert (Hs : get_battery_status (mkSysfs b0 b1) = read_battery b0).
  { unfold get_battery_status. cbn [BAT0 BAT1 probe].
    rewrite Hp, (truthy_true p Hnz). reflexivity. }
  assert (Hpct : percentage (read_battery b0) = 0).
  { unfold read_battery.
    destruct Hcap as [-> | ->]; destruct (status_file b0); reflexivity. }
  rewrite Hs. split; [exact Hpct|].
  intros Hc Hcrit Hd. unfold poll. rewrite Hs.
  destruct (read_battery_shape b0) as (Hpres & _).
  rewrite (critical_due_run config system (read_battery b0) now _ g);
    [| rewrite Hpres; discriminate | exact Hc | rewrite Hpct; exact Hcrit | exact Hd].
  unfold trace_of, snd. rewrite Hpct.
  apply in_or_app. right. left. reflexivity.
Qed.

Lemma unreadable_capacity_witness :
  percentage (get_battery_status
                (mkSysfs (mkSupply (Some (Some 1)) None
                            (Some (str "Discharging" ++ [LF])))
                         unreadable)) = 0.
Proof.
  refine (proj1 (unreadable_capacity_reads_as_empty default_config always_fails
                   (mkSupply (Some (Some 1)) None (Some (str "Discharging" ++ [LF])))
                   unreadable 1000 (mkSysfs unreadable unreadable)
                   initial_globals 1 _ _ _)).
  - reflexivity.
  - discriminate.
  - left. reflexivity.
Defined.

(** ** Reading lines and numbers *)

Lemma fgets_bytes_spec (room : nat) :
  forall input,
    let buf := fst (fgets_bytes room input) in
    let rest := snd (fgets_bytes room input) in
    buf ++ rest = input /\
    (List.length buf <= room)%nat /\
    (forall pre c post, buf = pre ++ c :: post -> c = LF -> post = []) /\
    (rest = [] \/ List.length buf = room \/ exists pre, buf = pre ++ [LF]).
Proof.
  induction room as [|room IH]; intros input; cbn [fgets_bytes].
  - cbn [fst snd app List.length]. repeat split; auto.
    intros pre c post H. destruct pre; discriminate.
  - destruct input as [|c input].
    + cbn [fst snd app List.length]. repeat split; auto; try lia.
      intros pre c post H. destruct pre; discriminate.
    + destruct (Ascii.eqb_spec c LF) as [->|Hne].
      * cbn [fst snd app List.length]. repeat split; auto; try lia.
        -- intros pre c post H _. destruct pre as [|x pre].
           ++ injection H as _ H. symmetry. exact H.
           ++ injection H as _ H. destruct pre; discriminate.
        -- right. right. exists []. reflexivity.
      * specialize (IH input).
        destruct (fgets_bytes room input) as [got left].
        cbn [fst snd] in *. destruct IH as (Happ & Hlen & Hnl & Hend).
        cbn [app List.length]. rewrite Happ. repeat split; auto; try lia.
        -- intros pre x post H Hx. destruct pre as [|y pre].
           ++ injection H as H _. subst x. contradiction.
           ++ injection H as _ H. exact (Hnl pre x post H Hx).
        -- destruct Hend as [H|[H|(pre & H)]]; [left; exact H | right; left; lia |].
           right. right. exists (c :: pre). rewrite H. reflexivity.
Qed.

Lemma fgets_takes_one_line_parts (input buf rest : list ascii) :
  fgets 512 input = Some (buf, rest) -> buf ++ rest = input.
Proof.
  intros H. destruct input as [|c input]; [discriminate|].
  rewrite fgets_nonempty in H.
  pose proof (fgets_bytes_spec 511 (c :: input)) as Hs.
  replace (fgets_bytes 511 (c :: input)) with (buf, rest) in Hs by congruence.
  exact (proj1 Hs).
Qed.

(** X15: what one [fgets] takes from a file.  A successful call splits the
    unread bytes into the bytes stored and the bytes left, losing none; it
    stores at least one byte and at most [size - 1]; a newline can only be
    the last byte stored; and it stops short of the end of the file only
    after a newline or with the buffer full. *)
Theorem fgets_takes_one_line :
  forall size input buf rest,
    fgets size input = Some (buf, rest) ->
    buf ++ rest = input /\
    (List.length buf <= size - 1)%nat /\
    ((2 <= size)%nat -> buf <> []) /\
    (forall pre c post, buf = pre ++ c :: post -> c = LF -> post = []) /\
    (rest = [] \/ List.length buf = (size - 1)%nat \/ exists pre, buf = pre ++ [LF]).
Proof.
  intros size input buf rest H. unfold fgets in H.
  destruct input as [|c input]; [discriminate|].
  destruct size as [|room]; [discriminate|].
  pose proof (fgets_bytes_spec room (c :: input)) as Hs.
  pose proof (fgets_bytes_strict (pred room) c input) as Hstrict.
  replace (fgets_bytes room (c :: input)) with (buf, rest) in Hs by congruence.
  cbn [fst snd] in Hs. destruct Hs as (Happ & Hlen & Hnl & Hend).
  replace (S room - 1)%nat with room by lia.
  repeat split; auto.
  intros Hsize Hbuf. subst buf. cbn [app] in Happ. subst rest.
  destruct room as [|room]; [lia|]. cbn [pred] in Hstrict.
  replace (fgets_bytes (S room) (c :: input)) with (@nil ascii, c :: input)
    in Hstrict by congruence.
  cbn [snd] in Hstrict. lia.
Qed.

Lemma fgets_takes_one_line_witness :
  fst (fgets_bytes 511 (str "a=1" ++ [LF] ++ str "b=2"))
  ++ snd (fgets_bytes 511 (str "a=1" ++ [LF] ++ str "b=2"))
  = str "a=1" ++ [LF] ++ str "b=2".
Proof.
  assert (H : fgets 512 (str "a=1" ++ [LF] ++ str "b=2")
              = Some (fgets_bytes 511 (str "a=1" ++ [LF] ++ str "b=2")))
    by reflexivity.
  destruct (fgets_bytes 511 (str "a=1" ++ [LF] ++ str "b=2")) as [buf rest] eqn:E.
  exact (proj1 (fgets_takes_one_line 512 _ buf rest H)).
Defined.

Lemma to_int_is_int (z : Z) : is_int (to_int z).
Proof.
  unfold is_int, to_int, INT_MIN, INT_MAX.
  pose proof (Z.mod_pos_bound (z + 2 ^ 31) (2 ^ 32) ltac:(lia)). lia.
Qed.

Lemma to_int_id (z : Z) : is_int z -> to_int z = z.
Proof.
  unfold is_int, to_int, INT_MIN, INT_MAX. intros H.
  rewrite Z.mod_small; lia.
Qed.

Lemma isdigit_facts (c : ascii) :
  isdigit c = true ->
  value_char c = true /\ isspace c = false /\
  Ascii.eqb c "-" = false /\ Ascii.eqb c "+" = false.
Proof.
  destruct c as [[] [] [] [] [] [] [] []]; vm_compute; intros H;
    try discriminate H; repeat split; reflexivity.
Qed.

Lemma digit_char_code (d : Z) :
  0 <= d <= 9 ->
  code (digit_char d) = 48 + d /\ isdigit (digit_char d) = true.
Proof.
  intros H.
  assert (Hd : d = 0 \/ d = 1 \/ d = 2 \/ d = 3 \/ d = 4 \/ d = 5 \/ d = 6 \/
               d = 7 \/ d = 8 \/ d = 9) by lia.
  repeat (destruct Hd as [->|Hd]; [vm_compute; split; reflexivity|]).
  subst d. vm_compute. split; reflexivity.
Qed.

(** Reading back the digits written for [n]: enough fuel is any [fuel] with
    [n < 2 ^ fuel]. *)
Lemma print_digits_value (fuel : nat) :
  forall n acc,
    0 <= n < 2 ^ Z.of_nat fuel ->
    digits 0 (print_digits fuel n acc) = digits n acc.
Proof.
  induction fuel as [|fuel IH]; intros n acc Hn.
  - cbn [print_digits]. change (2 ^ Z.of_nat 0) with 1 in Hn.
    replace n with 0 by lia. reflexivity.
  - cbn [print_digits].
    assert (Hm : 0 <= n mod 10 <= 9) by (pose proof (Z.mod_pos_bound n 10); lia).
    destruct (digit_char_code (n mod 10) Hm) as (Hcode & Hdig).
    destruct (n / 10 =? 0) eqn:E.
    + apply Z.eqb_eq in E. cbn [digits]. rewrite Hdig, Hcode.
      f_equal. pose proof (Z.div_mod n 10). lia.
    + apply Z.eqb_neq in E.
      rewrite IH.
      * cbn [digits]. rewrite Hdig, Hcode. f_equal.
        pose proof (Z.div_mod n 10). lia.
      * rewrite Nat2Z.inj_succ, Z.pow_succ_r in Hn by lia.
        split; [apply Z.div_pos; lia|].
        apply Z.div_lt_upper_bound; lia.
Qed.

Lemma print_digits_nonempty (fuel : nat) :
  forall n acc, acc <> [] -> print_digits fuel n acc <> [].
Proof.
  induction fuel as [|fuel IH]; intros n acc Hacc; cbn [print_digits];
    [exact Hacc|].
  destruct (n / 10 =? 0); [discriminate | apply IH; discriminate].
Qed.

Lemma print_digits_shape (fuel : nat) :
  forall n acc,
    0 <= n ->
    forallb isdigit acc = true ->
    forallb isdigit (print_digits fuel n acc) = true /\
    (List.length (print_digits fuel n acc) <= fuel + List.length acc)%nat /\
    (fuel <> O -> print_digits fuel n acc <> []).
Proof.
  induction fuel as [|fuel IH]; intros n acc Hn Hacc.
  - cbn [print_digits]. split; [exact Hacc|]. split; [lia|].
    intros H; destruct (H eq_refl).
  - cbn [print_digits].
    assert (Hm : 0 <= n mod 10 <= 9) by (pose proof (Z.mod_pos_bound n 10); lia).
    destruct (digit_char_code (n mod 10) Hm) as (_ & Hdig).
    destruct (n / 10 =? 0).
    + split; [cbn [forallb]; rewrite Hdig, Hacc; reflexivity|].
      split; [cbn [List.length]; lia | discriminate].
    + destruct (IH (n / 10) (digit_char (n mod 10) :: acc)) as (Hv & Hl & _).
      * apply Z.div_pos; lia.
      * cbn [forallb]. rewrite Hdig, Hacc. reflexivity.
      * split; [exact Hv|]. split; [cbn [List.length] in Hl; lia|].
        intros _. apply print_digits_nonempty. discriminate.
Qed.

Lemma print_nat_facts (n : Z) :
  0 <= n ->
  digits 0 (print_nat n) = n /\
  forallb isdigit (print_nat n) = true /\
  print_nat n <> [] /\
  (List.length (print_nat n) <= S (Z.to_nat (Z.log2 n)))%nat.
Proof.
  intros Hn. unfold print_nat.
  destruct (print_digits_shape (S (Z.to_nat (Z.log2 n))) n [] Hn eq_refl)
    as (Hd & Hl & Hne).
  split; [|split; [exact Hd | split; [apply Hne; discriminate | cbn [List.length] in Hl; lia]]].
  rewrite print_digits_value; [reflexivity|].
  rewrite Nat2Z.inj_succ, Z2Nat.id by apply Z.log2_nonneg.
  split; [exact Hn|].
  destruct (Z.eq_dec n 0) as [->|Hnz]; [reflexivity|].
  apply Z.log2_spec. lia.
Qed.

Lemma forallb_isdigit_word (s : list ascii) :
  forallb isdigit s = true -> forallb value_char s = true.
Proof.
  apply forallb_weaken. intros c Hc. apply isdigit_facts in Hc as (H & _). exact H.
Qed.

Lemma log2_int_bound (n : Z) : 0 <= n <= 2 ^ 31 -> (Z.to_nat (Z.log2 n) <= 31)%nat.
Proof.
  intros Hn. pose proof (Z.log2_le_mono n (2 ^ 31) ltac:(lia)) as H.
  rewrite Z.log2_pow2 in H by lia. pose proof (Z.log2_nonneg n). lia.
Qed.

Lemma print_int_word (z : Z) :
  is_int z -> word_ok (print_int z) = true /\ (List.length (print_int z) <= 33)%nat.
Proof.
  unfold is_int, INT_MIN, INT_MAX, print_int. intros Hz.
  destruct (Z.ltb_spec z 0) as [Hneg|Hpos].
  - destruct (print_nat_facts (- z) ltac:(lia)) as (_ & Hd & _ & Hl).
    pose proof (log2_int_bound (- z) ltac:(lia)).
    split; [|cbn [List.length]; lia].
    unfold word_ok. cbn [forallb List.length].
    rewrite (forallb_isdigit_word _ Hd).
    apply andb_true_iff. split; [reflexivity | apply Nat.leb_le; lia].
  - destruct (print_nat_facts z Hpos) as (_ & Hd & Hne & Hl).
    pose proof (log2_int_bound z ltac:(lia)).
    split; [|lia].
    unfold word_ok. destruct (print_nat z) as [|d rest] eqn:E; [destruct (Hne eq_refl)|].
    rewrite (forallb_isdigit_word _ Hd).
    apply Nat.leb_le. lia.
Qed.

Lemma atoi_print_int (z : Z) : is_int z -> atoi (print_int z) = z.
Proof.
  intros Hz. unfold atoi. rewrite <- (to_int_id z Hz) at 2. f_equal.
  unfold is_int, INT_MIN, INT_MAX in Hz. unfold print_int, strtol.
  destruct (Z.ltb_spec z 0) as [Hneg|Hpos].
  - destruct (print_nat_facts (- z) ltac:(lia)) as (Hval & _).
    cbn [skip_spaces]. change (isspace "-") with false. cbv iota.
    change (Ascii.eqb "-" "-") with true. cbv iota.
    rewrite Hval. unfold LONG_MIN. lia.
  - destruct (print_nat_facts z Hpos) as (Hval & Hd & Hne & _).
    destruct (print_nat z) as [|d rest] eqn:E; [destruct (Hne eq_refl)|].
    cbn [forallb] in Hd. apply andb_true_iff in Hd as [Hd _].
    destruct (isdigit_facts d Hd) as (_ & Hsp & Hminus & Hplus).
    cbn [skip_spaces]. rewrite Hsp, Hminus, Hplus, Hval.
    unfold LONG_MAX. lia.
Qed.

(** X16: [atoi] always yields a C [int], and it reads back what ["%d"]
    writes: for every [int] the decimal text printed by [save_config] is
    converted to the same number again. *)
Theorem atoi_reads_back_printed_int :
  forall z s,
    is_int (atoi s) /\ (is_int z -> atoi (print_int z) = z).
Proof.
  intros z s. split; [apply to_int_is_int | apply atoi_print_int].
Qed.

Lemma atoi_reads_back_witness : atoi (print_int (-2147483648)) = -2147483648.
Proof.
  assert (Hz : is_int (-2147483648)) by (unfold is_int, INT_MIN, INT_MAX; lia).
  exact (proj2 (atoi_reads_back_printed_int (-2147483648) []) Hz).
Defined.

(** ** What [load_config] accepts from arbitrary bytes *)

Lemma scan_set_spec (p : ascii -> bool) (width : nat) :
  forall s,
    fst (scan_set width p s) ++ snd (scan_set width p s) = s /\
    forallb p (fst (scan_set width p s)) = true /\
    (List.length (fst (scan_set width p s)) <= width)%nat.
Proof.
  induction width as [|w IH]; intros s; cbn [scan_set].
  - cbn. repeat split. lia.
  - destruct s as [|c rest]; [cbn; repeat split; lia|].
    destruct (p c) eqn:E; [|cbn; repeat split; lia].
    specialize (IH rest). destruct (scan_set w p rest) as [a b].
    cbn [fst snd app forallb List.length] in *.
    destruct IH as (Happ & Hall & Hlen).
    rewrite Happ, E, Hall. repeat split. lia.
Qed.

Lemma skip_spaces_suffix (s : list ascii) :
  exists pre, s = pre ++ skip_spaces s.
Proof.
  induction s as [|c rest (pre & IH)]; [exists []; reflexivity|].
  cbn [skip_spaces]. destruct (isspace c).
  - exists (c :: pre). cbn [app]. rewrite <- IH. reflexivity.
  - exists []. reflexivity.
Qed.

(** What a successful [sscanf] hands to [set_option]. *)
Lemma sscanf_key_value_spec (q : ascii -> bool) (line key value : list ascii) :
  sscanf_key_value line = Some (key, value) ->
  forallb q line = true ->
  forallb q value = true /\
  forallb (fun c => negb (isspace c)) value = true /\
  value <> [] /\ (List.length value <= 255)%nat /\
  key <> [] /\ (List.length key <= 255)%nat /\
  In "="%char line.
Proof.
  unfold sscanf_key_value. intros H Hq.
  pose proof (scan_set_spec (fun c => negb (Ascii.eqb c "=")) 255 line) as Hk.
  destruct (scan_set 255 (fun c => negb (Ascii.eqb c "=")) line) as [k rest].
  cbn [fst snd] in Hk. destruct Hk as (Hkapp & _ & Hklen).
  destruct k as [|k0 k]; [discriminate|].
  destruct rest as [|c rest']; [discriminate|].
  destruct (Ascii.eqb_spec c "=") as [->|]; [|discriminate].
  pose proof (scan_set_spec (fun c => negb (isspace c)) 255 (skip_spaces rest')) as Hv.
  destruct (scan_set 255 (fun c => negb (isspace c)) (skip_spaces rest')) as [v tail].
  cbn [fst snd] in Hv. destruct Hv as (Hvapp & Hvall & Hvlen).
  destruct v as [|v0 v]; [discriminate|].
  injection H as <- <-.
  destruct (skip_spaces_suffix rest') as (pre & Hpre).
  assert (Hline : line = ((k0 :: k) ++ "="%char :: pre) ++ (v0 :: v) ++ tail).
  { rewrite <- Hkapp, Hpre at 1. rewrite <- Hvapp, <- app_assoc. reflexivity. }
  repeat split; try discriminate; try assumption.
  - rewrite Hline, !forallb_app in Hq.
    apply andb_true_iff in Hq as [_ Hq]. apply andb_true_iff in Hq as [Hq _].
    exact Hq.
  - rewrite <- Hkapp. apply in_or_app. right. left. reflexivity.
Qed.

Lemma forallb_and {A} (p q : A -> bool) (l : list A) :
  forallb p l = true -> forallb q l = true ->
  forallb (fun x => p x && q x) l = true.
Proof.
  induction l as [|x l IH]; simpl; [reflexivity|].
  intros Hp Hq. apply andb_true_iff in Hp as [Hp1 Hp2].
  apply andb_true_iff in Hq as [Hq1 Hq2].
  rewrite Hp1, Hq1, (IH Hp2 Hq2). reflexivity.
Qed.

Lemma in_strip_newline (x : ascii) (s : list ascii) :
  In x (strip_newline s) -> In x s.
Proof.
  induction s as [|c rest IH]; simpl; [trivial|].
  destruct (Ascii.eqb c LF); simpl; [intros []|]. intuition.
Qed.

Lemma in_cstr (x : ascii) (buf : list ascii) : In x (cstr buf) -> In x buf.
Proof.
  induction buf as [|c rest IH]; simpl; [trivial|].
  destruct (Ascii.eqb c NUL); simpl; [intros []|]. intuition.
Qed.

(** One round of the loop either leaves the configuration alone or stores a
    key and a value that fits its buffer, and only for a line with ['=']. *)
Lemma process_line_cases (buf : list ascii) (c : BatteryConfig) :
  process_line buf c = c \/
  exists key value,
    process_line buf c = set_option key value c /\
    word_ok value = true /\ In "="%char buf.
Proof.
  unfold process_line.
  pose proof (strip_newline_clean (cstr buf) (cstr_no_nul buf)) as Hclean.
  assert (Hin : forall x, In x (strip_newline (cstr buf)) -> In x buf)
    by (intros x Hx; apply in_cstr, in_strip_newline; exact Hx).
  destruct (strip_newline (cstr buf)) as [|ch rest]; [left; reflexivity|].
  destruct (Ascii.eqb ch "#"); [left; reflexivity|].
  destruct (sscanf_key_value (ch :: rest)) as [[key value]|] eqn:E;
    [|left; reflexivity].
  right. exists key, value. split; [reflexivity|].
  assert (Hnul : forallb (fun c => negb (Ascii.eqb c NUL)) (ch :: rest) = true).
  { revert Hclean. apply forallb_weaken. intros x Hx.
    apply andb_true_iff in Hx as [Hx _]. exact Hx. }
  destruct (sscanf_key_value_spec _ _ _ _ E Hnul)
    as (Hvn & Hvs & Hvne & Hvl & _ & _ & Heq).
  split; [|apply Hin; exact Heq].
  unfold word_ok. destruct value as [|v0 v]; [destruct (Hvne eq_refl)|].
  apply andb_true_iff. split; [|apply Nat.leb_le; exact Hvl].
  unfold value_char. apply forallb_and; assumption.
Qed.

Lemma set_option_config_path key value c :
  config_path (set_option key value c) = config_path c.
Proof.
  unfold set_option.
  repeat match goal with
         | |- context [if streq key ?k then _ else _] => destruct (streq key k)
         end; reflexivity.
Qed.

Lemma set_option_storable key value c :
  word_ok value = true -> storable c -> storable (set_option key value c).
Proof.
  intros Hv (H1 & H2 & H3 & H4 & H5 & H6 & H7 & H8 & H9 & H10).
  pose proof (to_int_is_int (strtol value)) as Hint. fold (atoi value) in Hint.
  unfold set_option.
  repeat match goal with
         | |- context [if streq key ?k then _ else _] => destruct (streq key k)
         end;
    unfold storable, set_warning_level, set_critical_level, set_check_interval,
      set_alert_timeout, set_force_suspend, set_impossible_alerts,
      set_suspend_method, set_icon_charging, set_icon_battery, set_icon_low;
    cbn [warning_level critical_level check_interval alert_timeout force_suspend
         impossible_alerts suspend_method icon_charging icon_battery icon_low];
    unfold is_int in *; intuition.
Qed.

Lemma read_lines_invariant (P : BatteryConfig -> Prop) :
  (forall buf c, P c -> P (process_line buf c)) ->
  forall fuel input c, P c -> P (read_lines fuel input c).
Proof.
  intros Hstep. induction fuel as [|fuel IH]; intros input c Hc; cbn [read_lines];
    [exact Hc|].
  destruct (fgets 512 input) as [[buf rest]|]; [|exact Hc].
  apply IH, Hstep, Hc.
Qed.

Lemma init_default_config_storable home : storable (init_default_config home).
Proof.
  unfold storable, is_int, INT_MIN, INT_MAX, init_default_config.
  cbn [warning_level critical_level check_interval alert_timeout force_suspend
       impossible_alerts suspend_method icon_charging icon_battery icon_low].
  repeat split; try lia; reflexivity.
Qed.

(** X17: whatever bytes the file holds, [load_config] leaves [config_path]
    alone and keeps the configuration within its buffers: every number is a
    C [int] and every icon name has 1 to 255 characters without white space
    or NUL, as the 256-byte fields require.  So does the configuration
    [main] starts with, for any [HOME] and any file. *)
Theorem load_config_keeps_buffers_safe :
  forall file c,
    config_path (load_config file c) = config_path c /\
    (storable c -> storable (load_config file c)) /\
    (forall home, storable (startup_config home file)).
Proof.
  assert (Hkeep : forall file c, storable c -> storable (load_config file c)).
  { intros file c Hc. destruct file as [bytes|]; [|exact Hc].
    cbn [load_config]. apply (read_lines_invariant storable); [|exact Hc].
    intros buf c' Hc'.
    destruct (process_line_cases buf c') as [->|(k & v & -> & Hv & _)];
      [exact Hc' | apply set_option_storable; assumption]. }
  intros file c. split; [|split].
  - destruct file as [bytes|]; [|reflexivity].
    cbn [load_config].
    apply (read_lines_invariant (fun c' => config_path c' = config_path c));
      [|reflexivity].
    intros buf c' Hc'.
    destruct (process_line_cases buf c') as [->|(k & v & -> & _)];
      [exact Hc' | rewrite set_option_config_path; exact Hc'].
  - apply Hkeep.
  - intros home. apply Hkeep, init_default_config_storable.
Qed.

Lemma load_config_keeps_buffers_witness :
  storable (load_config (Some (str "icon_low=x y" ++ [LF] ++ str "check_interval=99999999999"))
              default_config).
Proof.
  exact (proj1 (proj2 (load_config_keeps_buffers_safe _ default_config))
           (init_default_config_storable None)).
Defined.

(** X18: a file without any ['='] changes nothing, whatever else it holds:
    lines without an assignment are skipped, not rejected. *)
Theorem file_without_assignment_changes_nothing :
  forall bytes c,
    ~ In "="%char bytes ->
    load_config (Some bytes) c = c.
Proof.
  intros bytes c. unfold load_config. generalize (List.length bytes) as fuel.
  intros fuel. revert bytes. induction fuel as [|fuel IH]; intros bytes Hno;
    cbn [read_lines]; [reflexivity|].
  destruct (fgets 512 bytes) as [[buf rest]|] eqn:E; [|reflexivity].
  pose proof (fgets_takes_one_line_parts bytes buf rest E) as Happ.
  assert (Hbuf : ~ In "="%char buf)
    by (intros H; apply Hno; rewrite <- Happ; apply in_or_app; left; exact H).
  assert (Hrest : ~ In "="%char rest)
    by (intros H; apply Hno; rewrite <- Happ; apply in_or_app; right; exact H).
  destruct (process_line_cases buf c) as [->|(k & v & _ & _ & Hin)];
    [apply IH; exact Hrest | contradiction].
Qed.

Lemma file_without_assignment_witness :
  load_config (Some (str "warning_level 50" ++ [LF] ++ str "# note" ++ [LF]))
    default_config = default_config.
Proof.
  apply file_without_assignment_changes_nothing.
  vm_compute. intuition discriminate.
Defined.

(** ** Saving and loading again *)

Lemma word_ok_facts (value : list ascii) :
  word_ok value = true ->
  value <> [] /\ forallb value_char value = true /\
  (List.length value <= 255)%nat.
Proof.
  unfold word_ok. destruct value as [|v0 v]; [discriminate|].
  intros H. apply andb_true_iff in H as [Hv Hl]. apply Nat.leb_le in Hl.
  repeat split; [discriminate | exact Hv | exact Hl].
Qed.

Lemma sscanf_assign_word (key value : list ascii) :
  line_fits (Assign key value) = true ->
  sscanf_key_value (key ++ "="%char :: value) = Some (key, value).
Proof.
  intros Hok. destruct key as [|k0 key]; [discriminate|].
  cbn [line_fits] in Hok.
  apply andb_true_iff in Hok as [Hok _].
  apply andb_true_iff in Hok as [Hok Hkl].
  apply andb_true_iff in Hok as [Hok Hw].
  apply andb_true_iff in Hok as [_ Hk].
  apply Nat.leb_le in Hkl.
  destruct (word_ok_facts value Hw) as (Hne & Hv & Hvl).
  destruct value as [|v0 value]; [destruct (Hne eq_refl)|].
  unfold sscanf_key_value.
  rewrite (scan_set_all _ (k0 :: key)); [| | exact Hkl | reflexivity].
  2: { apply (forallb_weaken key_char); [|exact Hk].
       intros c Hc. apply key_char_facts in Hc as (-> & _). reflexivity. }
  cbn [Ascii.eqb Bool.eqb andb].
  assert (Hv0 : isspace v0 = false).
  { cbn [forallb] in Hv. apply andb_true_iff in Hv as [Hv0 _].
    apply value_char_facts in Hv0 as (H & _). exact H. }
  cbn [skip_spaces]. rewrite Hv0.
  rewrite <- (app_nil_r (v0 :: value)) at 1.
  rewrite (scan_set_all _ (v0 :: value)); [reflexivity | | exact Hvl | exact I].
  apply (forallb_weaken value_char); [|exact Hv].
  intros c Hc. apply value_char_facts in Hc as (-> & _). reflexivity.
Qed.

Lemma render_line_shape_fits (l : ConfigLine) :
  line_fits l = true ->
  exists line,
    render_line l = line ++ [LF] /\
    forallb (fun c => negb (Ascii.eqb c LF)) line = true /\
    (List.length line <= 510)%nat.
Proof.
  intros Hok. destruct l as [key value|text|].
  - destruct key as [|k0 key]; [discriminate|].
    cbn [line_fits] in Hok.
    apply andb_true_iff in Hok as [Hok Htot].
    apply andb_true_iff in Hok as [Hok _].
    apply andb_true_iff in Hok as [Hok Hw].
    apply andb_true_iff in Hok as [_ Hk].
    apply Nat.leb_le in Htot.
    destruct (word_ok_facts value Hw) as (_ & Hv & _).
    exists ((k0 :: key) ++ "="%char :: value). split; [|split].
    + unfold render_line. rewrite <- app_assoc. reflexivity.
    + rewrite forallb_app. apply andb_true_iff. split.
      * apply (forallb_weaken key_char); [|exact Hk].
        intros x Hx. apply key_char_facts in Hx as (_ & _ & ->). reflexivity.
      * change (forallb (fun c => negb (Ascii.eqb c LF)) ("="%char :: value))
          with (true && forallb (fun c => negb (Ascii.eqb c LF)) value).
        apply (forallb_weaken value_char); [|exact Hv].
        intros x Hx. apply value_char_facts in Hx as (_ & _ & ->). reflexivity.
    + rewrite length_app. cbn [List.length] in *. lia.
  - cbn [line_fits] in Hok. apply andb_true_iff in Hok as [Ht Hl].
    apply Nat.leb_le in Hl.
    exists ("#"%char :: text). split; [reflexivity | split].
    + cbn [forallb]. rewrite Ht. reflexivity.
    + cbn [List.length]. lia.
  - exists []. repeat split. simpl. lia.
Qed.

Lemma process_line_render_fits (l : ConfigLine) (c : BatteryConfig) :
  line_fits l = true ->
  process_line (render_line l) c = apply_line c l.
Proof.
  intros Hok. unfold process_line. destruct l as [key value|text|].
  - pose proof (sscanf_assign_word key value Hok) as Hscan.
    destruct key as [|k0 key]; [discriminate|].
    cbn [line_fits] in Hok.
    apply andb_true_iff in Hok as [Hok _].
    apply andb_true_iff in Hok as [Hok _].
    apply andb_true_iff in Hok as [Hok Hw].
    apply andb_true_iff in Hok as [Hhash Hk].
    apply negb_true_iff in Hhash.
    destruct (word_ok_facts value Hw) as (_ & Hv & _).
    assert (Hline : forallb (fun c => negb (Ascii.eqb c NUL) && negb (Ascii.eqb c LF))
                      ((k0 :: key) ++ "="%char :: value) = true).
    { rewrite forallb_app. apply andb_true_iff. split.
      - apply (forallb_weaken key_char); [|exact Hk].
        intros x Hx. apply key_char_facts in Hx as (_ & -> & ->). reflexivity.
      - change (forallb (fun c => negb (Ascii.eqb c NUL) && negb (Ascii.eqb c LF))
                  ("="%char :: value))
          with (true && forallb (fun c => negb (Ascii.eqb c NUL) && negb (Ascii.eqb c LF))
                          value).
        apply (forallb_weaken value_char); [|exact Hv].
        intros x Hx. apply value_char_facts in Hx as (_ & -> & ->). reflexivity. }
    unfold render_line.
    replace ((k0 :: key) ++ "="%char :: value ++ [LF])
      with (((k0 :: key) ++ "="%char :: value) ++ [LF])
      by (rewrite <- app_assoc; reflexivity).
    rewrite cstr_line, strip_newline_line.
    + cbn [app]. rewrite Hhash.
      change (k0 :: key ++ "="%char :: value)
        with ((k0 :: key) ++ "="%char :: value).
      rewrite Hscan. reflexivity.
    + apply (forallb_weaken _ _ _ (fun x Hx => proj2 (proj1 (andb_true_iff _ _) Hx)) Hline).
    + apply (forallb_weaken _ _ _ (fun x Hx => proj1 (proj1 (andb_true_iff _ _) Hx)) Hline).
  - cbn [render_line cstr strip_newline Ascii.eqb Bool.eqb NUL LF ascii_of_nat
         ascii_of_pos ascii_of_N Ascii.zero Ascii.one shift Pos.of_succ_nat
         Pos.succ andb].
    reflexivity.
  - reflexivity.
Qed.

Lemma read_lines_render_fits (lines : list ConfigLine) :
  forallb line_fits lines = true ->
  forall fuel c,
    (List.length lines <= fuel)%nat ->
    read_lines fuel (render lines) c = fold_left apply_line lines c.
Proof.
  induction lines as [|l lines IH]; intros Hok fuel c Hfuel.
  - destruct fuel; reflexivity.
  - cbn [forallb] in Hok. apply andb_true_iff in Hok as [Hl Hok].
    destruct fuel as [|fuel]; [simpl in Hfuel; lia|].
    destruct (render_line_shape_fits l Hl) as (line & Hline & Hnl & Hlen).
    cbn [read_lines fold_left]. unfold render. cbn [flat_map].
    rewrite Hline, <- app_assoc. cbn [app].
    rewrite (fgets_line line _ Hnl Hlen).
    rewrite <- Hline, (process_line_render_fits l c Hl).
    apply IH; [exact Hok | simpl in Hfuel; lia].
Qed.

Lemma saved_bytes_lines (c : BatteryConfig) :
  saved_bytes c = render (saved_lines c).
Proof.
  unfold saved_bytes, render, saved_lines. cbn [flat_map render_line].
  rewrite app_nil_r.
  repeat (rewrite <- ?app_assoc; cbn [app str list_ascii_of_string]).
  reflexivity.
Qed.

Lemma assign_fits (key value : list ascii) :
  line_ok (Assign key (str "0")) = true ->
  (List.length key <= 20)%nat ->
  word_ok value = true ->
  line_fits (Assign key value) = true.
Proof.
  intros Hk Hlen Hw. destruct key as [|k0 key]; [discriminate|].
  cbn [line_ok str list_ascii_of_string] in Hk.
  apply andb_true_iff in Hk as [Hk _].
  apply andb_true_iff in Hk as [Hk _].
  apply andb_true_iff in Hk as [Hk _].
  cbn [line_fits]. rewrite Hk, Hw.
  destruct (word_ok_facts value Hw) as (_ & _ & Hvl).
  cbn [andb]. apply andb_true_iff.
  split; apply Nat.leb_le; cbn [List.length] in *; lia.
Qed.

Lemma saved_lines_fit (c : BatteryConfig) :
  storable c -> forallb line_fits (saved_lines c) = true.
Proof.
  intros (H1 & H2 & H3 & H4 & H5 & H6 & H7 & H8 & H9 & H10).
  unfold saved_lines. cbn [forallb].
  repeat match goal with
         | |- context [line_fits (Comment ?t)] =>
             change (line_fits (Comment t)) with true
         end.
  rewrite !assign_fits;
    try reflexivity; try (vm_compute; lia); try assumption;
    apply print_int_word; assumption.
Qed.

Lemma set_option_keys (v : list ascii) (c : BatteryConfig) :
  set_option (str "warning_level") v c = set_warning_level (atoi v) c /\
  set_option (str "critical_level") v c = set_critical_level (atoi v) c /\
  set_option (str "check_interval") v c = set_check_interval (atoi v) c /\
  set_option (str "alert_timeout") v c = set_alert_timeout (atoi v) c /\
  set_option (str "force_suspend") v c = set_force_suspend (atoi v) c /\
  set_option (str "impossible_alerts") v c = set_impossible_alerts (atoi v) c /\
  set_option (str "suspend_method") v c = set_suspend_method (atoi v) c /\
  set_option (str "icon_charging") v c = set_icon_charging v c /\
  set_option (str "icon_battery") v c = set_icon_battery v c /\
  set_option (str "icon_low") v c = set_icon_low v c.
Proof. repeat split; reflexivity. Qed.

Lemma load_saved (c c0 : BatteryConfig) :
  storable c ->
  load_config (save_config true c) c0
  = mkConfig (warning_level c) (critical_level c) (check_interval c)
      (alert_timeout c) (config_path c0) (icon_charging c) (icon_battery c)
      (icon_low c) (force_suspend c) (impossible_alerts c) (suspend_method c).
Proof.
  intros Hc. cbn [save_config load_config]. rewrite saved_bytes_lines.
  rewrite (read_lines_render_fits _ (saved_lines_fit c Hc))
    by apply render_length.
  destruct Hc as (H1 & H2 & H3 & H4 & H5 & H6 & H7 & _).
  destruct c0 as [wl0 cl0 ci0 at0 cp0 ic0 ib0 il0 fs0 ia0 sm0].
  unfold saved_lines. cbn [fold_left apply_line].
  repeat match goal with
         | |- context [set_option ?k ?v ?x] =>
             first [ rewrite (proj1 (set_option_keys v x))
                   | rewrite (proj1 (proj2 (set_option_keys v x)))
                   | rewrite (proj1 (proj2 (proj2 (set_option_keys v x))))
                   | rewrite (proj1 (proj2 (proj2 (proj2 (set_option_keys v x)))))
                   | rewrite (proj1 (proj2 (proj2 (proj2 (proj2 (set_option_keys v x))))))
                   | rewrite (proj1 (proj2 (proj2 (proj2 (proj2 (proj2
                                (set_option_keys v x)))))))
                   | rewrite (proj1 (proj2 (proj2 (proj2 (proj2 (proj2 (proj2
                                (set_option_keys v x))))))))
                   | rewrite (proj1 (proj2 (proj2 (proj2 (proj2 (proj2 (proj2 (proj2
                                (set_option_keys v x)))))))))
                   | rewrite (proj1 (proj2 (proj2 (proj2 (proj2 (proj2 (proj2 (proj2
                                (proj2 (set_option_keys v x))))))))))
                   | rewrite (proj2 (proj2 (proj2 (proj2 (proj2 (proj2 (proj2 (proj2
                                (proj2 (set_option_keys v x)))))))))) ]
         end.
  rewrite !atoi_print_int by assumption.
  reflexivity.
Qed.

(** X19: settings survive a restart.  For a configuration whose numbers are
    C [int]s and whose icon names have 1 to 255 characters without white
    space or NUL, loading the file [save_config] wrote gives every one of
    the ten fields its saved value, over whatever configuration was there
    before; only [config_path], which is not saved, stays as it was. *)
Theorem saved_config_loads_back :
  forall c c0,
    storable c ->
    (forall f, field f (load_config (save_config true c) c0) = field f c) /\
    config_path (load_config (save_config true c) c0) = config_path c0 /\
    load_config (save_config true c) c = c.
Proof.
  intros c c0 Hc. rewrite !(load_saved c _ Hc). split; [|split].
  - intros f. destruct f; reflexivity.
  - reflexivity.
  - destruct c; reflexivity.
Qed.

Lemma saved_config_witness :
  load_config (save_config true (set_critical_level (-3) default_config))
    (init_default_config (Some (str "/home/user")))
  = set_critical_level (-3) (init_default_config (Some (str "/home/user"))).
Proof.
  assert (Hc : storable (set_critical_level (-3) default_config)).
  { unfold storable, is_int, INT_MIN, INT_MAX. cbn. repeat split; try lia. }
  destruct (saved_config_loads_back (set_critical_level (-3) default_config)
              (init_default_config (Some (str "/home/user"))) Hc) as (_ & _ & _).
  rewrite (load_saved _ _ Hc). reflexivity.
Defined.

(** ** A tick without battery, and the default path *)

(** X20: a tick that finds no battery only refreshes the tray icon, as
    [Absent] with 0 percent, and leaves every static as it was; without tray
    icon it does nothing at all. *)
Theorem tick_without_battery_only_refreshes_icon :
  forall config system hw now hw_later g,
    present (get_battery_status hw) = 0 ->
    state_of (poll config system hw now hw_later g) = g /\
    trace_of (poll config system hw now hw_later g)
    = if tray_icon g then [Act (UpdateDisplay Absent 0)] else [].
Proof.
  intros config system hw now hw_later g Habs. unfold poll.
  rewrite (absent_run config system _ now _ g Habs).
  unfold get_battery_status in Habs. apply probe_absent in Habs.
  unfold get_battery_status. rewrite Habs.
  split; reflexivity.
Qed.

Lemma tick_without_battery_witness :
  trace_of (poll default_config always_succeeds (mkSysfs unreadable unreadable)
              1000 (mkSysfs unreadable unreadable) initial_globals)
  = [Act (UpdateDisplay Absent 0)].
Proof.
  assert (Habs : present (get_battery_status (mkSysfs unreadable unreadable)) = 0)
    by reflexivity.
  exact (proj2 (tick_without_battery_only_refreshes_icon default_config
                  always_succeeds (mkSysfs unreadable unreadable) 1000
                  (mkSysfs unreadable unreadable) initial_globals Habs)).
Defined.

(** X21: the path built by [init_default_config] always fits the 512-byte
    [config_path]: it has at most 511 characters.  When [HOME] is short
    enough it is [HOME] followed by the file name; a longer [HOME] is cut
    off at 511 characters and the path is a prefix of that. *)
Theorem default_config_path_fits :
  forall home,
    let name := str "/.config/cool-little-battery-monitor.conf" in
    (List.length (config_path (init_default_config home)) <= 511)%nat /\
    (forall h, home = Some h ->
       config_path (init_default_config home) = firstn 511 (h ++ name) /\
       ((List.length h <= 470)%nat ->
        config_path (init_default_config home) = h ++ name)).
Proof.
  intros home name. split.
  - destruct home as [h|]; cbn [init_default_config config_path].
    + rewrite length_firstn. lia.
    + vm_compute. lia.
  - intros h ->. cbn [init_default_config config_path]. fold name.
    split; [reflexivity|]. intros Hlen. apply firstn_all2.
    rewrite length_app.
    change (List.length name) with 41%nat. lia.
Qed.

Lemma default_config_path_witness :
  config_path (init_default_config (Some (str "/home/user")))
  = str "/home/user/.config/cool-little-battery-monitor.conf".
Proof.
  assert (Hlen : (List.length (str "/home/user") <= 470)%nat)
    by (vm_compute; lia).
  destruct (default_config_path_fits (Some (str "/home/user"))) as (_ & H).
  destruct (H (str "/home/user") eq_refl) as (_ & Hshort).
  rewrite (Hshort Hlen). reflexivity.
Defined.

(** ** Whole configuration files *)

Lemma fgets_bytes_whole (line : list ascii) :
  forallb (fun c => negb (Ascii.eqb c LF)) line = true ->
  forall room, (List.length line <= room)%nat ->
  fgets_bytes room line = (line, []).
Proof.
  induction line as [|c line IH]; intros Hl room Hroom.
  - destruct room; reflexivity.
  - destruct room; [simpl in Hroom; lia|].
    cbn [forallb] in Hl. apply andb_true_iff in Hl as [Hc Hl].
    apply negb_true_iff in Hc. cbn [fgets_bytes]. rewrite Hc.
    rewrite (IH Hl room); [reflexivity | simpl in Hroom; lia].
Qed.

(** The last line of a file that does not end in a newline. *)
Lemma fgets_last_line (c0 : ascii) (line : list ascii) :
  forallb (fun c => negb (Ascii.eqb c LF)) (c0 :: line) = true ->
  (List.length (c0 :: line) <= 510)%nat ->
  fgets 512 (c0 :: line) = Some (c0 :: line, []).
Proof.
  intros Hl Hlen. rewrite fgets_nonempty.
  rewrite fgets_bytes_whole; [reflexivity | exact Hl | lia].
Qed.

Lemma cstr_id (s : list ascii) :
  forallb (fun c => negb (Ascii.eqb c NUL)) s = true -> cstr s = s.
Proof.
  induction s as [|c s IH]; intros H; simpl in *; [reflexivity|].
  apply andb_true_iff in H as [Hc H]. apply negb_true_iff in Hc.
  rewrite Hc, (IH H). reflexivity.
Qed.

Lemma strip_newline_id (s : list ascii) :
  forallb (fun c => negb (Ascii.eqb c LF)) s = true -> strip_newline s = s.
Proof.
  induction s as [|c s IH]; intros H; simpl in *; [reflexivity|].
  apply andb_true_iff in H as [Hc H]. apply negb_true_iff in Hc.
  rewrite Hc, (IH H). reflexivity.
Qed.

Lemma skip_spaces_pad (pad s : list ascii) :
  forallb blank_char pad = true -> skip_spaces (pad ++ s) = skip_spaces s.
Proof.
  induction pad as [|c pad IH]; intros H; [reflexivity|].
  cbn [forallb] in H. apply andb_true_iff in H as [Hc H].
  unfold blank_char in Hc. apply andb_true_iff in Hc as [Hc _].
  cbn [app skip_spaces]. rewrite Hc. exact (IH H).
Qed.

(** What [sscanf] makes of the text of an assignment. *)
Lemma sscanf_assignment (key pad value rest : list ascii) :
  line_wf (Assignment key pad value rest) = true ->
  sscanf_key_value (line_text (Assignment key pad value rest)) = Some (key, value).
Proof.
  intros Hok. destruct key as [|k0 key]; [discriminate|].
  cbn [line_wf] in Hok.
  apply andb_true_iff in Hok as [Hok _].
  apply andb_true_iff in Hok as [Hok Hhd].
  apply andb_true_iff in Hok as [Hok _].
  apply andb_true_iff in Hok as [Hok Hw].
  apply andb_true_iff in Hok as [Hok Hpad].
  apply andb_true_iff in Hok as [Hok Hkl].
  apply andb_true_iff in Hok as [_ Hk].
  apply Nat.leb_le in Hkl.
  destruct (word_ok_facts value Hw) as (Hne & Hv & Hvl).
  destruct value as [|v0 value]; [destruct (Hne eq_refl)|].
  unfold sscanf_key_value, line_text.
  rewrite (scan_set_all _ (k0 :: key)); [| | exact Hkl | reflexivity].
  2: { apply (forallb_weaken key_char); [|exact Hk].
       intros c Hc. apply key_char_facts in Hc as (-> & _). reflexivity. }
  cbn [Ascii.eqb Bool.eqb andb].
  assert (Hv0 : isspace v0 = false).
  { cbn [forallb] in Hv. apply andb_true_iff in Hv as [Hv0 _].
    apply value_char_facts in Hv0 as (H & _). exact H. }
  rewrite (skip_spaces_pad pad _ Hpad).
  cbn [app skip_spaces]. rewrite Hv0.
  change (v0 :: value ++ rest) with ((v0 :: value) ++ rest).
  rewrite (scan_set_all _ (v0 :: value)); [reflexivity | | exact Hvl |].
  - apply (forallb_weaken value_char); [|exact Hv].
    intros c Hc. apply value_char_facts in Hc as (-> & _). reflexivity.
  - destruct rest as [|r rest]; [exact I|]. rewrite Hhd. reflexivity.
Qed.

Lemma assignment_text_clean (key pad value rest : list ascii) :
  line_wf (Assignment key pad value rest) = true ->
  forallb text_char (line_text (Assignment key pad value rest)) = true /\
  (List.length (line_text (Assignment key pad value rest)) <= 510)%nat /\
  exists k0 tail, line_text (Assignment key pad value rest) = k0 :: tail /\
                  Ascii.eqb k0 "#" = false.
Proof.
  intros Hok. destruct key as [|k0 key]; [discriminate|].
  cbn [line_wf] in Hok.
  apply andb_true_iff in Hok as [Hok Hlen].
  apply andb_true_iff in Hok as [Hok _].
  apply andb_true_iff in Hok as [Hok Hrest].
  apply andb_true_iff in Hok as [Hok Hw].
  apply andb_true_iff in Hok as [Hok Hpad].
  apply andb_true_iff in Hok as [Hok _].
  apply andb_true_iff in Hok as [Hhash Hk].
  apply Nat.leb_le in Hlen. apply negb_true_iff in Hhash.
  destruct (word_ok_facts value Hw) as (_ & Hv & _).
  split; [|split; [exact Hlen|]].
  - unfold line_text. rewrite forallb_app. apply andb_true_iff. split.
    + apply (forallb_weaken key_char); [|exact Hk].
      intros x Hx. apply key_char_facts in Hx as (_ & Hn & Hl).
      unfold text_char. rewrite Hn, Hl. reflexivity.
    + change (forallb text_char ("="%char :: pad ++ value ++ rest))
        with (true && forallb text_char (pad ++ value ++ rest)).
      rewrite !forallb_app, Hrest.
      assert (Hp : forallb text_char pad = true).
      { apply (forallb_weaken blank_char); [|exact Hpad].
        intros x Hx. unfold blank_char in Hx. apply andb_true_iff in Hx as [Hs Hl].
        unfold text_char. rewrite Hl.
        destruct (Ascii.eqb_spec x NUL) as [->|]; [discriminate Hs | reflexivity]. }
      assert (Hvt : forallb text_char value = true).
      { apply (forallb_weaken value_char); [|exact Hv].
        intros x Hx. apply value_char_facts in Hx as (_ & Hn & Hl).
        unfold text_char. rewrite Hn, Hl. reflexivity. }
      rewrite Hp, Hvt. reflexivity.
  - exists k0, (key ++ "="%char :: pad ++ value ++ rest).
    split; [reflexivity | exact Hhash].
Qed.

Lemma text_char_split (s : list ascii) :
  forallb text_char s = true ->
  forallb (fun c => negb (Ascii.eqb c NUL)) s = true /\
  forallb (fun c => negb (Ascii.eqb c LF)) s = true.
Proof.
  intros H. split; revert H; apply forallb_weaken; intros x Hx;
    unfold text_char in Hx; apply andb_true_iff in Hx as [H1 H2]; assumption.
Qed.

Lemma not_in_existsb (s : list ascii) :
  existsb (fun x => Ascii.eqb x "=") s = false -> ~ In "="%char s.
Proof.
  intros H Hin. assert (E : existsb (fun x => Ascii.eqb x "=") s = true).
  { apply existsb_exists. exists "="%char. split; [exact Hin | reflexivity]. }
  rewrite E in H. discriminate.
Qed.

(** One line through the body of the loop, with or without its newline. *)
Lemma process_file_line (l : FileLine) (newline : bool) (c : BatteryConfig) :
  line_wf l = true ->
  process_line (line_text l ++ (if newline then [LF] else [])) c
  = apply_file_line c l.
Proof.
  intros Hok. destruct l as [key pad value rest|text].
  - pose proof (sscanf_assignment key pad value rest Hok) as Hscan.
    destruct (assignment_text_clean key pad value rest Hok)
      as (Hclean & _ & k0 & tail & Htext & Hhash).
    destruct (text_char_split _ Hclean) as [Hnul Hlf].
    unfold process_line, apply_file_line.
    assert (Hline : strip_newline
                      (cstr (line_text (Assignment key pad value rest)
                             ++ (if newline then [LF] else [])))
                    = line_text (Assignment key pad value rest)).
    { destruct newline.
      - rewrite (cstr_line _ Hnul). apply strip_newline_line. exact Hlf.
      - rewrite app_nil_r, (cstr_id _ Hnul). apply strip_newline_id. exact Hlf. }
    rewrite Hline. rewrite Htext in *. rewrite Hhash, Hscan. reflexivity.
  - cbn [line_text apply_file_line]. cbn [line_wf] in Hok.
    apply andb_true_iff in Hok as [Hok Hkind].
    destruct text as [|t0 text].
    + destruct newline; reflexivity.
    + apply orb_true_iff in Hkind as [Hhash|Hnoeq].
      * apply Ascii.eqb_eq in Hhash. subst t0.
        unfold process_line. cbn [app cstr].
        change (Ascii.eqb "#" NUL) with false. cbv iota. cbn [strip_newline].
        change (Ascii.eqb "#" LF) with false. cbv iota.
        change (Ascii.eqb "#" "#") with true. reflexivity.
      * apply negb_true_iff, not_in_existsb in Hnoeq.
        destruct (process_line_cases ((t0 :: text) ++ (if newline then [LF] else [])) c)
          as [E|(k & v & _ & _ & Hin)]; [exact E|].
        exfalso. apply in_app_or in Hin as [Hin|Hin]; [exact (Hnoeq Hin)|].
        destruct newline; [|destruct Hin].
        destruct Hin as [Hin|[]]. discriminate Hin.
Qed.

Lemma line_wf_text (l : FileLine) :
  line_wf l = true ->
  forallb (fun c => negb (Ascii.eqb c LF)) (line_text l) = true /\
  (List.length (line_text l) <= 510)%nat /\
  (line_text l = [] -> forall c, apply_file_line c l = c).
Proof.
  intros Hok. destruct l as [key pad value rest|text].
  - destruct (assignment_text_clean key pad value rest Hok)
      as (Hclean & Hlen & k0 & tail & Htext & _).
    split; [exact (proj2 (text_char_split _ Hclean)) | split; [exact Hlen|]].
    rewrite Htext. discriminate.
  - cbn [line_wf line_text] in *.
    apply andb_true_iff in Hok as [Hok _].
    apply andb_true_iff in Hok as [Hlf Hlen]. apply Nat.leb_le in Hlen.
    repeat split; auto.
Qed.

Lemma read_lines_file (lines : list FileLine) (final_newline : bool) :
  forallb line_wf lines = true ->
  forall fuel c,
    (List.length lines <= fuel)%nat ->
    read_lines fuel (file_text lines final_newline) c
    = fold_left apply_file_line lines c.
Proof.
  induction lines as [|l lines IH]; intros Hok fuel c Hfuel.
  - destruct fuel; reflexivity.
  - cbn [forallb] in Hok. apply andb_true_iff in Hok as [Hl Hok].
    destruct fuel as [|fuel]; [simpl in Hfuel; lia|].
    destruct (line_wf_text l Hl) as (Hlf & Hlen & Hempty).
    cbn [file_text fold_left]. destruct lines as [|l' lines].
    + cbn [fold_left]. destruct final_newline.
      * cbn [read_lines]. rewrite (fgets_line _ [] Hlf Hlen).
        rewrite (process_file_line l true c Hl). destruct fuel; reflexivity.
      * rewrite app_nil_r. destruct (line_text l) as [|c0 text] eqn:Et.
        -- cbn [read_lines fgets]. symmetry. apply Hempty. reflexivity.
        -- cbn [read_lines]. rewrite (fgets_last_line c0 text Hlf Hlen).
           rewrite <- Et.
           pose proof (process_file_line l false c Hl) as Hp.
           rewrite app_nil_r in Hp. rewrite Hp. destruct fuel; reflexivity.
    + cbn [read_lines]. rewrite (fgets_line _ _ Hlf Hlen).
      rewrite (process_file_line l true c Hl).
      apply IH; [exact Hok | simpl in Hfuel |- *; lia].
Qed.


Lemma file_text_lines (lines : list FileLine) (final_newline : bool) :
  forallb line_wf lines = true ->
  (List.length lines <= S (List.length (file_text lines final_newline)))%nat.
Proof.
  induction lines as [|l lines IH]; intros Hok; [simpl; lia|].
  cbn [forallb] in Hok. apply andb_true_iff in Hok as [_ Hok].
  specialize (IH Hok). cbn [file_text]. destruct lines as [|l' lines].
  - simpl. lia.
  - rewrite length_app. cbn [List.length] in *. lia.
Qed.

Lemma load_config_file (lines : list FileLine) (final_newline : bool)
      (c : BatteryConfig) :
  forallb line_wf lines = true ->
  load_config (Some (file_text lines final_newline)) c
  = fold_left apply_file_line lines c.
Proof.
  intros Hok. unfold load_config.
  rewrite (read_lines_fuel _ (S (List.length (file_text lines final_newline))))
    by lia.
  apply read_lines_file; [exact Hok | apply file_text_lines; exact Hok].
Qed.

Lemma field_fold_file (f : Field) (lines : list FileLine) :
  forall c,
    field f (fold_left apply_file_line lines c)
    = match last_assigned (key_of f) lines with
      | Some v => stored_value f v
      | None => field f c
      end.
Proof.
  induction lines as [|l lines IH]; intros c; [reflexivity|].
  cbn [fold_left last_assigned]. rewrite IH.
  destruct (last_assigned (key_of f) lines); [reflexivity|].
  destruct l as [key pad value rest|text]; cbn [apply_file_line]; [|reflexivity].
  rewrite field_set_option. destruct (streq key (key_of f)); reflexivity.
Qed.

(** ** Keys that the file does not hold *)

Lemma cstr_prefix (buf : list ascii) : exists tail, buf = cstr buf ++ tail.
Proof.
  induction buf as [|c buf [tail IH]]; [exists []; reflexivity|].
  cbn [cstr]. destruct (Ascii.eqb c NUL).
  - exists (c :: buf). reflexivity.
  - exists tail. cbn [app]. rewrite <- IH. reflexivity.
Qed.

Lemma strip_newline_prefix (s : list ascii) :
  exists tail, s = strip_newline s ++ tail.
Proof.
  induction s as [|c s [tail IH]]; [exists []; reflexivity|].
  cbn [strip_newline]. destruct (Ascii.eqb c LF).
  - exists (c :: s). reflexivity.
  - exists tail. cbn [app]. rewrite <- IH. reflexivity.
Qed.

Lemma sscanf_key_prefix (line key value : list ascii) :
  sscanf_key_value line = Some (key, value) ->
  exists tail, line = key ++ tail.
Proof.
  unfold sscanf_key_value. intros H.
  pose proof (scan_set_spec (fun c => negb (Ascii.eqb c "=")) 255 line) as (Hsplit & _).
  destruct (scan_set 255 (fun c => negb (Ascii.eqb c "=")) line) as [k r].
  cbn [fst snd] in Hsplit.
  destruct k as [|k0 k]; [discriminate|].
  destruct r as [|r0 r]; [discriminate|].
  destruct (Ascii.eqb r0 "="); [|discriminate].
  destruct (scan_set 255 (fun c => negb (isspace c)) (skip_spaces r)) as [v w].
  destruct v; [discriminate|]. injection H as <- _.
  exists (r0 :: r). symmetry. exact Hsplit.
Qed.

(** The key of the assignment that a round of the loop carries out stands at
    the head of the bytes it read. *)
Lemma process_line_key (buf : list ascii) (c : BatteryConfig) :
  process_line buf c = c \/
  exists key value tail,
    process_line buf c = set_option key value c /\ buf = key ++ tail.
Proof.
  unfold process_line.
  destruct (cstr_prefix buf) as [t1 H1].
  destruct (strip_newline_prefix (cstr buf)) as [t2 H2].
  destruct (strip_newline (cstr buf)) as [|ch rest] eqn:E; [left; reflexivity|].
  destruct (Ascii.eqb ch "#"); [left; reflexivity|].
  destruct (sscanf_key_value (ch :: rest)) as [[key value]|] eqn:Es;
    [|left; reflexivity].
  right. destruct (sscanf_key_prefix _ _ _ Es) as [t3 H3].
  exists key, value, (t3 ++ t2 ++ t1). split; [reflexivity|].
  rewrite H1 at 1. rewrite H2, H3. rewrite <- !app_assoc. reflexivity.
Qed.

Lemma starts_with_app (key tail : list ascii) :
  starts_with key (key ++ tail) = true.
Proof.
  induction key as [|k key IH]; [reflexivity|].
  cbn [app starts_with]. rewrite Ascii.eqb_refl. exact IH.
Qed.

Lemma occurs_at_head (key tail : list ascii) : occurs key (key ++ tail) = true.
Proof.
  destruct (key ++ tail) as [|c s] eqn:E; cbn [occurs]; rewrite <- E;
    rewrite starts_with_app; reflexivity.
Qed.

Lemma occurs_later (key before rest : list ascii) :
  occurs key rest = true -> occurs key (before ++ rest) = true.
Proof.
  intros H. induction before as [|b before IH]; [exact H|].
  cbn [app occurs]. rewrite IH. apply orb_true_r.
Qed.

(** [occurs] says what it should: the bytes split around the key. *)
Lemma occurs_spec (key bytes : list ascii) :
  occurs key bytes = true <-> exists before after, bytes = before ++ key ++ after.
Proof.
  split.
  - induction bytes as [|b bytes IH]; cbn [occurs]; intros H.
    + rewrite orb_false_r in H. destruct key; [|discriminate].
      exists [], []. reflexivity.
    + apply orb_true_iff in H as [H|H].
      * assert (Hs : forall k s, starts_with k s = true -> exists t, s = k ++ t).
        { clear. induction k as [|k0 k IHk]; intros s H; [exists s; reflexivity|].
          destruct s as [|c s]; [discriminate|]. cbn [starts_with] in H.
          apply andb_true_iff in H as [Hc H]. apply Ascii.eqb_eq in Hc. subst c.
          destruct (IHk s H) as [t ->]. exists t. reflexivity. }
        destruct (Hs _ _ H) as [t ->]. exists [], t. reflexivity.
      * destruct (IH H) as (before & after & ->).
        exists (b :: before), after. reflexivity.
  - intros (before & after & ->). apply occurs_later, occurs_at_head.
Qed.

Lemma read_lines_unassigned (f : Field) (fuel : nat) :
  forall input c,
    occurs (key_of f) input = false ->
    field f (read_lines fuel input c) = field f c.
Proof.
  induction fuel as [|fuel IH]; intros input c Hno; [reflexivity|].
  cbn [read_lines]. destruct (fgets 512 input) as [[buf rest]|] eqn:E;
    [|reflexivity].
  apply fgets_takes_one_line_parts in E.
  rewrite IH.
  - destruct (process_line_key buf c) as [->|(key & value & tail & -> & Hbuf)];
      [reflexivity|].
    rewrite field_set_option. destruct (streq key (key_of f)) eqn:Ek;
      [|reflexivity].
    apply streq_eq in Ek. exfalso.
    rewrite <- E, Hbuf, Ek, <- app_assoc, occurs_at_head in Hno. discriminate.
  - destruct (occurs (key_of f) rest) eqn:Er; [|reflexivity].
    rewrite <- E, (occurs_later _ buf rest Er) in Hno. discriminate.
Qed.

(** ** What [atoi] makes of a value *)

Lemma digits_app (ds junk : list ascii) :
  forallb isdigit ds = true ->
  match junk with [] => True | j :: _ => isdigit j = false end ->
  forall acc, digits acc (ds ++ junk) = digits acc ds.
Proof.
  intros Hds Hjunk. induction ds as [|d ds IH]; intros acc.
  - cbn [app digits]. destruct junk as [|j junk]; [reflexivity|].
    cbn [digits]. rewrite Hjunk. reflexivity.
  - cbn [forallb] in Hds. apply andb_true_iff in Hds as [Hd Hds].
    cbn [app digits]. rewrite Hd. apply IH. exact Hds.
Qed.

(** A decimal number reads as itself whatever follows it, unless a digit
    follows. *)
Lemma atoi_leading_number (z : Z) (junk : list ascii) :
  is_int z ->
  match junk with [] => True | j :: _ => isdigit j = false end ->
  atoi (print_int z ++ junk) = z.
Proof.
  intros Hz Hjunk. rewrite <- (atoi_print_int z Hz) at 2.
  unfold atoi. f_equal.
  unfold is_int, INT_MIN, INT_MAX in Hz. unfold print_int, strtol.
  destruct (Z.ltb_spec z 0) as [Hneg|Hpos].
  - destruct (print_nat_facts (- z) ltac:(lia)) as (_ & Hd & _).
    cbn [app skip_spaces]. change (isspace "-") with false. cbv iota.
    change (Ascii.eqb "-" "-") with true. cbv iota.
    rewrite (digits_app _ _ Hd Hjunk). reflexivity.
  - destruct (print_nat_facts z Hpos) as (_ & Hd & Hne & _).
    pose proof (digits_app _ _ Hd Hjunk) as Happ.
    destruct (print_nat z) as [|d rest] eqn:E; [destruct (Hne eq_refl)|].
    cbn [forallb] in Hd. apply andb_true_iff in Hd as [Hd _].
    destruct (isdigit_facts d Hd) as (_ & Hsp & Hminus & Hplus).
    cbn [app skip_spaces]. rewrite Hsp, Hminus, Hplus.
    change (d :: rest ++ junk) with ((d :: rest) ++ junk).
    rewrite Happ. reflexivity.
Qed.

(** Text that starts with neither white space, a sign nor a digit reads
    as 0. *)
Lemma atoi_no_number (ch : ascii) (rest : list ascii) :
  isspace ch = false -> isdigit ch = false ->
  ch <> "-"%char -> ch <> "+"%char ->
  atoi (ch :: rest) = 0.
Proof.
  intros Hsp Hd Hm Hp. unfold atoi, strtol. cbn [skip_spaces]. rewrite Hsp.
  apply Ascii.eqb_neq in Hm, Hp. rewrite Hm, Hp. cbn [digits]. rewrite Hd.
  reflexivity.
Qed.

(** C8, as amended.  Loading never aborts: [load_config] is total, and on
    any bytes its loop ends within as many rounds as the file has bytes.
    Without a file the configuration is left as it was, and on any file a
    field whose key stands nowhere in the bytes keeps the value it had, which
    is the default when [main] loads the file.  For a file made of lines of
    at most 510 characters without NUL, each an assignment [key=value] (the
    key has 1 to 255 characters and does not start with ['#'], white space
    may follow the ['='], the value is a word of 1 to 255 characters without
    white space, and what follows the word is ignored), a comment, an empty
    line or a line without ['='], with or without a newline after the last
    line, every field ends up with the value of the last assignment to its
    key, and a field without assignment keeps the value it had.  What is
    stored is the word itself for an icon name and [atoi] of the word for a
    number, with no check of any range: a decimal [int] reads as itself,
    also when something other than a digit follows it, and a word that
    starts with neither a sign nor a digit reads as 0. *)
Theorem load_config_fields :
  forall c f,
    load_config None c = c /\
    (forall bytes fuel,
        (List.length bytes <= fuel)%nat ->
        read_lines fuel bytes c = load_config (Some bytes) c) /\
    (forall bytes,
        occurs (key_of f) bytes = false ->
        field f (load_config (Some bytes) c) = field f c) /\
    (forall lines final_newline,
        forallb line_wf lines = true ->
        field f (load_config (Some (file_text lines final_newline)) c)
        = match last_assigned (key_of f) lines with
          | Some word => stored_value f word
          | None => field f c
          end) /\
    (forall z junk,
        is_int z ->
        match junk with [] => True | j :: _ => isdigit j = false end ->
        atoi (print_int z ++ junk) = z) /\
    (forall ch rest,
        isspace ch = false -> isdigit ch = false ->
        ch <> "-"%char -> ch <> "+"%char ->
        atoi (ch :: rest) = 0).
Proof.
  intros c f. split; [reflexivity|].
  split.
  { intros bytes fuel Hfuel. unfold load_config.
    apply read_lines_fuel; [exact Hfuel | apply Nat.le_refl]. }
  split.
  { intros bytes Hno. unfold load_config.
    apply read_lines_unassigned. exact Hno. }
  split.
  { intros lines final_newline Hok.
    rewrite (load_config_file lines final_newline c Hok).
    apply field_fold_file. }
  split; [exact atoi_leading_number | exact atoi_no_number].
Qed.

(** A file with a padded value, a number with a tail, a word that is no
    number, text after an icon name and no newline at its end. *)
Lemma load_config_fields_witness :
  let lines :=
    [Skipped (str "# thresholds");
     Assignment (str "warning_level") [] (str "500abc") [];
     Assignment (str "check_interval") (str " ") (str "45") [];
     Skipped [];
     Assignment (str "critical_level") [] (str "low") [];
     Skipped (str "no assignment here");
     Assignment (str "icon_low") [] (str "x") (str " y")] in
  let c := startup_config None (Some (file_text lines false)) in
  file_text lines false
  = str "# thresholds" ++ LF :: str "warning_level=500abc" ++ LF ::
    str "check_interval= 45" ++ LF :: LF :: str "critical_level=low" ++ LF ::
    str "no assignment here" ++ LF :: str "icon_low=x y" /\
  field FWarningLevel c = IntValue 500 /\
  field FCheckInterval c = IntValue 45 /\
  field FCriticalLevel c = IntValue 0 /\
  field FIconLow c = TextValue (str "x") /\
  field FAlertTimeout c = IntValue 30 /\
  field FIconBattery c = TextValue (str "battery-good").
Proof.
  intros lines c.
  assert (Hok : forallb line_wf lines = true) by (vm_compute; reflexivity).
  assert (Hint : is_int 500) by (unfold is_int, INT_MIN, INT_MAX; lia).
  pose proof (load_config_fields (init_default_config None)) as H.
  split; [reflexivity|].
  split.
  { destruct (H FWarningLevel) as (_ & _ & _ & Hlast & Hnum & _).
    unfold c, startup_config. rewrite (Hlast lines false Hok).
    cbn [last_assigned stored_value]. change (last_assigned (key_of FWarningLevel) lines)
      with (Some (print_int 500 ++ str "abc")).
    cbn [stored_value]. rewrite (Hnum 500 (str "abc") Hint eq_refl). reflexivity. }
  split.
  { destruct (H FCheckInterval) as (_ & _ & _ & Hlast & _).
    unfold c, startup_config. rewrite (Hlast lines false Hok). reflexivity. }
  split.
  { destruct (H FCriticalLevel) as (_ & _ & _ & Hlast & _ & Hzero).
    unfold c, startup_config. rewrite (Hlast lines false Hok).
    change (last_assigned (key_of FCriticalLevel) lines) with (Some (str "low")).
    cbn [stored_value]. change (str "low") with ("l"%char :: str "ow").
    rewrite Hzero; [reflexivity | reflexivity | reflexivity | discriminate | discriminate]. }
  split.
  { destruct (H FIconLow) as (_ & _ & _ & Hlast & _).
    unfold c, startup_config. rewrite (Hlast lines false Hok). reflexivity. }
  split.
  { destruct (H FAlertTimeout) as (_ & _ & Hmissing & _).
    unfold c, startup_config. rewrite Hmissing; reflexivity. }
  destruct (H FIconBattery) as (_ & _ & Hmissing & _).
  unfold c, startup_config. rewrite Hmissing; reflexivity.
Defined.

(** ** Instances *)

Lemma suspend_only_witness :
  present (reading 9 0) <> 0 /\ force_suspend default_config <> 0.
Proof.
  assert (E : emits is_suspend
                (trace_of (check_battery_timer default_config always_fails
                             (reading 9 0) 1000 (reading 8 0) initial_globals))
              = true) by reflexivity.
  destruct (proj1 (proj1 (suspend_only_after_grace_recheck default_config
                            always_fails (reading 9 0) 1000 (reading 8 0)
                            initial_globals)) E)
    as (Hp & _ & _ & _ & Hf & _).
  split; [exact Hp | exact Hf].
Defined.

Lemma notification_witness :
  last_alert_time
    (state_of (check_battery_timer default_config always_fails
                 (reading 17 0) 1000 (reading 17 0) initial_globals)) = 1000.
Proof.
  assert (E : emits is_notify
                (trace_of (check_battery_timer default_config always_fails
                             (reading 17 0) 1000 (reading 17 0) initial_globals))
              = true) by reflexivity.
  exact (proj1 (proj1 (notification_sets_alert_time default_config always_fails
                         (reading 17 0) 1000 (reading 17 0) initial_globals) E)).
Defined.

Lemma alert_dialog_witness :
  alert_dialog
    (state_of (check_battery_timer default_config always_fails
                 (reading 5 0) 1000 (reading 5 1) initial_globals)) = false.
Proof.
  assert (H : alert_dialog initial_globals = false) by reflexivity.
  exact (proj1 (proj1 (alert_dialog_never_left_open default_config always_fails
                         (reading 5 0) 1000 (reading 5 1) initial_globals) H)).
Defined.

Lemma get_battery_status_witness :
  status (get_battery_status
            (mkSysfs (mkSupply (Some (Some 1)) (Some (Some 55))
                        (Some (str "Charging" ++ [LF])))
                     unreadable))
  = str "Charging".
Proof.
  assert (E : charging (get_battery_status
                          (mkSysfs (mkSupply (Some (Some 1)) (Some (Some 55))
                                      (Some (str "Charging" ++ [LF])))
                                   unreadable)) = 1) by reflexivity.
  destruct (get_battery_status_shape
              (mkSysfs (mkSupply (Some (Some 1)) (Some (Some 55))
                          (Some (str "Charging" ++ [LF])))
                       unreadable)) as (_ & _ & Hiff & _).
  exact (proj1 Hiff E).
Defined.
